(** * The /map job orchestrator of the YARRRML-to-RML service (index.js)

    A shallow embedding of [index.js]: the pure helpers (URL validation, file
    name sanitising, content negotiation, engine argument construction, the
    bounded stderr buffer) are Rocq functions over JavaScript strings, and the
    [app.post("/map")] handler is a computation in a small state-and-exception
    monad over a file system, an event trace and the response slot. *)

From Stdlib Require Import String Ascii ZArith List Lia DecimalString.
From stdpp Require Import base option list gmap strings.

Local Open Scope Z_scope.

(** ** JavaScript strings

    A JavaScript string is a sequence of UTF-16 code units; [length], [trim],
    [includes], [slice] and the regular expression of the source all work on
    code units. *)

Module JsString.

Definition code_unit := N.
Abbreviation jsstring := (list N).

(** A source literal, given as an ASCII Rocq string. *)
Definition js (s : string) : jsstring :=
  List.map N_of_ascii (list_ascii_of_string s).

Arguments js : simpl never.

Definition eqb (a b : jsstring) : bool := bool_decide (a = b).

(** [WhiteSpace] and [LineTerminator] of ECMAScript: what [trim] strips. *)
Definition is_space (c : code_unit) : bool :=
  (((9 <=? c) && (c <=? 13)) || (c =? 32) || (c =? 160) || (c =? 5760)
   || ((8192 <=? c) && (c <=? 8202)) || (c =? 8232) || (c =? 8233)
   || (c =? 8239) || (c =? 8287) || (c =? 12288) || (c =? 65279))%N.

Fixpoint trim_start (s : jsstring) : jsstring :=
  match s with
  | c :: s' => if is_space c then trim_start s' else s
  | [] => []
  end.

Definition trim_end (s : jsstring) : jsstring := rev (trim_start (rev s)).

(** [String.prototype.trim]. *)
Definition trim (s : jsstring) : jsstring := trim_end (trim_start s).

Fixpoint starts_with (p s : jsstring) : bool :=
  match p, s with
  | [], _ => true
  | a :: p', b :: s' => (a =? b)%N && starts_with p' s'
  | _ :: _, [] => false
  end.

(** [String.prototype.includes]: [p] occurs in [s] as a substring. *)
Fixpoint includes (s p : jsstring) : bool :=
  starts_with p s ||
  match s with
  | [] => false
  | _ :: s' => includes s' p
  end.

(** [String.prototype.split] with a one-code-unit separator. *)
Fixpoint split (sep : code_unit) (s : jsstring) : list jsstring :=
  match s with
  | [] => [[]]
  | c :: s' =>
      if (c =? sep)%N then [] :: split sep s'
      else match split sep s' with
           | piece :: rest => (c :: piece) :: rest
           | [] => [[c]]
           end
  end.

(** [Array.prototype.join] on strings. *)
Fixpoint join (sep : jsstring) (l : list jsstring) : jsstring :=
  match l with
  | [] => []
  | [x] => x
  | x :: rest => x ++ sep ++ join sep rest
  end.

(** [s.slice(-n)] for a positive [n]: the last [n] code units, or all of
    [s] when it is shorter. *)
Definition slice_last (n : nat) (s : jsstring) : jsstring :=
  drop (length s - n) s.

(** Template-literal rendering of an integer Number. *)
Definition of_Z (z : Z) : jsstring := js (NilZero.string_of_int (Z.to_int z)).

End JsString.
Import JsString.

(** ** JavaScript values, as far as the handler inspects them *)

(** The handler only ever asks whether a value is truthy and what its
    [typeof] is, so a Number is kept as an integer: a Number that is not an
    integer behaves here like any non-zero one. *)
#[warnings="-register-all"] Inductive JsVal :=
| JUndefined
| JNull
| JBool (b : bool)
| JNum (z : Z)
| JStr (s : jsstring)
| JArr (items : list JsVal)
| JObj (fields : list (jsstring * JsVal)).

Definition truthy (v : JsVal) : bool :=
  match v with
  | JUndefined | JNull => false
  | JBool b => b
  | JNum z => negb (z =? 0)
  | JStr s => negb (eqb s [])
  | JArr _ | JObj _ => true
  end.

Definition typeof (v : JsVal) : jsstring :=
  match v with
  | JUndefined => js "undefined"
  | JNull | JArr _ | JObj _ => js "object"
  | JBool _ => js "boolean"
  | JNum _ => js "number"
  | JStr _ => js "string"
  end.

Definition isArray (v : JsVal) : bool :=
  match v with JArr _ => true | _ => false end.

Fixpoint assoc (k : jsstring) (fields : list (jsstring * JsVal)) : JsVal :=
  match fields with
  | [] => JUndefined
  | (k', v) :: rest => if eqb k k' then v else assoc k rest
  end.

(** Property read [v.k] for the data properties the handler names
    ([yarrml], [resources], [resourceUrl], [fileName]).  The source guards
    every read with a truthiness test, so it is never applied to [null] or
    [undefined]; primitives and arrays have none of these properties. *)
Definition get_prop (v : JsVal) (k : jsstring) : JsVal :=
  match v with
  | JObj fields => assoc k fields
  | _ => JUndefined
  end.

(** ** Filename Sanitizer (index.js, [sanitizeFilename]) *)

(** The class [[A-Za-z0-9._-]]. *)
Definition safe_char (c : code_unit) : bool :=
  (((65 <=? c) && (c <=? 90)) || ((97 <=? c) && (c <=? 122))
   || ((48 <=? c) && (c <=? 57)) || (c =? 46) || (c =? 95) || (c =? 45))%N.

(** Greedy run of the class from the start of [s]: the count matched and
    the rest, as the [+] of the expression consumes it. *)
Fixpoint scan_class (s : jsstring) : nat * jsstring :=
  match s with
  | c :: s' =>
      if safe_char c then let '(n, rest) := scan_class s' in (S n, rest)
      else (O, s)
  | [] => (O, [])
  end.

(** [/^[A-Za-z0-9._-]+$/.test(s)]: anchored at both ends, one or more. *)
Definition safe_name_re_test (s : jsstring) : bool :=
  match scan_class s with
  | (S _, []) => true
  | _ => false
  end.

(** The default of the [fallback] parameter is never used: the one call
    passes the fallback. *)
Definition sanitizeFilename (name : JsVal) (fallback : jsstring) : jsstring :=
  if negb (truthy name) || negb (eqb (typeof name) (js "string")) then fallback
  else match name with
  | JStr s =>
      let trimmed := trim s in
      if negb (truthy (JStr trimmed)) then fallback else
      if includes trimmed (js "/") || includes trimmed [92%N]
         || includes trimmed (js "..") then fallback else
      if negb (safe_name_re_test trimmed) then fallback else
      trimmed
  | _ => fallback
  end.

(** ** Result Serializer (index.js, [contentTypeFor] and the [outputExt]
    conditional) *)

Definition contentTypeFor (serialization : jsstring) : jsstring :=
  if eqb serialization (js "turtle") then js "text/turtle"
  else if eqb serialization (js "trig") then js "application/trig"
  else if eqb serialization (js "jsonld") then js "application/ld+json"
  else js "application/n-quads".

Definition outputExt (serialization : jsstring) : jsstring :=
  if eqb serialization (js "turtle") then js "ttl"
  else if eqb serialization (js "jsonld") then js "jsonld"
  else js "nq".


(** ** Errors and completions *)

(** A thrown value: an [Error] with its [name] and [message]. *)
Record Exn := mkExn { exn_name : jsstring; exn_message : jsstring }.

Definition Error (msg : jsstring) : Exn := mkExn (js "Error") msg.
Definition TypeError (msg : jsstring) : Exn := mkExn (js "TypeError") msg.
Definition AbortError : Exn :=
  mkExn (js "AbortError") (js "This operation was aborted").

(** [String(err)], that is [Error.prototype.toString]. *)
Definition exn_to_string (e : Exn) : jsstring :=
  if eqb (exn_name e) [] then exn_message e
  else if eqb (exn_message e) [] then exn_name e
  else exn_name e ++ js ": " ++ exn_message e.

(** How an evaluation ends: with a value, with a thrown error, or never
    (an awaited promise that is never settled). *)
Inductive Res (A : Type) :=
| Val (a : A)
| Throw (e : Exn)
| Hang.
Arguments Val {A} a.
Arguments Throw {A} e.
Arguments Hang {A}.

(** ** What the platform provides

    Library code the service calls but does not define: the WHATWG URL
    parser, [JSON], the YARRRML converter and the N3 writer.  They are
    deterministic functions of their arguments. *)

Record URL := mkURL { url_protocol : jsstring; url_hostname : jsstring }.

(** The three shapes [convert()] can return, by what the handler tests:
    [typeof converted === "string"], [Array.isArray(converted)], or neither
    (then only its [typeof] is used). *)
Inductive Converted (Quad : Type) :=
| CvString (text : jsstring)
| CvQuads (quads : list Quad)
| CvOther (type_of : jsstring).
Arguments CvString {Quad} text.
Arguments CvQuads {Quad} quads.
Arguments CvOther {Quad} type_of.

(** The converter's logger: [has("error")] and [getAll()]. *)
Record Logger := mkLogger { log_has_error : bool; log_getAll : JsVal }.

(** [convert] either throws or returns; [getLogger] may be absent. *)
Inductive ConvertOutcome (Quad : Type) :=
| ConvThrows (e : Exn)
| ConvReturns (converted : Converted Quad) (getLogger : option Logger).
Arguments ConvThrows {Quad} e.
Arguments ConvReturns {Quad} converted getLogger.

Class Platform := {
  Quad : Type;
  (** [new URL(u)]: [None] when the constructor throws. *)
  URL_parse : jsstring -> option URL;
  (** [Number(s)] on a string: [None] for [NaN]. *)
  StringToNumber : jsstring -> option Z;
  (** [JSON.parse], as [resp.json()] applies it to the body text. *)
  JSON_parse : jsstring -> Res JsVal;
  (** [JSON.stringify(v, null, 2)]. *)
  JSON_stringify_pretty : JsVal -> jsstring;
  (** [new Yarrrml().convert(text)] with the state of its logger. *)
  yarrrml_convert : jsstring -> ConvertOutcome Quad;
  (** [N3.Writer({format: "Turtle"})]: [addQuads] then [end]. *)
  n3_write_turtle : list Quad -> Res jsstring
}.

(** ** Process environment and start-up constants *)

Abbreviation Env := (gmap string jsstring).

(** [process.env.K || dflt]. *)
Definition env_or (env : Env) (k : string) (dflt : jsstring) : jsstring :=
  match env !! k with
  | Some v => if truthy (JStr v) then v else dflt
  | None => dflt
  end.

Definition RMLMAPPER_JAR (env : Env) : jsstring :=
  env_or env "RMLMAPPER_JAR" (js "/opt/rmlmapper.jar").

Definition DEFAULT_SERIALIZATION (env : Env) : jsstring :=
  trim (env_or env "DEFAULT_SERIALIZATION" (js "nquads")).

Definition FETCH_TIMEOUT_MS `{Platform} (env : Env) : option Z :=
  match env !! "FETCH_TIMEOUT_MS" with
  | Some v => if truthy (JStr v) then StringToNumber v else Some 30000
  | None => Some 30000
  end.

(** ** URL Validator (index.js, [isHttpUrl] and [isAllowedHost]) *)

Definition isHttpUrl `{Platform} (u : jsstring) : bool :=
  match URL_parse u with
  | Some url =>
      eqb (url_protocol url) (js "http:") || eqb (url_protocol url) (js "https:")
  | None => false
  end.

(** [Array.prototype.includes] on an array of strings. *)
Definition array_includes (l : list jsstring) (x : jsstring) : bool :=
  existsb (eqb x) l.

(** The [allow] array of [isAllowedHost]:
    split on commas, trim each piece, drop the empty ones. *)
Definition allow_list (env : Env) : list jsstring :=
  List.filter (fun s => truthy (JStr s))
    (List.map trim (split 44%N (env_or env "ALLOWED_FETCH_HOSTS" []))).

Definition isAllowedHost `{Platform} (env : Env) (u : jsstring) : Res bool :=
  let allow := allow_list env in
  if (length allow =? 0)%nat then Val true
  else match URL_parse u with
       | Some url => Val (array_includes allow (url_hostname url))
       | None => Throw (TypeError (js "Invalid URL"))
       end.

(** ** Engine Invoker, the pure part (index.js, [runRmlMapper]) *)

Record EngineInvocation := mkInvocation {
  workdir : jsstring;
  mappingPath : jsstring;
  outputPath : jsstring;
  serialization : jsstring;
  baseIri : option jsstring   (* [undefined] or a string *)
}.

(** [if (x) args.push(flag, x)] for a string or [undefined]. *)
Definition push_flag (flag : jsstring) (x : option jsstring) : list jsstring :=
  match x with
  | Some v => if truthy (JStr v) then [flag; v] else []
  | None => []
  end.

Definition spawn_args (env : Env) (inv : EngineInvocation) : list jsstring :=
  [js "-jar"; RMLMAPPER_JAR env; js "-m"; mappingPath inv; js "-o"; outputPath inv]
  ++ push_flag (js "-s") (Some (serialization inv))
  ++ push_flag (js "-b") (baseIri inv).

(** What [spawn] is called with. *)
Record SpawnCall := mkSpawn {
  sp_command : jsstring;
  sp_args : list jsstring;
  sp_cwd : jsstring
}.

Definition spawn_call (env : Env) (inv : EngineInvocation) : SpawnCall :=
  mkSpawn (js "java") (spawn_args env inv) (workdir inv).

Definition STDERR_LIMIT : nat := Z.to_nat 200000.

(** The ["data"] listener on [child.stderr]: one decoded chunk. *)
Definition on_stderr_data (stderr d : jsstring) : jsstring :=
  let stderr := stderr ++ d in
  if (STDERR_LIMIT <? length stderr)%nat then slice_last STDERR_LIMIT stderr
  else stderr.

(** The listener applied to the chunks in arrival order, from the empty string. *)
Definition collect_stderr (chunks : list jsstring) : jsstring :=
  fold_left on_stderr_data chunks [].

(** Template-literal rendering of the [code] of the ["close"] event:
    a number, or [null] when a signal ended the process. *)
Definition code_to_string (code : option Z) : jsstring :=
  match code with
  | Some c => of_Z c
  | None => js "null"
  end.

(** The ["close"] listener: resolve with the text kept, or reject. *)
Definition on_close (code : option Z) (stderr : jsstring) : Res jsstring :=
  match code with
  | Some 0 => Val stderr
  | _ => Throw (Error (js "RMLMapper exited with code " ++ code_to_string code
                       ++ [10%N] ++ stderr))
  end.

(** ** Resource Fetcher, one fetch (index.js, [fetchJsonToFile])

    Logical time in milliseconds, counted from the call. *)

(** How reading the response body goes. *)
Inductive BodyOutcome :=
| BodyText (at_ms : Z) (text : jsstring)
| BodyError (at_ms : Z) (e : Exn)
| BodyHang.

(** How the remote end answers one GET. *)
Inductive NetOutcome :=
| NetResponse (at_ms : Z) (status : Z) (body : BodyOutcome)
| NetError (at_ms : Z) (e : Exn)
| NetHang.

(** [setTimeout] coerces its delay: outside [1 .. 2^31-1], or [NaN], is 1. *)
Definition timer_delay (ms : option Z) : Z :=
  match ms with
  | Some d => if (1 <=? d) && (d <=? 2147483647) then d else 1
  | None => 1
  end.

(** [resp.ok]. *)
Definition resp_ok (status : Z) : bool := (200 <=? status) && (status <=? 299).

(** What the awaited part of one fetch comes to, before the file is
    written: the abort timer fired, an error, or a body text to parse. *)
Inductive FetchStep :=
| StepAbort
| StepFail (e : Exn)
| StepBody (text : jsstring).

(** The instant one fetch settles and what it settles to.  The timer calls
    [ac.abort()] at [deadline]; an answer counts only if it arrives before. *)
Definition fetch_plan (deadline : Z) (net : NetOutcome) : Z * FetchStep :=
  match net with
  | NetHang => (deadline, StepAbort)
  | NetError t e => if t <? deadline then (t, StepFail e) else (deadline, StepAbort)
  | NetResponse t status body =>
      if deadline <=? t then (deadline, StepAbort)
      else if negb (resp_ok status)
      then (t, StepFail (Error (js "Fetch failed: HTTP " ++ of_Z status)))
      else match body with
           | BodyHang => (deadline, StepAbort)
           | BodyError tb e =>
               if tb <? deadline then (tb, StepFail e) else (deadline, StepAbort)
           | BodyText tb text =>
               if deadline <=? tb then (deadline, StepAbort) else (tb, StepBody text)
           end
  end.

(** ** Workspace: paths and the file system *)

Definition ends_with_slash (p : jsstring) : bool :=
  match rev p with
  | c :: _ => (c =? 47)%N
  | [] => false
  end.

(** [path.join(dir, seg)] on POSIX for the calls the handler makes: [dir] is
    an absolute normalized directory and [seg] one segment without
    separators that is not [".."]; the segment ["."] names [dir] itself. *)
Definition path_join (dir seg : jsstring) : jsstring :=
  if eqb seg (js ".") then dir
  else if ends_with_slash dir then dir ++ seg
  else dir ++ js "/" ++ seg.

(** Regular files with their text, and directories. *)
Record FS := mkFS {
  files : gmap jsstring jsstring;
  dirs : gset jsstring
}.

(** [p] is [dir] or lies below it. *)
Definition under (dir p : jsstring) : bool :=
  eqb p dir || starts_with (dir ++ js "/") p.

Definition fs_write (p content : jsstring) (fs : FS) : FS :=
  mkFS (<[p := content]> (files fs)) (dirs fs).

Definition fs_mkdir (p : jsstring) (fs : FS) : FS :=
  mkFS (files fs) ({[p]} ∪ dirs fs).

(** [rm -r]: everything at or below [dir] goes. *)
Definition fs_rm_rf (dir : jsstring) (fs : FS) : FS :=
  mkFS (filter (fun kv => under dir kv.1 = false) (files fs))
       (filter (fun d => under dir d = false) (dirs fs)).

(** ** The world outside the process *)

Inductive EngineEnd :=
| SpawnFailed (e : Exn)          (* the ["error"] event *)
| Closed (code : option Z)       (* the ["close"] event *)
| NeverCloses.

(** One run of the child: the decoded stderr chunks in arrival order, how
    it ends, and the file system it leaves. *)
Record EngineRun := mkRun {
  er_stderr : list jsstring;
  er_end : EngineEnd;
  er_fs : FS
}.

Record World := mkWorld {
  w_uuid : jsstring;                           (* [crypto.randomUUID()] *)
  w_tmpdir : jsstring;                         (* [os.tmpdir()] *)
  w_mkdtemp : Exn + jsstring;                  (* failure, or the random suffix *)
  w_net : nat -> jsstring -> NetOutcome;       (* per resource index and URL *)
  w_write_fails : jsstring -> option Exn;      (* I/O failure of [writeFile] *)
  w_engine : SpawnCall -> FS -> EngineRun;
  w_rm_fails : option Exn                      (* failure of [fs.rm] *)
}.

(** ** Requests, responses, events *)

(** [req.query.serialization] as the query-string parser leaves it. *)
#[warnings="-register-all"] Inductive QVal :=
| QStr (s : jsstring)
| QArr (items : list QVal)
| QObj.

Fixpoint q_toString (q : QVal) : jsstring :=
  match q with
  | QStr s => s
  | QArr items => join (js ",") (List.map q_toString items)
  | QObj => js "[object Object]"
  end.

Definition q_truthy (q : option QVal) : bool :=
  match q with
  | Some (QStr s) => truthy (JStr s)
  | Some _ => true
  | None => false
  end.

Record Request := mkRequest {
  query_serialization : option QVal;
  req_body : JsVal
}.

Inductive Response :=
| RJson (status : Z) (body : JsVal)                          (* [res.status(n).json(v)] *)
| RSend (status : Z) (content_type : jsstring) (body : jsstring).

Definition resp_status (r : Response) : Z :=
  match r with RJson n _ => n | RSend n _ _ => n end.

Inductive Event :=
| EMkdtemp (dir : jsstring)
| EFetch (url : jsstring)                       (* [fetch(url)] issued *)
| EAbort (url : jsstring)                       (* [ac.abort()] ran *)
| EWriteFile (path content : jsstring)          (* a write that succeeded *)
| EWriteFailed (path : jsstring)
| EConvert (yarrml : jsstring)                  (* [y2r.convert] called *)
| ESpawn (call : SpawnCall) (seen : FS)         (* child started, on this file system *)
| EReadFile (path : jsstring)
| ERm (path : jsstring) (recursive force : bool).

Record ResourceRef := mkRef { resourceUrl : jsstring; fileName : jsstring }.

(** ** The handler monad: state, exceptions, non-termination *)

Record St := mkSt {
  st_fs : FS;
  st_trace : list Event;          (* oldest first *)
  st_resp : option Response
}.

Definition M (A : Type) : Type := St -> Res A * St.

#[export] Instance M_ret : MRet M := fun A a s => (Val a, s).
#[export] Instance M_bind : MBind M := fun A B f m s =>
  match m s with
  | (Val a, s') => f a s'
  | (Throw e, s') => (Throw e, s')
  | (Hang, s') => (Hang, s')
  end.

Definition throw {A} (e : Exn) : M A := fun s => (Throw e, s).
Definition hang {A} : M A := fun s => (Hang, s).
Definition lift {A} (r : Res A) : M A := fun s => (r, s).
Definition emit (e : Event) : M unit :=
  fun s => (Val tt, mkSt (st_fs s) (st_trace s ++ [e]) (st_resp s)).
Definition get_fs : M FS := fun s => (Val (st_fs s), s).
Definition put_fs (fs : FS) : M unit :=
  fun s => (Val tt, mkSt fs (st_trace s) (st_resp s)).
Definition respond (r : Response) : M unit :=
  fun s => (Val tt, mkSt (st_fs s) (st_trace s) (Some r)).

(** [try { body } catch (err) { handler }]. *)
Definition try_catch {A} (body : M A) (handler : Exn -> M A) : M A := fun s =>
  match body s with
  | (Throw e, s') => handler e s'
  | r => r
  end.

(** [try { body } finally { fin }]: [fin] runs however [body] ends, and an
    abrupt end of [fin] replaces the completion of [body]. *)
Definition try_finally {A} (body : M A) (fin : M unit) : M A := fun s =>
  match body s with
  | (Hang, s') => (Hang, s')
  | (r, s') =>
      match fin s' with
      | (Val _, s'') => (r, s'')
      | (Throw e, s'') => (Throw e, s'')
      | (Hang, s'') => (Hang, s'')
      end
  end.

(** [try { m } catch {}]. *)
Definition swallow (m : M unit) : M unit := try_catch m (fun _ => mret tt).

Fixpoint for_each {A} (f : A -> M unit) (l : list A) : M unit :=
  match l with
  | [] => mret tt
  | x :: rest => f x ;; for_each f rest
  end.

(** ** File operations of the handler *)

Definition EISDIR (p : jsstring) : Exn :=
  Error (js "EISDIR: illegal operation on a directory, open '" ++ p ++ js "'").
Definition ENOENT (p : jsstring) : Exn :=
  Error (js "ENOENT: no such file or directory, open '" ++ p ++ js "'").

(** [fs.writeFile(p, content, "utf8")]: creates or replaces the file. *)
Definition writeFile (w : World) (p content : jsstring) : M unit :=
  fs ← get_fs;
  if bool_decide (p ∈ dirs fs) then emit (EWriteFailed p) ;; throw (EISDIR p)
  else match w_write_fails w p with
       | Some e => emit (EWriteFailed p) ;; throw e
       | None => put_fs (fs_write p content fs) ;; emit (EWriteFile p content)
       end.

(** [fs.readFile(p, "utf8")]. *)
Definition readFile (p : jsstring) : M jsstring :=
  emit (EReadFile p) ;;
  fs ← get_fs;
  match files fs !! p with
  | Some text => mret text
  | None => throw (ENOENT p)
  end.

(** [fs.mkdtemp(prefix)]. *)
Definition mkdtemp (w : World) (prefix : jsstring) : M jsstring :=
  match w_mkdtemp w with
  | inl e => throw e
  | inr suffix =>
      let dir := prefix ++ suffix in
      fs ← get_fs;
      put_fs (fs_mkdir dir fs) ;; emit (EMkdtemp dir) ;; mret dir
  end.

(** [fs.rm(dir, { recursive: true, force: true })]. *)
Definition rm_rf (w : World) (dir : jsstring) : M unit :=
  emit (ERm dir true true) ;;
  match w_rm_fails w with
  | Some e => throw e
  | None => fs ← get_fs; put_fs (fs_rm_rf dir fs)
  end.

(** ** Resource Fetcher in the monad *)

Section Fetcher.
Context `{Platform}.
Variables (env : Env) (w : World).

(** The part of [fetchJsonToFile] after its first [await]. *)
Definition fetch_settle (url outPath : jsstring) (step : FetchStep) : M unit :=
  match step with
  | StepAbort => emit (EAbort url) ;; throw AbortError
  | StepFail e => throw e
  | StepBody text =>
      json ← lift (JSON_parse text);
      writeFile w outPath (JSON_stringify_pretty json)
  end.

Definition fetch_deadline : Z := timer_delay (FETCH_TIMEOUT_MS env).

(** [fetchJsonToFile(resourceUrl, outPath)] as a call on its own; [i]
    numbers the call for the world. *)
Definition fetchJsonToFile (i : nat) (url outPath : jsstring) : M unit :=
  emit (EFetch url) ;;
  fetch_settle url outPath (fetch_plan fetch_deadline (w_net w i url)).2.

(** One pending call inside [Promise.all]. *)
Record FetchTask := mkTask {
  ft_url : jsstring;
  ft_path : jsstring;
  ft_at : Z;
  ft_step : FetchStep
}.

Definition make_task (workdir : jsstring) (i : nat) (r : ResourceRef) : FetchTask :=
  let plan := fetch_plan fetch_deadline (w_net w i (resourceUrl r)) in
  mkTask (resourceUrl r) (path_join workdir (fileName r)) plan.1 plan.2.

(** Calls settle in the order of their instants; equal instants keep the
    order of the calls. *)
Fixpoint insert_by_time (t : FetchTask) (l : list FetchTask) : list FetchTask :=
  match l with
  | [] => [t]
  | u :: rest =>
      if ft_at t <? ft_at u then t :: l else u :: insert_by_time t rest
  end.

Definition sort_by_time (l : list FetchTask) : list FetchTask :=
  fold_left (fun acc t => insert_by_time t acc) l [].

(** [await Promise.all(normalized.map(...))]: every call is started in
    order, then they settle; the first rejection ends the wait, and what the
    calls still pending do afterwards is not part of the handler's run. *)
Definition fetch_all (workdir : jsstring) (normalized : list ResourceRef) : M unit :=
  let tasks := imap (make_task workdir) normalized in
  for_each (fun t => emit (EFetch (ft_url t))) tasks ;;
  for_each (fun t => fetch_settle (ft_url t) (ft_path t) (ft_step t))
           (sort_by_time tasks).

End Fetcher.

(** ** Engine Invoker in the monad (index.js, [runRmlMapper]) *)

(** Resolves with the stderr text kept.  The listeners run on the events of
    the child: the chunks, then ["error"] or ["close"]. *)
Definition runRmlMapper (env : Env) (w : World) (inv : EngineInvocation) : M jsstring :=
  fs ← get_fs;
  let call := spawn_call env inv in
  emit (ESpawn call fs) ;;
  let run := w_engine w call fs in
  put_fs (er_fs run) ;;
  match er_end run with
  | SpawnFailed e => throw e
  | Closed code => lift (on_close code (collect_stderr (er_stderr run)))
  | NeverCloses => hang
  end.

(** ** The job orchestrator (index.js, [app.post("/map")]) *)

Section Handler.
Context `{Platform}.
Variables (env : Env) (w : World).

(** [quadsToTurtle(quads)]: the promise around the N3 writer. *)
Definition quadsToTurtle (quads : list Quad) : M jsstring :=
  lift (n3_write_turtle quads).

Definition str_of (v : JsVal) : jsstring :=
  match v with JStr s => s | _ => [] end.

Definition arr_items (v : JsVal) : list JsVal :=
  match v with JArr items => items | _ => [] end.

Definition field (k : string) (v : JsVal) : jsstring * JsVal := (js k, v).

(** A double-quoted word inside a message. *)
Definition quoted (s : string) : jsstring := [34%N] ++ js s ++ [34%N].

Definition missing_yarrml : Response :=
  RJson 400 (JObj [field "error" (JStr (js "Missing yarrml"));
                   field "hint" (JStr (
    js "Body must include: { " ++ quoted "yarrml" ++ js ": " ++ quoted "..."
    ++ js ", " ++ quoted "resources" ++ js ": [...] }"))]).

Definition missing_resources : Response :=
  RJson 400 (JObj [field "error" (JStr (js "Missing resources"));
                   field "hint" (JStr (
    js "Provide: " ++ quoted "resources" ++ js ": [ { " ++ quoted "resourceUrl"
    ++ js ": " ++ quoted "..." ++ js ", " ++ quoted "fileName" ++ js ": "
    ++ quoted "data.json" ++ js " } ]"))]).

Definition error_only (status : Z) (msg : jsstring) : Response :=
  RJson status (JObj [field "error" (JStr msg)]).

(** [r && typeof r.k === "string" ? r.k : (empty string)], before any
    trimming. *)
Definition string_prop (r : JsVal) (k : string) : jsstring :=
  if truthy r && eqb (typeof (get_prop r (js k))) (js "string")
  then str_of (get_prop r (js k)) else [].

(** The validation loop.  [None]: a response was sent and the handler
    returned; [Some l]: the loop ran to its end with [normalized = l]. *)
Fixpoint validate (resources : list JsVal) (normalized : list ResourceRef)
  : M (option (list ResourceRef)) :=
  match resources with
  | [] => mret (Some normalized)
  | r :: rest =>
      let resourceUrl := trim (string_prop r "resourceUrl") in
      if negb (truthy (JStr resourceUrl)) then
        respond (error_only 400 (js "Each resource must have resourceUrl")) ;;
        mret None
      else if negb (isHttpUrl resourceUrl) then
        respond (error_only 400 (js "resourceUrl must be http(s): " ++ resourceUrl)) ;;
        mret None
      else
        allowed ← lift (isAllowedHost env resourceUrl);
        if negb allowed then
          respond (error_only 403
            (js "resourceUrl host not allowed by ALLOWED_FETCH_HOSTS: " ++ resourceUrl)) ;;
          mret None
        else
          let fileName := sanitizeFilename (JStr (string_prop r "fileName")) (js "data.json") in
          validate rest (normalized ++ [mkRef resourceUrl fileName])
  end.

(** [err && err.message ? err.message : String(err)]. *)
Definition failure_message (err : Exn) : jsstring :=
  if truthy (JStr (exn_message err)) then exn_message err else exn_to_string err.

(** The [try] block.  The two [console.log] lines after [convert] only
    print the type of its result; they cannot throw and are left out. *)
Definition job_body (serialization yarrml workdir mappingPath outputPath : jsstring)
    (normalized : list ResourceRef) : M unit :=
  (* 1) fetch all resources into workdir *)
  fetch_all env w workdir normalized ;;
  (* 2) convert YARRRML -> RML *)
  emit (EConvert yarrml) ;;
  match yarrrml_convert yarrml with
  | ConvThrows e => throw e
  | ConvReturns converted getLogger =>
      if match getLogger with Some lg => log_has_error lg | None => false end then
        respond (RJson 422
          (JObj [field "error" (JStr (js "YARRRML conversion failed"));
                 field "logs" (match getLogger with
                               | Some lg => log_getAll lg
                               | None => JUndefined
                               end)]))
      else
        rmlTurtle ← match converted with
                    | CvString text => mret text
                    | CvQuads quads => quadsToTurtle quads
                    | CvOther type_of =>
                        throw (Error (js "Unexpected yarrrml convert() return type: "
                                      ++ type_of))
                    end;
        (* 3) write mapping *)
        writeFile w mappingPath rmlTurtle ;;
        (* 4) run mapper *)
        let baseIri := trim (env_or env "BASE_IRI" []) in
        runRmlMapper env w
          (mkInvocation workdir mappingPath outputPath serialization
             (if truthy (JStr baseIri) then Some baseIri else None)) ;;
        (* 5) return output *)
        out ← readFile outputPath;
        respond (RSend 200 (contentTypeFor serialization ++ js "; charset=utf-8") out)
  end.

(** The [catch] block. *)
Definition job_catch (err : Exn) : M unit :=
  respond (RJson 422 (JObj [field "error" (JStr (js "Mapping failed"));
                            field "message" (JStr (failure_message err))])).

(** The [finally] block. *)
Definition job_finally (workdir : jsstring) : M unit :=
  swallow (rm_rf w workdir).

(** [(req.query.serialization || DEFAULT_SERIALIZATION).toString().trim()]. *)
Definition request_serialization (req : Request) : jsstring :=
  trim (if q_truthy (query_serialization req)
        then match query_serialization req with
             | Some q => q_toString q
             | None => []
             end
        else DEFAULT_SERIALIZATION env).

Definition post_map (req : Request) : M unit :=
  let serialization := request_serialization req in
  let body := if truthy (req_body req) then req_body req else JObj [] in
  let yarrml := get_prop body (js "yarrml") in
  if negb (eqb (typeof yarrml) (js "string")) || negb (truthy (JStr (trim (str_of yarrml))))
  then respond missing_yarrml
  else
    let resources :=
      if isArray (get_prop body (js "resources"))
      then Some (arr_items (get_prop body (js "resources"))) else None in
    match resources with
    | None | Some [] => respond missing_resources
    | Some items =>
        normalized ← validate items [];
        match normalized with
        | None => mret tt
        | Some normalized =>
            (* per-request working dir *)
            let jobId := w_uuid w in
            workdir ← mkdtemp w (path_join (w_tmpdir w) (js "mapjob-" ++ jobId ++ js "-"));
            let mappingPath := path_join workdir (js "mapping.ttl") in
            let outputPath := path_join workdir (js "output." ++ outputExt serialization) in
            try_finally
              (try_catch
                 (job_body serialization (str_of yarrml) workdir mappingPath outputPath
                    normalized)
                 job_catch)
              (job_finally workdir)
        end
    end.

Definition initial (fs : FS) : St := mkSt fs [] None.

(** One request against a file system: how the handler's promise ends, and
    the final state (file system, events, response). *)
Definition handle (fs : FS) (req : Request) : Res unit * St :=
  post_map req (initial fs).

End Handler.

(** ** CORS policy (index.js, [allowedOrigins] and the [origin] callback) *)

(** [(process.env.ALLOWED_ORIGINS || "http://localhost:5173")
    .split(",").map(s => s.trim())]. *)
Definition allowedOrigins (env : Env) : list jsstring :=
  List.map trim (split 44%N (env_or env "ALLOWED_ORIGINS" (js "http://localhost:5173"))).

(** What the callback is called with: [cb(null, true)] or [cb(err)]. *)
Inductive CorsDecision :=
| CorsAllow
| CorsDeny (err : Exn).

(** The [origin] option: [origin] is the request's [Origin] header,
    [undefined] when there is none. *)
Definition cors_origin (env : Env) (origin : option jsstring) : CorsDecision :=
  match origin with
  | None => CorsAllow
  | Some o =>
      if negb (truthy (JStr o)) then CorsAllow
      else if array_includes (allowedOrigins env) (js "*")
              || array_includes (allowedOrigins env) o then CorsAllow
      else CorsDeny (Error (js "Not allowed by CORS: " ++ o))
  end.

(** ** A small platform and world to run the model on examples

    Stand-ins for the library code, enough for the sample requests below:
    URLs of the form [scheme://host/path], the JSON texts [{}], [[]] and
    [null], and a converter that answers by the first word of its input. *)

Module Sample.

Fixpoint take_until (c : code_unit) (s : jsstring) : jsstring :=
  match s with
  | [] => []
  | x :: s' => if (x =? c)%N then [] else x :: take_until c s'
  end.

Fixpoint after_scheme (s : jsstring) : option (jsstring * jsstring) :=
  match s with
  | [] => None
  | x :: s' =>
      if starts_with (js "://") s then Some ([], drop 3 s)
      else match after_scheme s' with
           | Some (scheme, rest) => Some (x :: scheme, rest)
           | None => None
           end
  end.

Definition url_parse (u : jsstring) : option URL :=
  match after_scheme u with
  | Some (scheme, rest) =>
      if eqb scheme [] then None
      else Some (mkURL (scheme ++ js ":") (take_until 47%N rest))
  | None => None
  end.

Definition json_parse (text : jsstring) : Res JsVal :=
  if eqb text (js "{}") then Val (JObj [])
  else if eqb text (js "[]") then Val (JArr [])
  else if eqb text (js "null") then Val JNull
  else Throw (mkExn (js "SyntaxError") (js "Unexpected token in JSON")).

Definition json_pretty (v : JsVal) : jsstring :=
  match v with
  | JArr _ => js "[]"
  | JNull => js "null"
  | _ => js "{}"
  end.

Definition convert (text : jsstring) : ConvertOutcome unit :=
  if starts_with (js "bad") text then
    ConvReturns (CvQuads []) (Some (mkLogger true (JArr [JStr (js "error: bad mapping")])))
  else if starts_with (js "@prefix") text then ConvReturns (CvString text) None
  else if starts_with (js "odd") text then ConvReturns (CvOther (js "number")) None
  else ConvReturns (CvQuads [tt]) (Some (mkLogger false (JArr []))).

#[export] Instance platform : Platform := {|
  Quad := unit;
  URL_parse := url_parse;
  StringToNumber := fun _ => None;
  JSON_parse := json_parse;
  JSON_stringify_pretty := json_pretty;
  yarrrml_convert := convert;
  n3_write_turtle := fun _ => Val (js "<#m> a <#TriplesMap> .")
|}.

Definition fs0 : FS := mkFS ∅ ∅.

(** An engine that writes its output file and exits with [code]. *)
Definition engine (code : Z) (chunks : list jsstring) (call : SpawnCall) (fs : FS)
  : EngineRun :=
  mkRun chunks (Closed (Some code))
        (match sp_args call with
         | _ :: _ :: _ :: _ :: _ :: out :: _ =>
             if code =? 0 then fs_write out (js "<s> <p> <o> .") fs else fs
         | _ => fs
         end).

(** Every resource answers [200] with [{}] after 5 ms, except a host named
    [down], which answers [500]. *)
Definition net (_ : nat) (url : jsstring) : NetOutcome :=
  if includes url (js "//down/") then NetResponse 5 500 (BodyText 6 [])
  else NetResponse 5 200 (BodyText 7 (js "{}")).

Definition world (code : Z) (rm_fails : option Exn) : World :=
  mkWorld (js "0000-1111") (js "/tmp") (inr (js "AbC123")) net (fun _ => None)
          (engine code [js "warn: "; js "x"]) rm_fails.

Definition resource (url name : string) : JsVal :=
  JObj [(js "resourceUrl", JStr (js url)); (js "fileName", JStr (js name))].

Definition request (yarrml : string) (resources : list JsVal) : Request :=
  mkRequest (Some (QStr (js "turtle")))
            (JObj [(js "yarrml", JStr (js yarrml)); (js "resources", JArr resources)]).

(** A world whose engine exits with 0 and writes nothing. *)
Definition silent_world : World :=
  mkWorld (js "0000-1111") (js "/tmp") (inr (js "AbC123")) net (fun _ => None)
          (fun _ fs => mkRun [] (Closed (Some 0)) fs) None.

(** The workspace every sample world creates. *)
Definition workdir : jsstring := js "/tmp/mapjob-0000-1111-AbC123".

Definition one_resource (yarrml url : string) : Request :=
  request yarrml [resource url "a.json"].

(** A world whose engine never exits. *)
Definition stuck_world : World :=
  mkWorld (js "0000-1111") (js "/tmp") (inr (js "AbC123")) net (fun _ => None)
          (fun _ fs => mkRun [] NeverCloses fs) None.

Definition env_open : Env := ∅.
Definition env_closed : Env := {[ "ALLOWED_FETCH_HOSTS" := js "example.org, data.example.org" ]}.

End Sample.

(** ** Specification-side notions

    Stated independently of the functions above, in the words of the
    component contracts; the theorems relate the two. *)

(** [p] occurs in [s]. *)
Definition contains (s p : jsstring) : Prop :=
  exists pre suf, s = pre ++ p ++ suf.

(** A code unit of the class [[A-Za-z0-9._-]]. *)
Definition in_class (c : code_unit) : Prop :=
  (65 <= c <= 90 \/ 97 <= c <= 122 \/ 48 <= c <= 57 \/ c = 46 \/ c = 95 \/ c = 45)%N.

(** A trimmed name the sanitizer lets through: non-empty, none of [/],
    [\] and [..] in it, and made of the class only. *)
Definition acceptable (t : jsstring) : Prop :=
  t <> [] /\ ~ contains t (js "/") /\ ~ contains t [92%N] /\ ~ contains t (js "..")
  /\ Forall in_class t.

(** The candidate is a non-empty string and [t], its trimmed form, is
    acceptable. *)
Definition sanitizer_accepts (name : JsVal) (t : jsstring) : Prop :=
  exists s, name = JStr s /\ s <> [] /\ t = trim s /\ acceptable t.

(** The argument list has the option [flag] followed by the value [v]. *)
Definition has_option (flag v : jsstring) (args : list jsstring) : Prop :=
  exists pre suf, args = pre ++ flag :: v :: suf.

(** The base-IRI override an invocation carries; empty when it has none. *)
Definition base_value (inv : EngineInvocation) : jsstring :=
  default [] (baseIri inv).

(** The configured value of [ALLOWED_FETCH_HOSTS]; empty when unset. *)
Definition configured_hosts (env : Env) : jsstring :=
  default [] (env !! "ALLOWED_FETCH_HOSTS").

(** [e] is an entry of the allow-list: a comma-separated piece of the
    configured value, trimmed, and not empty. *)
Definition allow_entry (env : Env) (e : jsstring) : Prop :=
  e <> [] /\ exists piece, In piece (split 44%N (configured_hosts env)) /\ e = trim piece.

(** [kept] is the last [n] code units of [emitted], or all of it when
    [emitted] is shorter. *)
Definition most_recent (n : nat) (emitted kept : jsstring) : Prop :=
  (exists dropped, emitted = dropped ++ kept)
  /\ length kept = Nat.min n (length emitted).

(** When the last thing a fetch awaits arrives: the headers of a response
    that is not 2xx, a network error, or the body of a 2xx response; [None]
    when it never does. *)
Definition arrival (net : NetOutcome) : option Z :=
  match net with
  | NetHang => None
  | NetError t _ => Some t
  | NetResponse t status body =>
      if resp_ok status then
        match body with
        | BodyText tb _ | BodyError tb _ => Some (Z.max t tb)
        | BodyHang => None
        end
      else Some t
  end.

(** The deadline elapses before the fetch has what it awaits. *)
Definition deadline_first (deadline : Z) (net : NetOutcome) : Prop :=
  match arrival net with
  | Some a => deadline <= a
  | None => True
  end.

(** The state after further events, with the same files and response. *)
Definition after_events (s : St) (events : list Event) : St :=
  mkSt (st_fs s) (st_trace s ++ events) (st_resp s).

(** A computation only appends events, each satisfying [P], to the trace. *)
Definition emits (P : Event -> Prop) {A} (m : M A) : Prop :=
  forall s, exists evs, st_trace (m s).2 = st_trace s ++ evs /\ Forall P evs.

(** A computation leaves the response slot alone. *)
Definition keeps_response {A} (m : M A) : Prop :=
  forall s, st_resp (m s).2 = st_resp s.

(** The events of the fetch phase. *)
Definition fetch_event (e : Event) : Prop :=
  match e with
  | EFetch _ | EAbort _ | EWriteFile _ _ | EWriteFailed _ => True
  | _ => False
  end.

Definition is_spawn (e : Event) : Prop :=
  match e with ESpawn _ _ => True | _ => False end.

(** An event that starts no child. *)
Abbreviation quiet := (fun e : Event => ~ is_spawn e).

(** What the validation loop pushes for a resource it accepts. *)
Definition normalize (r : JsVal) : ResourceRef :=
  mkRef (trim (string_prop r "resourceUrl"))
        (sanitizeFilename (JStr (string_prop r "fileName")) (js "data.json")).

(** The three checks of the validation loop, passed. *)
Definition accepted `{Platform} (env : Env) (r : JsVal) : Prop :=
  resourceUrl (normalize r) <> []
  /\ isHttpUrl (resourceUrl (normalize r)) = true
  /\ isAllowedHost env (resourceUrl (normalize r)) = Val true.

(** A resource entry the request must be rejected for: its [resourceUrl] is
    missing (absent, not a string, or blank), or does not parse, or is not
    http(s), or names a host outside a non-empty allow-list. *)
Inductive bad_resource `{Platform} (env : Env) (r : JsVal) : Prop :=
| bad_missing :
    (forall s, get_prop r (js "resourceUrl") = JStr s -> trim s = []) ->
    bad_resource env r
| bad_unparseable s :
    get_prop r (js "resourceUrl") = JStr s -> URL_parse (trim s) = None ->
    bad_resource env r
| bad_scheme s url :
    get_prop r (js "resourceUrl") = JStr s -> URL_parse (trim s) = Some url ->
    url_protocol url <> js "http:" -> url_protocol url <> js "https:" ->
    bad_resource env r
| bad_host s url :
    get_prop r (js "resourceUrl") = JStr s -> URL_parse (trim s) = Some url ->
    (exists e, allow_entry env e) -> ~ allow_entry env (url_hostname url) ->
    bad_resource env r.

(** The [try]/[catch]/[finally] statement of the handler. *)
Definition guarded_job `{Platform} (env : Env) (w : World)
    (serialization yarrml dir : jsstring) (normalized : list ResourceRef) : M unit :=
  try_finally
    (try_catch
       (job_body env w serialization yarrml dir
          (path_join dir (js "mapping.ttl"))
          (path_join dir (js "output." ++ outputExt serialization)) normalized)
       job_catch)
    (job_finally w dir).

(** The directory [mkdtemp] creates in a world where it succeeds. *)
Definition workspace_of (w : World) (suffix : jsstring) : jsstring :=
  path_join (w_tmpdir w) (js "mapjob-" ++ w_uuid w ++ js "-") ++ suffix.

(** The state right after the workspace [dir] was created. *)
Definition created (dir : jsstring) (s : St) : St :=
  mkSt (fs_mkdir dir (st_fs s)) (st_trace s ++ [EMkdtemp dir]) (st_resp s).

(** The same world with another outcome of the workspace removal. *)
Definition with_rm (w : World) (outcome : option Exn) : World :=
  mkWorld (w_uuid w) (w_tmpdir w) (w_mkdtemp w) (w_net w) (w_write_fails w)
          (w_engine w) outcome.

(** The state after the [finally] block ran on [s]. *)
Definition cleaned (w : World) (dir : jsstring) (s : St) : St :=
  mkSt (match w_rm_fails w with
        | Some _ => st_fs s
        | None => fs_rm_rf dir (st_fs s)
        end)
       (st_trace s ++ [ERm dir true true]) (st_resp s).

(** The events of the [try] block converting [y]. *)
Definition job_event (y : jsstring) (e : Event) : Prop :=
  match e with
  | EMkdtemp _ | ERm _ _ _ => False
  | EConvert y' => y' = y
  | _ => True
  end.

(** The answer to a conversion that logged an error. *)
Definition conversion_failed (lg : Logger) : Response :=
  RJson 422 (JObj [field "error" (JStr (js "YARRRML conversion failed"));
                   field "logs" (log_getAll lg)]).

(** The base-IRI override the handler passes on: the trimmed [BASE_IRI], or
    [undefined] when that is empty. *)
Definition configured_base (env : Env) : option jsstring :=
  let baseIri := trim (env_or env "BASE_IRI" []) in
  if truthy (JStr baseIri) then Some baseIri else None.

(** The invocation the handler builds for the workspace [dir]. *)
Definition job_invocation (env : Env) (ser dir : jsstring) : EngineInvocation :=
  mkInvocation dir (path_join dir (js "mapping.ttl"))
    (path_join dir (js "output." ++ outputExt ser)) ser (configured_base env).

(** The mapping document the conversion step produces from [y], when it
    produces one. *)
Definition generated_mapping `{Platform} (y : jsstring) : option jsstring :=
  match yarrrml_convert y with
  | ConvReturns (CvString text) _ => Some text
  | ConvReturns (CvQuads quads) _ =>
      match n3_write_turtle quads with
      | Val text => Some text
      | _ => None
      end
  | _ => None
  end.

(** The response to the GET of [url], call number [i], was read in full and
    its body parses to [json]. *)
Definition fetched `{Platform} (w : World) (i : nat) (url : jsstring) (json : JsVal) : Prop :=
  exists t status tb text,
    w_net w i url = NetResponse t status (BodyText tb text)
    /\ JSON_parse text = Val json.

(** [e] is an allowed origin: a comma-separated piece of the configured
    [ALLOWED_ORIGINS] (of [http://localhost:5173] when that is unset or
    empty), trimmed. *)
Definition origin_entry (env : Env) (e : jsstring) : Prop :=
  exists piece,
    In piece (split 44%N (env_or env "ALLOWED_ORIGINS" (js "http://localhost:5173")))
    /\ e = trim piece.

(** Steps 4 and 5 of the [try] block: run the mapper, read its output,
    answer 200. *)
Definition engine_phase (env : Env) (w : World) (inv : EngineInvocation)
    (ser : jsstring) : M unit :=
  runRmlMapper env w inv ;;
  out ← readFile (outputPath inv);
  respond (RSend 200 (contentTypeFor ser ++ js "; charset=utf-8") out).

(** The answer of the [catch] block to the error [e]. *)
Definition mapping_failed (e : Exn) : Response :=
  RJson 422 (JObj [field "error" (JStr (js "Mapping failed"));
                   field "message" (JStr (failure_message e))]).

(** What [catch] and [finally] make of the way the [try] block ended. *)
Definition settle_job (w : World) (dir : jsstring) (ended : Res unit * St)
  : Res unit * St :=
  match ended with
  | (Val _, s) => (Val tt, cleaned w dir s)
  | (Throw e, s) =>
      (Val tt, cleaned w dir (mkSt (st_fs s) (st_trace s) (Some (mapping_failed e))))
  | (Hang, s) => (Hang, s)
  end.

(** The [try] block of the job in the workspace [dir]. *)
Definition job_try `{Platform} (env : Env) (w : World)
    (ser y dir : jsstring) (normalized : list ResourceRef) : M unit :=
  job_body env w ser y dir (path_join dir (js "mapping.ttl"))
    (path_join dir (js "output." ++ outputExt ser)) normalized.

(** The state in which the engine phase starts: the fetch phase ended in
    [s2] and the mapping document [rml] was written to [mp]. *)
Definition mapped (y mp rml : jsstring) (s2 : St) : St :=
  mkSt (fs_write mp rml (st_fs s2))
       (st_trace s2 ++ [EConvert y; EWriteFile mp rml]) (st_resp s2).

(** An event of the [try] block that starts no child. *)
Definition calm (y : jsstring) (e : Event) : Prop := job_event y e /\ ~ is_spawn e.

Definition is_rm (e : Event) : Prop :=
  match e with ERm _ _ _ => True | _ => False end.

(** The message of the error a child that closed with [code] is reported
    with. *)
Definition exit_message (code : option Z) (stderr : jsstring) : jsstring :=
  js "RMLMapper exited with code " ++ code_to_string code ++ [10%N] ++ stderr.

(** The answer the validation loop gives for a resource it does not
    accept, by the first check that fails. *)
Definition rejection `{Platform} (r : JsVal) : Response :=
  let url := resourceUrl (normalize r) in
  if eqb url [] then error_only 400 (js "Each resource must have resourceUrl")
  else if negb (isHttpUrl url)
  then error_only 400 (js "resourceUrl must be http(s): " ++ url)
  else error_only 403 (js "resourceUrl host not allowed by ALLOWED_FETCH_HOSTS: " ++ url).

(** The [i]-th fetch delivers a document: response and body arrive before
    the deadline, the status is 2xx and the body parses as JSON. *)
Definition delivers `{Platform} (env : Env) (w : World) (i : nat) (url : jsstring) : Prop :=
  exists t status tb text json,
    w_net w i url = NetResponse t status (BodyText tb text)
    /\ t < fetch_deadline env /\ tb < fetch_deadline env
    /\ 200 <= status <= 299
    /\ JSON_parse text = Val json.

Definition is_convert (e : Event) : Prop :=
  match e with EConvert _ => True | _ => False end.



(** The file a resource is fetched into. *)
Definition target (dir : jsstring) (r : JsVal) : jsstring :=
  path_join dir (fileName (normalize r)).

Definition is_fetch (e : Event) : Prop :=
  match e with EFetch _ => True | _ => False end.

Definition is_mkdtemp (e : Event) : Prop :=
  match e with EMkdtemp _ => True | _ => False end.

(** The file an event reads or writes. *)
Definition touches (e : Event) : option jsstring :=
  match e with
  | EWriteFile p _ | EWriteFailed p | EReadFile p => Some p
  | _ => None
  end.

(** The event reads or writes, if anything, the workspace joined with one
    acceptable name. *)
Definition confined (dir : jsstring) (e : Event) : Prop :=
  forall p, touches e = Some p -> exists name, acceptable name /\ p = path_join dir name.

(** The child started by [call] on the files [seen] never exits. *)
Definition never_exits (w : World) (call : SpawnCall) (seen : FS) : Prop :=
  er_end (w_engine w call seen) = NeverCloses.

(** * Properties *)

(** ** Facts about the string primitives *)

Section StringFacts.

Lemma eqb_true (a b : jsstring) : eqb a b = true <-> a = b.
Proof. unfold eqb. apply bool_decide_eq_true. Qed.

Lemma eqb_false (a b : jsstring) : eqb a b = false <-> a <> b.
Proof. unfold eqb. apply bool_decide_eq_false. Qed.

Lemma eqb_refl (a : jsstring) : eqb a a = true.
Proof. by apply eqb_true. Qed.

Lemma starts_with_prefix (p s : jsstring) :
  starts_with p s = true <-> exists suf, s = p ++ suf.
Proof.
  revert s. induction p as [|a p IH]; intros s; simpl.
  - split; [eauto | done].
  - destruct s as [|b s].
    + split; [done | intros [suf Hs]; discriminate].
    + rewrite andb_true_iff, N.eqb_eq, IH. split.
      * intros [-> [suf ->]]. eauto.
      * intros [suf Hs]. injection Hs as -> ->. eauto.
Qed.

Lemma includes_contains (s p : jsstring) :
  includes s p = true <-> contains s p.
Proof.
  induction s as [|c s IH].
  - simpl. rewrite orb_false_r, starts_with_prefix. split.
    + intros [suf Hs]. exists [], suf. done.
    + intros (pre & suf & Hs). destruct pre; [eauto | discriminate].
  - cbn [includes]. rewrite orb_true_iff, starts_with_prefix, IH. split.
    + intros [[suf Hs] | (pre & suf & Hs)].
      * exists [], suf. done.
      * exists (c :: pre), suf. by rewrite Hs.
    + intros (pre & suf & Hs). destruct pre as [|d pre].
      * left. eauto.
      * right. injection Hs as -> ->. by exists pre, suf.
Qed.

(** [trim_start] removes a run of white space and nothing else. *)
Lemma trim_start_split (s : jsstring) :
  exists ws, s = ws ++ trim_start s /\ Forall (fun c => is_space c = true) ws.
Proof.
  induction s as [|c s (ws & Hs & Hws)]; simpl.
  - by exists [].
  - destruct (is_space c) eqn:Hc.
    + exists (c :: ws). split; [by rewrite Hs at 1 | by constructor].
    + by exists [].
Qed.

Lemma trim_end_split (s : jsstring) :
  exists ws, s = trim_end s ++ ws /\ Forall (fun c => is_space c = true) ws.
Proof.
  unfold trim_end. destruct (trim_start_split (rev s)) as (ws & Hs & Hws).
  exists (rev ws). split.
  - rewrite <- rev_app_distr, <- Hs. by rewrite rev_involutive.
  - by apply Forall_rev.
Qed.

Lemma trim_split (s : jsstring) :
  exists l r, s = l ++ trim s ++ r
    /\ Forall (fun c => is_space c = true) l
    /\ Forall (fun c => is_space c = true) r.
Proof.
  unfold trim.
  destruct (trim_start_split s) as (l & Hl & Hwl).
  destruct (trim_end_split (trim_start s)) as (r & Hr & Hwr).
  exists l, r. split; [|done]. by rewrite <- Hr.
Qed.

(** A pattern without white space that starts after [l] white-space units
    lies wholly to their right. *)
Lemma contains_skip_left (l t p : jsstring) :
  Forall (fun c => is_space c = true) l ->
  Forall (fun c => is_space c = false) p -> p <> [] ->
  contains (l ++ t) p -> contains t p.
Proof.
  intros Hl Hp Hne. induction Hl as [|c l Hc Hl IH]; [done|].
  intros (pre & suf & Hs). apply IH. destruct pre as [|d pre].
  - destruct p as [|a p]; [done|]. simpl in Hs. injection Hs as -> _.
    apply Forall_cons in Hp as [Ha _]. congruence.
  - simpl in Hs. injection Hs as _ Hs. by exists pre, suf.
Qed.

Lemma contains_rev (s p : jsstring) : contains s p -> contains (rev s) (rev p).
Proof.
  intros (pre & suf & ->). exists (rev suf), (rev pre).
  by rewrite !rev_app_distr, <- app_assoc.
Qed.

Lemma contains_skip_right (t r p : jsstring) :
  Forall (fun c => is_space c = true) r ->
  Forall (fun c => is_space c = false) p -> p <> [] ->
  contains (t ++ r) p -> contains t p.
Proof.
  intros Hr Hp Hne Hc. apply contains_rev in Hc. rewrite rev_app_distr in Hc.
  apply contains_skip_left in Hc.
  - apply contains_rev in Hc. by rewrite !rev_involutive in Hc.
  - by apply Forall_rev.
  - by apply Forall_rev.
  - intros E. apply Hne. by rewrite <- (rev_involutive p), E.
Qed.

(** Trimming keeps every occurrence of a pattern free of white space. *)
Lemma contains_trim (s p : jsstring) :
  Forall (fun c => is_space c = false) p -> p <> [] ->
  contains s p -> contains (trim s) p.
Proof.
  intros Hp Hne Hc. destruct (trim_split s) as (l & r & Hs & Hl & Hr).
  rewrite Hs in Hc. apply contains_skip_left in Hc; [|done..].
  by apply contains_skip_right in Hc.
Qed.

End StringFacts.

(** ** The string primitives on examples *)

Example trim_example : trim (js "  a b  ") = js "a b" /\ trim (js "   ") = [].
Proof. vm_compute. done. Qed.

Example trim_line_terminators : trim ([10; 13; 160; 65279]%N ++ js "x" ++ [8232]%N) = js "x".
Proof. vm_compute. done. Qed.

Example includes_example :
  includes (js "a..b") (js "..") = true /\ includes (js "a.b.") (js "..") = false.
Proof. vm_compute. done. Qed.

Example split_example :
  split 44%N (js "a, b,,c") = [js "a"; js " b"; []; js "c"]
  /\ split 44%N [] = [[]].
Proof. vm_compute. done. Qed.

Example of_Z_example : of_Z 500 = js "500" /\ of_Z 0 = js "0" /\ of_Z (-2) = js "-2".
Proof. vm_compute. done. Qed.

(** ** Filename Sanitizer *)

Example sanitize_examples :
  let sanitize s := sanitizeFilename (JStr (js s)) (js "data.json") in
  sanitize " data-1.json " = js "data-1.json"
  /\ sanitize "../etc/passwd" = js "data.json"
  /\ sanitize "a b.json" = js "data.json"
  /\ sanitize "   " = js "data.json"
  /\ sanitizeFilename (JStr []) (js "data.json") = js "data.json"
  /\ sanitize "." = js "."
  /\ sanitizeFilename JNull (js "data.json") = js "data.json"
  /\ sanitizeFilename (JNum 7) (js "data.json") = js "data.json".
Proof. vm_compute. done. Qed.

Section SanitizerFacts.

Lemma safe_char_in_class (c : code_unit) : safe_char c = true <-> in_class c.
Proof.
  unfold safe_char, in_class.
  rewrite !orb_true_iff, !andb_true_iff, !N.leb_le, !N.eqb_eq. tauto.
Qed.

Lemma scan_class_rest_nil (t : jsstring) (n : nat) :
  scan_class t = (n, []) -> Forall in_class t /\ n = length t.
Proof.
  revert n. induction t as [|c t IH]; intros n; simpl.
  - intros [= <-]. by split.
  - destruct (safe_char c) eqn:Hc; [|done].
    destruct (scan_class t) as [m rest]. intros [= <- ->].
    destruct (IH m eq_refl) as [Hall ->]. split; [|done].
    constructor; [by apply safe_char_in_class | done].
Qed.

Lemma scan_class_all (t : jsstring) :
  Forall in_class t -> scan_class t = (length t, []).
Proof.
  induction 1 as [|c t Hc _ IH]; simpl; [done|].
  apply safe_char_in_class in Hc. by rewrite Hc, IH.
Qed.

Lemma safe_name_re_test_spec (t : jsstring) :
  safe_name_re_test t = true <-> t <> [] /\ Forall in_class t.
Proof.
  unfold safe_name_re_test. split.
  - destruct (scan_class t) as [n rest] eqn:Hs.
    destruct n as [|n]; [done|]. destruct rest; [|done]. intros _.
    apply scan_class_rest_nil in Hs as [Hall Hn]. split; [|done].
    intros ->. discriminate.
  - intros [Hne Hall]. rewrite (scan_class_all t Hall).
    destruct t; [done | reflexivity].
Qed.

Lemma sanitize_string (s fb : jsstring) :
  sanitizeFilename (JStr s) fb =
    if includes (trim s) (js "/") || includes (trim s) [92%N]
       || includes (trim s) (js "..") || negb (safe_name_re_test (trim s))
    then fb else trim s.
Proof.
  unfold sanitizeFilename. simpl.
  destruct (eqb s []) eqn:Hs.
  - apply eqb_true in Hs as ->. reflexivity.
  - simpl. destruct (eqb (trim s) []) eqn:Ht; simpl.
    + apply eqb_true in Ht. rewrite Ht. reflexivity.
    + destruct (includes (trim s) (js "/") || includes (trim s) [92%N]
                || includes (trim s) (js "..")); [done|]. simpl.
      by destruct (safe_name_re_test (trim s)).
Qed.

Lemma sanitize_non_string (name : JsVal) (fb : jsstring) :
  (forall s, name <> JStr s) -> sanitizeFilename name fb = fb.
Proof.
  intros Hns. unfold sanitizeFilename.
  destruct name; try reflexivity; try by destruct (negb _ || _).
  by destruct (Hns s).
Qed.

Lemma acceptable_test (t : jsstring) :
  acceptable t <->
  (includes t (js "/") || includes t [92%N] || includes t (js "..")
   || negb (safe_name_re_test t)) = false.
Proof.
  unfold acceptable.
  rewrite !orb_false_iff, negb_false_iff, safe_name_re_test_spec.
  rewrite <- !not_true_iff_false, !includes_contains. tauto.
Qed.

Lemma trim_nil : trim [] = [].
Proof. reflexivity. Qed.

End SanitizerFacts.

(** C8.  [sanitizeFilename] is a total function of the candidate and the
    fallback.  It returns the trimmed candidate when the candidate is a
    non-empty string whose trimmed form is non-empty, has no [/], [\] or
    [..] in it and consists of [[A-Za-z0-9._-]] only; in every other case it
    returns the fallback.  In particular a candidate with [/], [\] or [..]
    anywhere in it gives the fallback. *)
Theorem sanitizeFilename_contract (name : JsVal) (fallback : jsstring) :
  ((exists t, sanitizer_accepts name t /\ sanitizeFilename name fallback = t)
   \/ ((forall t, ~ sanitizer_accepts name t)
       /\ sanitizeFilename name fallback = fallback))
  /\ (forall s, name = JStr s ->
        contains s (js "/") \/ contains s [92%N] \/ contains s (js "..") ->
        sanitizeFilename name fallback = fallback).
Proof.
  split.
  - destruct name as [| |b|z|s|items|fields];
      try (right; split; [intros t (s & Hs & _); discriminate
                         | by apply sanitize_non_string]).
    rewrite sanitize_string.
    destruct (includes (trim s) (js "/") || includes (trim s) [92%N]
              || includes (trim s) (js "..") || negb (safe_name_re_test (trim s)))
      eqn:Htest.
    + right. split; [|done]. intros t (s' & [= <-] & _ & -> & Hacc).
      apply acceptable_test in Hacc. congruence.
    + left. exists (trim s). split; [|done]. exists s.
      apply acceptable_test in Htest. split; [done|]. split; [|done].
      intros ->. destruct Htest as [Hne _]. by apply Hne.
  - intros s -> Hbad. rewrite sanitize_string.
    assert (contains (trim s) (js "/") \/ contains (trim s) [92%N]
            \/ contains (trim s) (js "..")) as Hbad'.
    { destruct Hbad as [Hc | [Hc | Hc]]; [left | right; left | right; right];
        (apply contains_trim; [repeat constructor | done | done]). }
    rewrite <- !includes_contains in Hbad'.
    destruct Hbad' as [-> | [-> | ->]]; by rewrite ?orb_true_r.
Qed.

(** The contract at a traversal attempt. *)
Lemma sanitizeFilename_contract_witness :
  sanitizeFilename (JStr (js " ../etc/passwd")) (js "data.json") = js "data.json".
Proof.
  apply (proj2 (sanitizeFilename_contract (JStr (js " ../etc/passwd")) (js "data.json"))
           (js " ../etc/passwd") eq_refl).
  left. exists (js " .."), (js "etc/passwd"). reflexivity.
Defined.

(** ** Result Serializer *)

(** What the two mappings and the format flag do with a serialization
    value. *)
Lemma serialization_mappings (env : Env) (inv : EngineInvocation) :
  contentTypeFor (js "turtle") = js "text/turtle"
  /\ contentTypeFor (js "trig") = js "application/trig"
  /\ contentTypeFor (js "jsonld") = js "application/ld+json"
  /\ contentTypeFor (js "nquads") = js "application/n-quads"
  /\ outputExt (js "turtle") = js "ttl"
  /\ outputExt (js "jsonld") = js "jsonld"
  /\ outputExt (js "nquads") = js "nq"
  /\ (forall other,
        other <> js "turtle" -> other <> js "trig" -> other <> js "jsonld" ->
        contentTypeFor other = js "application/n-quads")
  /\ (forall other,
        other <> js "turtle" -> other <> js "jsonld" -> outputExt other = js "nq").
Proof.
  repeat split; try reflexivity.
  - intros other H1 H2 H3. unfold contentTypeFor.
    apply eqb_false in H1, H2, H3. by rewrite H1, H2, H3.
  - intros other H1 H2. unfold outputExt.
    apply eqb_false in H1, H2. by rewrite H1, H2.
Qed.

(** C3.  The serialization [trig] has its own content type but not its own
    file extension: the extension conditional has no case for it, so it
    falls to [nq], the extension of [nquads]. *)
Theorem trig_extension_is_nq :
  contentTypeFor (js "trig") = js "application/trig"
  /\ contentTypeFor (js "trig") <> contentTypeFor (js "nquads")
  /\ outputExt (js "trig") = js "nq"
  /\ outputExt (js "trig") = outputExt (js "nquads").
Proof. repeat split; done. Qed.

(** ** Engine Invoker: the bounded diagnostic text *)

Section BoundedBuffer.
Variable n : nat.

Lemma slice_last_short (s : jsstring) : (length s <= n)%nat -> slice_last n s = s.
Proof. intros Hle. unfold slice_last. by replace (length s - n)%nat with O by lia. Qed.

Lemma slice_last_length (s : jsstring) :
  length (slice_last n s) = Nat.min n (length s).
Proof. unfold slice_last. rewrite length_skipn. lia. Qed.

Lemma slice_last_app (t d : jsstring) :
  slice_last n (slice_last n t ++ d) = slice_last n (t ++ d).
Proof.
  unfold slice_last.
  rewrite !skipn_app, skipn_skipn, !length_app, !length_skipn.
  f_equal; f_equal; lia.
Qed.

Lemma slice_last_most_recent (s : jsstring) : most_recent n s (slice_last n s).
Proof.
  split; [|apply slice_last_length].
  exists (take (length s - n) s). unfold slice_last. by rewrite take_drop.
Qed.

End BoundedBuffer.

Lemma on_stderr_data_slice (stderr d : jsstring) :
  on_stderr_data stderr d = slice_last STDERR_LIMIT (stderr ++ d).
Proof.
  unfold on_stderr_data. destruct (_ <? _)%nat eqn:Hlt; [done|].
  apply Nat.ltb_ge in Hlt. by rewrite slice_last_short.
Qed.

Lemma fold_stderr (chunks : list jsstring) (emitted : jsstring) :
  fold_left on_stderr_data chunks (slice_last STDERR_LIMIT emitted)
  = slice_last STDERR_LIMIT (emitted ++ concat chunks).
Proof.
  revert emitted. induction chunks as [|d chunks IH]; intros emitted; simpl.
  - by rewrite app_nil_r.
  - rewrite on_stderr_data_slice, slice_last_app, IH. by rewrite <- app_assoc.
Qed.

Lemma collect_stderr_slice (chunks : list jsstring) :
  collect_stderr chunks = slice_last STDERR_LIMIT (concat chunks).
Proof. unfold collect_stderr. apply (fold_stderr chunks []). Qed.

(** C5.  After every chunk of the child's stderr is consumed, the text kept
    is the most recent 200,000 code units of everything emitted so far (all
    of it while it is shorter), so never more than 200,000; and when the
    child closes with a non-zero exit code the invocation is rejected with
    an error whose message carries that code and the text kept. *)
Theorem stderr_bounded_and_reported (env : Env) (w : World) (inv : EngineInvocation)
    (s : St) :
  let run := w_engine w (spawn_call env inv) (st_fs s) in
  (forall k,
     let emitted := concat (take k (er_stderr run)) in
     let kept := collect_stderr (take k (er_stderr run)) in
     most_recent (Z.to_nat 200000) emitted kept
     /\ Z.of_nat (length kept) <= 200000)
  /\ (forall code,
        er_end run = Closed (Some code) -> code <> 0 ->
        (runRmlMapper env w inv s).1 =
          Throw (Error (js "RMLMapper exited with code " ++ of_Z code ++ [10%N]
                        ++ collect_stderr (er_stderr run)))).
Proof.
  intros run. split.
  - intros k emitted kept. subst emitted kept.
    rewrite collect_stderr_slice. split.
    + apply slice_last_most_recent.
    + rewrite slice_last_length. unfold STDERR_LIMIT. lia.
  - intros code Hend Hcode.
    unfold runRmlMapper, mbind, M_bind, get_fs, emit, put_fs, lift. simpl.
    fold run. rewrite Hend. simpl.
    destruct code; [done | reflexivity | reflexivity].
Qed.

(** ** Engine Invoker: the argument list *)

Section EngineArguments.
Variables (env : Env) (inv : EngineInvocation).

Lemma push_flag_some (flag v : jsstring) :
  push_flag flag (Some v) = if eqb v [] then [] else [flag; v].
Proof. unfold push_flag. simpl. by destruct (eqb v []). Qed.

Lemma push_flag_base (flag : jsstring) :
  push_flag flag (baseIri inv) =
    if eqb (base_value inv) [] then [] else [flag; base_value inv].
Proof.
  unfold base_value. destruct (baseIri inv) as [b|]; simpl.
  - apply push_flag_some.
  - reflexivity.
Qed.

Lemma spawn_args_shape :
  spawn_args env inv =
    [js "-jar"; RMLMAPPER_JAR env; js "-m"; mappingPath inv; js "-o"; outputPath inv]
    ++ (if eqb (serialization inv) [] then [] else [js "-s"; serialization inv])
    ++ (if eqb (base_value inv) [] then [] else [js "-b"; base_value inv]).
Proof. unfold spawn_args. by rewrite push_flag_some, push_flag_base. Qed.

End EngineArguments.

(** Refutes [Heq : args = pre ++ flag :: v :: suf] for a concrete spine
    [args] by trying every position the option could take. *)
Ltac option_positions Heq pre :=
  repeat (destruct pre as [|? pre]; [by simplify_eq|];
          first [discriminate Heq | injection Heq as _ Heq]).

(** The options of an invocation, by what follows what in the argument
    list. *)
Lemma spawn_call_options (env : Env) (inv : EngineInvocation) :
  let call := spawn_call env inv in
  sp_cwd call = workdir inv
  /\ has_option (js "-m") (mappingPath inv) (sp_args call)
  /\ has_option (js "-o") (outputPath inv) (sp_args call)
  /\ (has_option (js "-s") (serialization inv) (sp_args call)
      <-> serialization inv <> [])
  /\ (has_option (js "-b") (base_value inv) (sp_args call)
      <-> base_value inv <> [])
  /\ length (sp_args call) =
       (6 + (if eqb (serialization inv) [] then 0 else 2)
          + (if eqb (base_value inv) [] then 0 else 2))%nat.
Proof.
  intros call. subst call. unfold spawn_call. cbn [sp_cwd sp_args].
  rewrite spawn_args_shape.
  split; [done|]. split; [by eexists [_; _], _|].
  split; [by eexists [_; _; _; _], _|].
  destruct (eqb (serialization inv) []) eqn:Hs, (eqb (base_value inv) []) eqn:Hb;
    rewrite ?eqb_true in Hs; rewrite ?eqb_true in Hb;
    rewrite ?eqb_false in Hs; rewrite ?eqb_false in Hb;
    (split; [|split; [|reflexivity]]); split.
  all: try (intros Hne; congruence).
  all: try (intros _; by eexists [_; _; _; _; _; _], _).
  all: try (intros _; by eexists [_; _; _; _; _; _; _; _], _).
  all: intros (pre & suf & Heq); exfalso; simpl in Heq.
  all: try rewrite Hs in Heq; try rewrite Hb in Heq.
  all: option_positions Heq pre.
Qed.

(** ** URL Validator: the host allow-list *)

Section SplitFacts.
Variable sep : code_unit.

Lemma split_nonempty (s : jsstring) : split sep s <> [].
Proof.
  destruct s as [|c s]; simpl; [done|].
  destruct (c =? sep)%N; [done|]. by destruct (split sep s).
Qed.

Lemma join_cons (x : jsstring) (l : list jsstring) :
  l <> [] -> join [sep] (x :: l) = x ++ [sep] ++ join [sep] l.
Proof. by destruct l. Qed.

(** The pieces joined by the separator give the string back. *)
Lemma join_split (s : jsstring) : join [sep] (split sep s) = s.
Proof.
  induction s as [|c s IH]; [done|]. cbn [split].
  pose proof (split_nonempty s) as Hne.
  destruct (c =? sep)%N eqn:Hc.
  - apply N.eqb_eq in Hc as ->. rewrite join_cons by done. by rewrite IH.
  - destruct (split sep s) as [|p rest]; [done|].
    destruct rest as [|q rest].
    + simpl in *. by rewrite IH.
    + rewrite join_cons by done. rewrite join_cons in IH by done.
      by rewrite <- IH.
Qed.

(** No piece contains the separator. *)
Lemma split_sep_free (s : jsstring) : Forall (fun p => ~ In sep p) (split sep s).
Proof.
  induction s as [|c s IH]; simpl.
  - constructor; [simpl; tauto | constructor].
  - destruct (c =? sep)%N eqn:Hc.
    + constructor; [by intros [] | done].
    + apply N.eqb_neq in Hc. pose proof (split_nonempty s) as Hne.
      destruct (split sep s) as [|p rest]; [done|].
      apply Forall_cons in IH as [Hp Hrest]. constructor; [|done].
      intros [E | Hin]; [by apply Hc | by apply Hp].
Qed.

End SplitFacts.

Section AllowList.
Variable env : Env.

Lemma env_or_hosts : env_or env "ALLOWED_FETCH_HOSTS" [] = configured_hosts env.
Proof.
  unfold env_or, configured_hosts.
  destruct (env !! "ALLOWED_FETCH_HOSTS") as [v|]; [|done].
  by destruct v.
Qed.

Lemma truthy_string (s : jsstring) : truthy (JStr s) = true <-> s <> [].
Proof. simpl. by rewrite negb_true_iff, eqb_false. Qed.

Lemma allow_list_entries (e : jsstring) : In e (allow_list env) <-> allow_entry env e.
Proof.
  unfold allow_list, allow_entry. rewrite env_or_hosts.
  rewrite filter_In, in_map_iff, truthy_string. split.
  - intros [(p & <- & Hp) Hne]. eauto.
  - intros [Hne (p & Hp & ->)]. eauto.
Qed.

Lemma array_includes_In (l : list jsstring) (x : jsstring) :
  array_includes l x = true <-> In x l.
Proof.
  unfold array_includes. rewrite existsb_exists. split.
  - intros (y & Hy & Heq). apply eqb_true in Heq. by subst.
  - intros Hx. exists x. split; [done | apply eqb_refl].
Qed.

End AllowList.

(** C9.  When the configured comma-separated allow-list has no entry,
    [isAllowedHost] returns [true] for every argument.  When it has one, then
    for every URL the parser accepts [isAllowedHost] returns a boolean, without
    throwing, that is [true] exactly when the URL's hostname equals one of
    the trimmed entries. *)
Theorem isAllowedHost_contract `{Platform} (env : Env) (u : jsstring) :
  ((forall e, ~ allow_entry env e) -> isAllowedHost env u = Val true)
  /\ ((exists e, allow_entry env e) ->
      forall url, URL_parse u = Some url ->
      exists b, isAllowedHost env u = Val b
                /\ (b = true <-> allow_entry env (url_hostname url))).
Proof.
  unfold isAllowedHost. split.
  - intros Hnone. destruct (allow_list env) as [|e l] eqn:Hl; [done|].
    destruct (Hnone e). apply allow_list_entries. rewrite Hl. by left.
  - intros [e He] url Hurl. apply allow_list_entries in He.
    destruct (length (allow_list env) =? 0)%nat eqn:Hlen.
    + apply Nat.eqb_eq in Hlen. by destruct (allow_list env).
    + rewrite Hurl. eexists. split; [done|].
      rewrite array_includes_In. apply allow_list_entries.
Qed.

(** The contract at an allow-listed host of the sample configuration. *)
Lemma isAllowedHost_contract_witness :
  exists b, @isAllowedHost Sample.platform Sample.env_closed
              (js "https://data.example.org/x.json") = Val b
            /\ (b = true <-> allow_entry Sample.env_closed (js "data.example.org")).
Proof.
  refine (proj2 (@isAllowedHost_contract Sample.platform Sample.env_closed
                   (js "https://data.example.org/x.json"))
            _ (mkURL (js "https:") (js "data.example.org")) _).
  - exists (js "example.org"). apply allow_list_entries. vm_compute. by left.
  - reflexivity.
Defined.

(** Matching is exact: a subdomain or a longer name that ends in an entry
    is not allowed, and an unset list allows everything. *)
Example isAllowedHost_exact :
  let allowed := @isAllowedHost Sample.platform in
  allowed Sample.env_closed (js "http://example.org/a") = Val true
  /\ allowed Sample.env_closed (js "http://sub.example.org/a") = Val false
  /\ allowed Sample.env_closed (js "http://evilexample.org/a") = Val false
  /\ allowed Sample.env_open (js "http://anything.test/a") = Val true.
Proof. vm_compute. done. Qed.

(** Outside the URLs the parser accepts, with a non-empty list, the
    constructor's [TypeError] escapes; the handler calls [isAllowedHost] only
    after [isHttpUrl] has accepted the same string. *)
Lemma isAllowedHost_unparseable `{Platform} (env : Env) (u : jsstring) :
  allow_list env <> [] -> URL_parse u = None ->
  isAllowedHost env u = Throw (TypeError (js "Invalid URL")).
Proof.
  intros Hne Hu. unfold isAllowedHost. rewrite Hu.
  by destruct (allow_list env).
Qed.

(** C5 at the sample engine, which writes two chunks and exits with 1. *)
Lemma stderr_bounded_and_reported_witness :
  let inv := mkInvocation (js "/tmp/w") (js "/tmp/w/mapping.ttl")
               (js "/tmp/w/output.nq") (js "nquads") None in
  (runRmlMapper Sample.env_open (Sample.world 1 None) inv (initial Sample.fs0)).1
  = Throw (Error (js "RMLMapper exited with code 1" ++ [10%N] ++ js "warn: x")).
Proof.
  intros inv.
  exact (proj2 (stderr_bounded_and_reported Sample.env_open (Sample.world 1 None) inv
                  (initial Sample.fs0)) 1 eq_refl ltac:(discriminate)).
Defined.

(** ** Resource Fetcher: one fetch *)

Section OneFetch.
Context `{Platform}.
Variables (env : Env) (w : World).

Lemma fetchJsonToFile_unfold (i : nat) (url outPath : jsstring) (s : St) :
  fetchJsonToFile env w i url outPath s =
    fetch_settle w url outPath (fetch_plan (fetch_deadline env) (w_net w i url)).2
      (after_events s [EFetch url]).
Proof. reflexivity. Qed.

Lemma writeFile_ok (p content : jsstring) (s : St) :
  p ∉ dirs (st_fs s) -> w_write_fails w p = None ->
  writeFile w p content s =
    (Val tt, mkSt (fs_write p content (st_fs s))
                  (st_trace s ++ [EWriteFile p content]) (st_resp s)).
Proof.
  intros Hdir Hio. unfold writeFile, mbind, M_bind, get_fs. simpl.
  rewrite bool_decide_eq_false_2 by done. by rewrite Hio.
Qed.

Lemma after_events_app (s : St) (l1 l2 : list Event) :
  after_events (after_events s l1) l2 = after_events s (l1 ++ l2).
Proof. unfold after_events. simpl. by rewrite <- app_assoc. Qed.

Lemma fetch_settle_abort (url outPath : jsstring) (s : St) :
  fetch_settle w url outPath StepAbort (after_events s [EFetch url])
  = (Throw AbortError, after_events s [EFetch url; EAbort url]).
Proof.
  change [EFetch url; EAbort url] with ([EFetch url] ++ [EAbort url]).
  by rewrite <- after_events_app.
Qed.

End OneFetch.

(** C7.  One fetch of [url] into [outPath]:
    - a response that arrives before the deadline with a status outside
      200..299 rejects the fetch with an error whose message carries the
      status code, and nothing is written;
    - a 2xx response whose body arrives before the deadline is parsed as JSON:
      when the parse fails the fetch is rejected with the parser's error and
      nothing is written; otherwise the pretty-printed JSON text is written
      to [outPath] (here: when the target can be written);
    - when the deadline elapses first, the fetch is aborted and rejected.
    Inside the handler's [Promise.all] the call for a resource is made with
    the resource's URL and the path [path.join(workdir, fileName)] of its
    sanitized file name, which is [workdir/fileName] for every name but
    [.]. *)
Theorem fetchJsonToFile_contract `{Platform} (env : Env) (w : World)
    (i : nat) (url outPath : jsstring) (s : St) :
  let deadline := timer_delay (FETCH_TIMEOUT_MS env) in
  let run := fetchJsonToFile env w i url outPath s in
  (forall t status body,
     w_net w i url = NetResponse t status body -> t < deadline ->
     ~ (200 <= status <= 299) ->
     run = (Throw (Error (js "Fetch failed: HTTP " ++ of_Z status)),
            after_events s [EFetch url]))
  /\ (forall t status tb text,
        w_net w i url = NetResponse t status (BodyText tb text) ->
        t < deadline -> tb < deadline -> 200 <= status <= 299 ->
        match JSON_parse text with
        | Val json =>
            outPath ∉ dirs (st_fs s) -> w_write_fails w outPath = None ->
            run = (Val tt,
                   mkSt (fs_write outPath (JSON_stringify_pretty json) (st_fs s))
                        (st_trace s ++ [EFetch url;
                                        EWriteFile outPath (JSON_stringify_pretty json)])
                        (st_resp s))
        | Throw e => run = (Throw e, after_events s [EFetch url])
        | Hang => run = (Hang, after_events s [EFetch url])
        end)
  /\ (deadline_first deadline (w_net w i url) ->
      run = (Throw AbortError, after_events s [EFetch url; EAbort url]))
  /\ (forall dir ref,
        let task := make_task env w dir i ref in
        ft_url task = resourceUrl ref
        /\ ft_step task = (fetch_plan deadline (w_net w i (resourceUrl ref))).2
        /\ ft_path task = path_join dir (fileName ref)
        /\ (fileName ref <> js "." -> ends_with_slash dir = false ->
            ft_path task = dir ++ js "/" ++ fileName ref)).
Proof.
  intros deadline run. subst run. rewrite fetchJsonToFile_unfold.
  change (fetch_deadline env) with deadline.
  split; [|split; [|split]]; cycle 3.
  { intros dir ref task. subst task. repeat (split; [reflexivity|]).
    intros Hdot Hslash. cbn [make_task ft_path]. unfold path_join.
    apply eqb_false in Hdot. by rewrite Hdot, Hslash. }
  - intros t status body Hnet Ht Hst. rewrite Hnet. unfold fetch_plan.
    destruct (deadline <=? t) eqn:Hd; [lia|].
    assert (resp_ok status = false) as ->; [|done].
    unfold resp_ok. apply andb_false_iff. rewrite !Z.leb_gt. lia.
  - intros t status tb text Hnet Ht Htb Hst. rewrite Hnet. unfold fetch_plan.
    destruct (deadline <=? t) eqn:Hd; [lia|].
    assert (resp_ok status = true) as ->.
    { unfold resp_ok. apply andb_true_iff. rewrite !Z.leb_le. lia. }
    destruct (deadline <=? tb) eqn:Hdb; [lia|]. simpl.
    unfold mbind, M_bind, lift.
    destruct (JSON_parse text) as [json|e|]; [|done|done].
    intros Hdir Hio. rewrite writeFile_ok by done. simpl.
    by rewrite <- app_assoc.
  - unfold deadline_first, arrival, fetch_plan.
    pose proof (fetch_settle_abort w url outPath s) as Habort.
    destruct (w_net w i url) as [t status body|t e|]; [| |by intros _].
    + destruct (deadline <=? t) eqn:Hd; [by intros _|]. apply Z.leb_gt in Hd.
      destruct (resp_ok status); simpl; [|lia].
      destruct body as [tb text|tb e|]; [| |by intros _].
      * intros Hmax. destruct (deadline <=? tb) eqn:Hdb; [done|]. lia.
      * intros Hmax. destruct (tb <? deadline) eqn:Hdb; [lia | done].
    + intros Ht. destruct (t <? deadline) eqn:Hd; [lia | done].
Qed.

(** C7 at the sample host that answers 500. *)
Lemma fetchJsonToFile_contract_witness :
  @fetchJsonToFile Sample.platform Sample.env_open (Sample.world 0 None)
     0 (js "http://down/a.json") (js "/tmp/w/a.json") (initial Sample.fs0)
  = (Throw (Error (js "Fetch failed: HTTP 500")),
     after_events (initial Sample.fs0) [EFetch (js "http://down/a.json")]).
Proof.
  refine (proj1 (@fetchJsonToFile_contract Sample.platform Sample.env_open
                   (Sample.world 0 None) 0 (js "http://down/a.json")
                   (js "/tmp/w/a.json") (initial Sample.fs0))
            5 500 (BodyText 6 []) eq_refl _ _).
  - vm_compute. reflexivity.
  - lia.
Defined.

(** ** Reasoning about computations in the handler monad *)

Section MonadFacts.
Context {A B : Type}.

Lemma bind_run (m : M A) (f : A -> M B) (s : St) :
  (m ≫= f) s = match m s with
               | (Val a, s') => f a s'
               | (Throw e, s') => (Throw e, s')
               | (Hang, s') => (Hang, s')
               end.
Proof. reflexivity. Qed.

Lemma emits_weaken (P Q : Event -> Prop) (m : M A) :
  (forall e, P e -> Q e) -> emits P m -> emits Q m.
Proof.
  intros HPQ Hm s. destruct (Hm s) as (evs & Htr & Hall).
  exists evs. split; [done|]. by eapply Forall_impl.
Qed.

Lemma emits_bind (P : Event -> Prop) (m : M A) (f : A -> M B) :
  emits P m -> (forall a, emits P (f a)) -> emits P (m ≫= f).
Proof.
  intros Hm Hf s. rewrite bind_run. destruct (Hm s) as (evs & Htr & Hall).
  destruct (m s) as [[a|e|] s'] eqn:Hms; simpl in Htr.
  - destruct (Hf a s') as (evs' & Htr' & Hall').
    exists (evs ++ evs'). rewrite Htr', Htr, <- app_assoc.
    split; [done | by apply Forall_app].
  - by exists evs.
  - by exists evs.
Qed.

Lemma emits_silent (P : Event -> Prop) (m : M A) :
  (forall s, st_trace (m s).2 = st_trace s) -> emits P m.
Proof. intros Hm s. exists []. by rewrite Hm, app_nil_r. Qed.

Lemma emits_ret (P : Event -> Prop) (a : A) : emits P (mret a).
Proof. by apply emits_silent. Qed.

Lemma emits_throw (P : Event -> Prop) (e : Exn) : emits P (@throw A e).
Proof. by apply emits_silent. Qed.

Lemma emits_hang (P : Event -> Prop) : emits P (@hang A).
Proof. by apply emits_silent. Qed.

Lemma emits_lift (P : Event -> Prop) (r : Res A) : emits P (lift r).
Proof. by apply emits_silent. Qed.

Lemma emits_try_catch (P : Event -> Prop) (m : M A) (h : Exn -> M A) :
  emits P m -> (forall e, emits P (h e)) -> emits P (try_catch m h).
Proof.
  intros Hm Hh s. unfold try_catch. destruct (Hm s) as (evs & Htr & Hall).
  destruct (m s) as [[a|e|] s'] eqn:Hms; simpl in Htr.
  - by exists evs.
  - destruct (Hh e s') as (evs' & Htr' & Hall').
    exists (evs ++ evs'). rewrite Htr', Htr, <- app_assoc.
    split; [done | by apply Forall_app].
  - by exists evs.
Qed.

Lemma keeps_response_bind (m : M A) (f : A -> M B) :
  keeps_response m -> (forall a, keeps_response (f a)) -> keeps_response (m ≫= f).
Proof.
  intros Hm Hf s. rewrite bind_run. specialize (Hm s).
  destruct (m s) as [[a|e|] s'] eqn:Hms; simpl in *; [|done..].
  by rewrite Hf.
Qed.

End MonadFacts.

Lemma emits_emit (P : Event -> Prop) (e : Event) : P e -> emits P (emit e).
Proof. intros He s. exists [e]. split; [done | by constructor]. Qed.

Lemma emits_get_fs (P : Event -> Prop) : emits P get_fs.
Proof. by apply emits_silent. Qed.

Lemma emits_put_fs (P : Event -> Prop) (fs : FS) : emits P (put_fs fs).
Proof. by apply emits_silent. Qed.

Lemma emits_respond (P : Event -> Prop) (r : Response) : emits P (respond r).
Proof. by apply emits_silent. Qed.

Lemma emits_for_each {A} (P : Event -> Prop) (f : A -> M unit) (l : list A) :
  (forall x, emits P (f x)) -> emits P (for_each f l).
Proof.
  intros Hf. induction l as [|x l IH]; simpl.
  - apply emits_ret.
  - apply emits_bind; [apply Hf | by intros _].
Qed.

Lemma emits_writeFile (P : Event -> Prop) (w : World) (p content : jsstring) :
  P (EWriteFile p content) -> P (EWriteFailed p) -> emits P (writeFile w p content).
Proof.
  intros Hok Hfail. unfold writeFile.
  apply emits_bind; [apply emits_get_fs|]. intros fs.
  destruct (bool_decide _).
  - apply emits_bind; [by apply emits_emit | intros _; apply emits_throw].
  - destruct (w_write_fails w p).
    + apply emits_bind; [by apply emits_emit | intros _; apply emits_throw].
    + apply emits_bind; [apply emits_put_fs | intros _; by apply emits_emit].
Qed.

Lemma keeps_response_for_each {A} (f : A -> M unit) (l : list A) :
  (forall x, keeps_response (f x)) -> keeps_response (for_each f l).
Proof.
  intros Hf. induction l as [|x l IH]; simpl; [done|].
  apply keeps_response_bind; [apply Hf | by intros _].
Qed.

Lemma keeps_response_writeFile (w : World) (p content : jsstring) :
  keeps_response (writeFile w p content).
Proof.
  intros s. unfold writeFile. rewrite bind_run. simpl.
  destruct (bool_decide _); [done|]. by destruct (w_write_fails w p).
Qed.

(** ** The validation loop *)

Section Validation.
Context `{Platform}.
Variables (env : Env).

Lemma isAllowedHost_parsed (u : jsstring) (url : URL) :
  URL_parse u = Some url ->
  isAllowedHost env u =
    Val (if (length (allow_list env) =? 0)%nat then true
         else array_includes (allow_list env) (url_hostname url)).
Proof.
  intros Hu. unfold isAllowedHost. rewrite Hu. by destruct (_ =? _)%nat.
Qed.

Lemma isHttpUrl_parsed (u : jsstring) :
  isHttpUrl u = true ->
  exists url, URL_parse u = Some url
              /\ (url_protocol url = js "http:" \/ url_protocol url = js "https:").
Proof.
  unfold isHttpUrl. destruct (URL_parse u) as [url|]; [|done].
  rewrite orb_true_iff, !eqb_true. eauto.
Qed.

Lemma string_prop_get (r : JsVal) (k : string) :
  (exists s, get_prop r (js k) = JStr s /\ string_prop r k = s)
  \/ ((forall s, get_prop r (js k) <> JStr s) /\ string_prop r k = []).
Proof.
  unfold string_prop. destruct (get_prop r (js k)) as [| |b|z|s|l|l] eqn:Hg;
    try (right; split; [done|]; by rewrite andb_false_r).
  left. exists s. split; [done|].
  destruct r; try discriminate. reflexivity.
Qed.

(** A resource the loop accepts is not one the request must be rejected
    for. *)
Lemma accepted_not_bad (r : JsVal) : accepted env r -> ~ bad_resource env r.
Proof.
  intros (Hne & Hhttp & Hallow) Hbad. unfold normalize in *. simpl in *.
  destruct (isHttpUrl_parsed _ Hhttp) as (url & Hurl & Hproto).
  rewrite (isAllowedHost_parsed _ _ Hurl) in Hallow.
  destruct (string_prop_get r "resourceUrl") as [(s & Hg & Hs) | [Hg Hs]];
    rewrite Hs in *; [|done].
  destruct Hbad as [Hmiss | s' Hg' Hnone | s' url' Hg' Hurl' Hp1 Hp2
                   | s' url' Hg' Hurl' [e He] Hhost].
  - by apply Hne, Hmiss.
  - congruence.
  - assert (url' = url) as -> by congruence. by destruct Hproto.
  - assert (url' = url) as -> by congruence.
    apply allow_list_entries in He.
    destruct (length (allow_list env) =? 0)%nat eqn:Hlen.
    + apply Nat.eqb_eq in Hlen. by destruct (allow_list env).
    + injection Hallow as Hinc.
      by apply Hhost, allow_list_entries, array_includes_In.
Qed.

(** The loop either sends a 400 or 403 and returns, touching nothing else,
    or accepts every resource and leaves the state as it was. *)
Lemma validate_run (items : list JsVal) (normalized : list ResourceRef) (s : St) :
  (exists resp,
     validate env items normalized s
       = (Val None, mkSt (st_fs s) (st_trace s) (Some resp))
     /\ (resp_status resp = 400 \/ resp_status resp = 403))
  \/ (validate env items normalized s
        = (Val (Some (normalized ++ List.map normalize items)), s)
      /\ Forall (accepted env) items).
Proof.
  revert normalized. induction items as [|r items IH]; intros normalized.
  - right. simpl. by rewrite app_nil_r.
  - cbn [validate]. fold (normalize r).
    destruct (truthy (JStr (trim (string_prop r "resourceUrl")))) eqn:Hurl; simpl;
      [|left; eexists; split; [reflexivity | by left]].
    destruct (isHttpUrl (trim (string_prop r "resourceUrl"))) eqn:Hhttp; simpl;
      [|left; eexists; split; [reflexivity | by left]].
    destruct (isHttpUrl_parsed _ Hhttp) as (url & Hparse & _).
    rewrite bind_run. unfold lift. rewrite (isAllowedHost_parsed _ _ Hparse).
    destruct (if (length (allow_list env) =? 0)%nat then true else _) eqn:Hallow; simpl;
      [|left; eexists; split; [reflexivity | by right]].
    destruct (IH (normalized ++ [normalize r])) as [(resp & Hrun & Hst) | [Hrun Hall]].
    + left. exists resp. by split.
    + right. split.
      * rewrite Hrun. by rewrite <- app_assoc.
      * constructor; [|done]. unfold accepted, normalize. simpl.
        split; [by apply truthy_string|]. split; [done|].
        by rewrite (isAllowedHost_parsed _ _ Hparse), Hallow.
Qed.

End Validation.

(** ** The shape of a run of the handler *)

Section HandlerShape.
Context `{Platform}.
Variables (env : Env).

Lemma body_prop (b : JsVal) (k : jsstring) :
  get_prop (if truthy b then b else JObj []) k = get_prop b k.
Proof. destruct (truthy b) eqn:Hb; [done|]. by destruct b. Qed.

Lemma typeof_string (v : JsVal) :
  eqb (typeof v) (js "string") = true -> exists s, v = JStr s.
Proof. destruct v; try discriminate. eauto. Qed.

Lemma mkdtemp_run (w : World) (pre : jsstring) (s : St) :
  mkdtemp w pre s =
    match w_mkdtemp w with
    | inl e => (Throw e, s)
    | inr suffix => (Val (pre ++ suffix), created (pre ++ suffix) s)
    end.
Proof. unfold mkdtemp. by destruct (w_mkdtemp w). Qed.

(** A request is answered 400 or 403 with nothing else done, whatever the
    world; or every resource was accepted, and then either [mkdtemp] fails
    and the handler's promise is rejected, or the guarded job runs in the new
    workspace. *)
Lemma post_map_run (req : Request) (s : St) :
  (exists resp,
     (resp_status resp = 400 \/ resp_status resp = 403)
     /\ forall w,
         post_map env w req s = (Val tt, mkSt (st_fs s) (st_trace s) (Some resp)))
  \/ (exists y items,
        get_prop (req_body req) (js "yarrml") = JStr y
        /\ get_prop (req_body req) (js "resources") = JArr items
        /\ Forall (accepted env) items
        /\ forall w,
            match w_mkdtemp w with
            | inl e => post_map env w req s = (Throw e, s)
            | inr suffix =>
                post_map env w req s =
                  guarded_job env w (request_serialization env req) y
                    (workspace_of w suffix) (List.map normalize items)
                    (created (workspace_of w suffix) s)
            end).
Proof.
  unfold post_map. rewrite !body_prop.
  destruct (eqb (typeof (get_prop (req_body req) (js "yarrml"))) (js "string"))
    eqn:Hty; simpl; [|left; eexists; (split; [|intros w; reflexivity]); by left].
  destruct (typeof_string _ Hty) as [y Hy]. rewrite Hy. simpl.
  destruct (negb (eqb (trim y) [])) eqn:Hblank; simpl;
    [|left; eexists; (split; [|intros w; reflexivity]); by left].
  destruct (get_prop (req_body req) (js "resources")) as [| |b|z|t|items|fields] eqn:Hres;
    simpl; try (left; eexists; (split; [|intros w; reflexivity]); by left).
  destruct items as [|r items]; [left; eexists; (split; [|intros w; reflexivity]); by left|].
  destruct (validate_run env (r :: items) [] s) as [(resp & Hrun & Hst) | [Hrun Hall]].
  - left. exists resp. split; [done|]. intros w. by rewrite bind_run, Hrun.
  - right. exists y, (r :: items). split; [done|]. split; [done|]. split; [done|].
    intros w. rewrite bind_run, Hrun, bind_run, mkdtemp_run.
    by destruct (w_mkdtemp w) as [e|suffix].
Qed.

End HandlerShape.

(** C2.  A request whose resource list has an entry with a missing
    [resourceUrl], one that does not parse or is not http(s), or a host
    outside the configured allow-list is answered with a 400 or 403 and
    nothing else happens: no event is recorded (so no fetch is issued and no
    workspace is created) and the file system is as before. *)
Theorem invalid_resource_rejected_first `{Platform} (env : Env) (w : World)
    (fs : FS) (req : Request) (items : list JsVal) (r : JsVal) :
  get_prop (req_body req) (js "resources") = JArr items ->
  In r items -> bad_resource env r ->
  exists resp,
    handle env w fs req = (Val tt, mkSt fs [] (Some resp))
    /\ (resp_status resp = 400 \/ resp_status resp = 403).
Proof.
  intros Hres Hin Hbad. unfold handle.
  destruct (post_map_run env req (initial fs))
    as [(resp & Hst & Hrun) | (y & items' & _ & Hres' & Hall & _)];
    [by exists resp|].
  assert (items' = items) as -> by congruence.
  exfalso. apply (accepted_not_bad env r); [|done].
  rewrite List.Forall_forall in Hall. by apply Hall.
Qed.

(** C2 at a request whose second resource is an [ftp] URL. *)
Lemma invalid_resource_rejected_first_witness :
  exists resp,
    @handle Sample.platform Sample.env_open (Sample.world 0 None) Sample.fs0
      (Sample.request "mappings: x"
         [Sample.resource "http://example.org/a.json" "a.json";
          Sample.resource "ftp://example.org/b.json" "b.json"])
    = (Val tt, mkSt Sample.fs0 [] (Some resp))
    /\ (resp_status resp = 400 \/ resp_status resp = 403).
Proof.
  apply (@invalid_resource_rejected_first Sample.platform Sample.env_open
           (Sample.world 0 None) Sample.fs0 _
           [Sample.resource "http://example.org/a.json" "a.json";
            Sample.resource "ftp://example.org/b.json" "b.json"]
           (Sample.resource "ftp://example.org/b.json" "b.json")).
  - reflexivity.
  - right. by left.
  - eapply (@bad_scheme Sample.platform _ _ (js "ftp://example.org/b.json")
              (mkURL (js "ftp:") (js "example.org")));
      [reflexivity | reflexivity | discriminate | discriminate].
Defined.

(** ** The guarded job *)

Section GuardedJob.
Context `{Platform}.
Variables (env : Env) (w : World).

Lemma job_finally_run (dir : jsstring) (s : St) :
  job_finally w dir s = (Val tt, cleaned w dir s).
Proof.
  unfold job_finally, swallow, try_catch, rm_rf, cleaned. rewrite bind_run. simpl.
  by destruct (w_rm_fails w).
Qed.

(** The [finally] block runs whenever the [try]/[catch] part ends, and
    leaves its completion as it was. *)
Lemma try_finally_run (m : M unit) (dir : jsstring) (s : St) :
  try_finally m (job_finally w dir) s =
    match m s with
    | (Hang, s') => (Hang, s')
    | (r, s') => (r, cleaned w dir s')
    end.
Proof.
  unfold try_finally. destruct (m s) as [[[]|e|] s']; by rewrite ?job_finally_run.
Qed.

(** The [catch] block answers 422 and completes normally. *)
Lemma try_catch_job (m : M unit) (s : St) :
  try_catch m job_catch s =
    match m s with
    | (Throw e, s') =>
        (Val tt, mkSt (st_fs s') (st_trace s')
                      (Some (RJson 422 (JObj [field "error" (JStr (js "Mapping failed"));
                                              field "message" (JStr (failure_message e))]))))
    | r => r
    end.
Proof. unfold try_catch. by destruct (m s) as [[[]|e|] s']. Qed.

Lemma emits_fetch_settle (url p : jsstring) (step : FetchStep) :
  emits fetch_event (fetch_settle w url p step).
Proof.
  destruct step as [|e|text]; simpl.
  - apply emits_bind; [by apply emits_emit | intros _; apply emits_throw].
  - apply emits_throw.
  - apply emits_bind; [apply emits_lift|]. intros json. by apply emits_writeFile.
Qed.

Lemma emits_fetch_all (dir : jsstring) (normalized : list ResourceRef) :
  emits fetch_event (fetch_all env w dir normalized).
Proof.
  unfold fetch_all. apply emits_bind.
  - apply emits_for_each. intros t. by apply emits_emit.
  - intros _. apply emits_for_each. intros t. apply emits_fetch_settle.
Qed.

Lemma keeps_response_fetch_all (dir : jsstring) (normalized : list ResourceRef) :
  keeps_response (fetch_all env w dir normalized).
Proof.
  unfold fetch_all. apply keeps_response_bind.
  - apply keeps_response_for_each. by intros t s.
  - intros _. apply keeps_response_for_each. intros t s.
    destruct (ft_step t) as [|e|text]; simpl; try done.
    rewrite bind_run. unfold lift.
    destruct (JSON_parse text); [apply keeps_response_writeFile | done | done].
Qed.

Lemma emits_runRmlMapper (P : Event -> Prop) (inv : EngineInvocation) :
  (forall fs, P (ESpawn (spawn_call env inv) fs)) -> emits P (runRmlMapper env w inv).
Proof.
  intros HP. unfold runRmlMapper.
  apply emits_bind; [apply emits_get_fs|]. intros fs.
  apply emits_bind; [by apply emits_emit|]. intros _.
  apply emits_bind; [apply emits_put_fs|]. intros _.
  destruct (er_end _); [apply emits_throw | apply emits_lift | apply emits_hang].
Qed.

Lemma emits_readFile (P : Event -> Prop) (p : jsstring) :
  P (EReadFile p) -> emits P (readFile p).
Proof.
  intros HP. unfold readFile.
  apply emits_bind; [by apply emits_emit|]. intros _.
  apply emits_bind; [apply emits_get_fs|]. intros fs.
  destruct (files fs !! p); [apply emits_ret | apply emits_throw].
Qed.

Lemma emits_job_body (ser y dir mp op : jsstring) (normalized : list ResourceRef) :
  emits (job_event y) (job_body env w ser y dir mp op normalized).
Proof.
  unfold job_body.
  apply emits_bind.
  { eapply emits_weaken; [|apply emits_fetch_all]. by intros []. }
  intros _. apply emits_bind; [by apply emits_emit|]. intros _.
  destruct (yarrrml_convert y) as [e|converted getLogger]; [apply emits_throw|].
  destruct (match getLogger with Some lg => log_has_error lg | None => false end);
    [apply emits_respond|].
  apply emits_bind.
  { destruct converted; [apply emits_ret | apply emits_lift | apply emits_throw]. }
  intros rml. apply emits_bind; [by apply emits_writeFile|]. intros _.
  apply emits_bind; [by apply emits_runRmlMapper|]. intros _.
  apply emits_bind; [by apply emits_readFile|]. intros out.
  apply emits_respond.
Qed.

Lemma emits_job_catch (P : Event -> Prop) (e : Exn) : emits P (job_catch e).
Proof. apply emits_respond. Qed.

(** A guarded job that ends has completed normally, and its trace is that
    of its [try]/[catch] part followed by the removal. *)
Lemma guarded_job_run (ser y dir : jsstring) (normalized : list ResourceRef) (s : St) :
  exists r s' evs,
    try_catch (job_body env w ser y dir (path_join dir (js "mapping.ttl"))
                 (path_join dir (js "output." ++ outputExt ser)) normalized)
              job_catch s = (r, s')
    /\ st_trace s' = st_trace s ++ evs /\ Forall (job_event y) evs
    /\ ((r = Hang /\ guarded_job env w ser y dir normalized s = (Hang, s'))
        \/ (r = Val tt
            /\ guarded_job env w ser y dir normalized s = (Val tt, cleaned w dir s'))).
Proof.
  unfold guarded_job. rewrite try_finally_run.
  set (body := job_body _ _ _ _ _ _ _ _).
  pose proof (emits_try_catch (job_event y) body job_catch
                (emits_job_body _ _ _ _ _ _) (emits_job_catch _) s) as (evs & Htr & Hall).
  pose proof (try_catch_job body s) as Hcatch.
  destruct (try_catch body job_catch s) as [r s'] eqn:Hrun. simpl in Htr.
  exists r, s', evs. split; [done|]. split; [done|]. split; [done|].
  destruct r as [[]|e|].
  - by right.
  - by destruct (body s) as [[[]|e'|] s''].
  - by left.
Qed.

End GuardedJob.

(** ** Workspace teardown *)

Section Teardown.
Context `{Platform}.
Variables (env : Env) (w : World).

(** The [try] block never asks how the removal will go. *)
Lemma job_body_with_rm (outcome : option Exn) (ser y dir mp op : jsstring)
    (normalized : list ResourceRef) :
  job_body env (with_rm w outcome) ser y dir mp op normalized
  = job_body env w ser y dir mp op normalized.
Proof. reflexivity. Qed.

Lemma rm_rf_removes (dir p : jsstring) (fs : FS) :
  under dir p = true ->
  files (fs_rm_rf dir fs) !! p = None /\ p ∉ dirs (fs_rm_rf dir fs).
Proof.
  intros Hunder. unfold fs_rm_rf. simpl. split.
  - apply map_lookup_filter_None. right. intros v _. simpl. congruence.
  - rewrite elem_of_filter. intros [Hno _]. congruence.
Qed.

Lemma under_self (dir : jsstring) : under dir dir = true.
Proof. unfold under. by rewrite eqb_refl. Qed.

End Teardown.

(** C1.  Whenever a job got as far as creating its workspace and its
    handling ends, the handler has completed normally and the last thing it
    did was the recursive, forced removal of that workspace; when the removal
    succeeds nothing is left at or below the workspace path; and in the same
    world with any other outcome of the removal (a failure included) the
    handler still completes normally, with the same response. *)
Theorem workspace_always_removed `{Platform} (env : Env) (w : World) (fs : FS)
    (req : Request) (dir : jsstring) :
  let run := handle env w fs req in
  In (EMkdtemp dir) (st_trace run.2) -> run.1 <> Hang ->
  run.1 = Val tt
  /\ last (st_trace run.2) = Some (ERm dir true true)
  /\ (w_rm_fails w = None ->
      forall p, under dir p = true ->
      files (st_fs run.2) !! p = None /\ p ∉ dirs (st_fs run.2))
  /\ (forall outcome,
        let run' := handle env (with_rm w outcome) fs req in
        run'.1 = Val tt
        /\ last (st_trace run'.2) = Some (ERm dir true true)
        /\ st_resp run'.2 = st_resp run.2).
Proof.
  intros run Hcreated Hends. subst run. unfold handle in *.
  destruct (post_map_run env req (initial fs))
    as [(resp & _ & Hrun) | (y & items & _ & _ & _ & Hrun)].
  { rewrite Hrun in Hcreated. destruct Hcreated. }
  pose proof (Hrun w) as Hw. destruct (w_mkdtemp w) as [e|suffix] eqn:Hmk.
  { rewrite Hw in Hcreated. destruct Hcreated. }
  set (dir0 := workspace_of w suffix) in *.
  set (ser := request_serialization env req) in *.
  destruct (guarded_job_run env w ser y dir0 (List.map normalize items)
              (created dir0 (initial fs)))
    as (r & s' & evs & Hbody & Htr & Hevs & [[-> Hjob] | [-> Hjob]]);
    rewrite Hjob in Hw; rewrite Hw in *; [done|]. clear Hends.
  simpl in Hcreated, Htr. rewrite Htr in Hcreated.
  assert (dir = dir0) as ->.
  { apply in_app_or in Hcreated as [[Heq | Hin] | [Heq | []]].
    - by injection Heq.
    - rewrite List.Forall_forall in Hevs. destruct (Hevs _ Hin).
    - discriminate. }
  split; [done|]. split; [apply last_snoc|]. split.
  - intros Hrm p Hp. simpl. rewrite Hrm. by apply rm_rf_removes.
  - intros outcome. pose proof (Hrun (with_rm w outcome)) as Hw'.
    simpl in Hw'. rewrite Hmk in Hw'.
    change (workspace_of (with_rm w outcome) suffix) with dir0 in Hw'.
    destruct (guarded_job_run env (with_rm w outcome) ser y dir0
                (List.map normalize items) (created dir0 (initial fs)))
      as (r' & s'' & evs' & Hbody' & _ & _ & Hjob').
    rewrite job_body_with_rm, Hbody in Hbody'. injection Hbody' as <- <-.
    destruct Hjob' as [[[=] _] | [_ Hjob']].
    rewrite Hjob' in Hw'. rewrite Hw'. simpl.
    split; [done|]. split; [apply last_snoc | done].
Qed.

(** C1 at a sample job whose engine exits with 1. *)
Lemma workspace_always_removed_witness :
  let run := @handle Sample.platform Sample.env_open (Sample.world 1 None) Sample.fs0
               (Sample.one_resource "mappings: x" "http://example.org/a.json") in
  run.1 = Val tt
  /\ last (st_trace run.2) = Some (ERm Sample.workdir true true)
  /\ (w_rm_fails (Sample.world 1 None) = None ->
      forall p, under Sample.workdir p = true ->
      files (st_fs run.2) !! p = None /\ p ∉ dirs (st_fs run.2))
  /\ (forall outcome,
        let run' := @handle Sample.platform Sample.env_open
                      (with_rm (Sample.world 1 None) outcome) Sample.fs0
                      (Sample.one_resource "mappings: x" "http://example.org/a.json") in
        run'.1 = Val tt
        /\ last (st_trace run'.2) = Some (ERm Sample.workdir true true)
        /\ st_resp run'.2 = st_resp run.2).
Proof.
  refine (@workspace_always_removed Sample.platform Sample.env_open
            (Sample.world 1 None) Sample.fs0
            (Sample.one_resource "mappings: x" "http://example.org/a.json")
            Sample.workdir _ _).
  - vm_compute. left. reflexivity.
  - vm_compute. discriminate.
Defined.

(** The removal is the last event on each way out of the [try] block:
    success, a failed fetch, a conversion error, an unexpected converter
    result, an engine error, a missing output file; and the answer is the
    same when the removal itself fails. *)
Example removal_on_every_path :
  let outcome w yarrml url :=
    let run := @handle Sample.platform Sample.env_open w Sample.fs0
                 (Sample.one_resource yarrml url) in
    (run.1, resp_status <$> st_resp run.2, last (st_trace run.2)) in
  let removed := Some (ERm Sample.workdir true true) in
  let ok := "http://example.org/a.json"%string in
  outcome (Sample.world 0 None) "mappings: x"%string ok = (Val tt, Some 200, removed)
  /\ outcome (Sample.world 0 None) "mappings: x"%string "http://down/a.json"%string
     = (Val tt, Some 422, removed)
  /\ outcome (Sample.world 0 None) "bad mapping"%string ok = (Val tt, Some 422, removed)
  /\ outcome (Sample.world 0 None) "odd mapping"%string ok = (Val tt, Some 422, removed)
  /\ outcome (Sample.world 1 None) "mappings: x"%string ok = (Val tt, Some 422, removed)
  /\ outcome Sample.silent_world "mappings: x"%string ok = (Val tt, Some 422, removed)
  /\ outcome (Sample.world 0 (Some (Error (js "EBUSY")))) "mappings: x"%string ok
     = (Val tt, Some 200, removed).
Proof. vm_compute. repeat split; reflexivity. Qed.

(** ** Conversion errors *)

Section ConversionError.
Context `{Platform}.
Variables (env : Env) (w : World).
Variables (y : jsstring) (converted : Converted Quad) (lg : Logger).
Hypothesis Hconv : yarrrml_convert y = ConvReturns converted (Some lg).
Hypothesis Herr : log_has_error lg = true.

(** With an error logged, the [try] block spawns nothing, and once the
    converter has been called it answers with the logs and returns. *)
Lemma job_body_conversion_error (ser dir mp op : jsstring)
    (normalized : list ResourceRef) (s : St) :
  let run := job_body env w ser y dir mp op normalized s in
  exists evs,
    st_trace run.2 = st_trace s ++ evs
    /\ Forall (fun e => ~ is_spawn e) evs
    /\ (In (EConvert y) evs ->
        run.1 = Val tt /\ st_resp run.2 = Some (conversion_failed lg)).
Proof.
  intros run. subst run. unfold job_body. rewrite bind_run.
  destruct (emits_fetch_all env w dir normalized s) as (fevs & Htr & Hfevs).
  assert (Forall (fun e => ~ is_spawn e) fevs) as Hns.
  { eapply Forall_impl; [exact Hfevs|]. intros []; simpl; tauto. }
  assert (~ In (EConvert y) fevs) as Hnc.
  { intros Hin. rewrite List.Forall_forall in Hfevs. destruct (Hfevs _ Hin). }
  destruct (fetch_all env w dir normalized s) as [[[]|e|] s2]; simpl in Htr.
  - rewrite bind_run. simpl. rewrite Hconv, Herr. simpl.
    exists (fevs ++ [EConvert y]). rewrite Htr, <- app_assoc.
    split; [done|]. split; [|done].
    apply Forall_app. split; [done|]. constructor; [simpl; tauto | constructor].
  - by exists fevs.
  - by exists fevs.
Qed.

End ConversionError.

(** C4.  When the converter was called in a job, returned, and its logger
    holds an error-level diagnostic, the job is answered 422 "YARRRML
    conversion failed" with the whole log ([getAll()]), and no child process
    was started. *)
Theorem conversion_error_stops_job `{Platform} (env : Env) (w : World) (fs : FS)
    (req : Request) (y : jsstring) (converted : Converted Quad) (lg : Logger) :
  let run := handle env w fs req in
  In (EConvert y) (st_trace run.2) ->
  yarrrml_convert y = ConvReturns converted (Some lg) ->
  log_has_error lg = true ->
  st_resp run.2 = Some (conversion_failed lg)
  /\ Forall (fun e => ~ is_spawn e) (st_trace run.2)
  /\ run.1 = Val tt.
Proof.
  intros run Hcalled Hconv Herr. subst run. unfold handle in *.
  destruct (post_map_run env req (initial fs))
    as [(resp & _ & Hrun) | (y0 & items & _ & _ & _ & Hrun)].
  { rewrite Hrun in Hcalled. destruct Hcalled. }
  specialize (Hrun w). destruct (w_mkdtemp w) as [e|suffix].
  { rewrite Hrun in Hcalled. destruct Hcalled. }
  set (dir := workspace_of w suffix) in *.
  set (ser := request_serialization env req) in *.
  rewrite Hrun in *. clear Hrun. unfold guarded_job in *.
  rewrite try_finally_run, try_catch_job in *.
  set (body := job_body _ _ _ _ _ _ _ _) in *.
  destruct (emits_job_body env w ser y0 dir (path_join dir (js "mapping.ttl"))
              (path_join dir (js "output." ++ outputExt ser))
              (List.map normalize items) (created dir (initial fs)))
    as (evs & Htr & Hevs).
  fold body in Htr.
  assert (In (EConvert y) evs) as Hin.
  { destruct (body (created dir (initial fs))) as [[[]|e|] s'];
      simpl in Htr, Hcalled; rewrite Htr in Hcalled; simpl in Hcalled;
      rewrite ?in_app_iff in Hcalled; simpl in Hcalled;
      intuition discriminate. }
  assert (y0 = y) as ->.
  { rewrite List.Forall_forall in Hevs. by destruct (Hevs _ Hin). }
  destruct (job_body_conversion_error env w y converted lg Hconv Herr ser dir
              (path_join dir (js "mapping.ttl"))
              (path_join dir (js "output." ++ outputExt ser))
              (List.map normalize items) (created dir (initial fs)))
    as (evs' & Htr' & Hns & Hres).
  fold body in Htr', Hres. rewrite Htr in Htr'.
  apply app_inv_head in Htr' as <-. destruct (Hres Hin) as [Hval Hresp].
  destruct (body (created dir (initial fs))) as [r s']; simpl in *. subst r.
  simpl. split; [done|]. split; [|done].
  rewrite Htr. simpl. constructor; [simpl; tauto|].
  apply Forall_app. split; [done|]. constructor; [simpl; tauto | constructor].
Qed.

(** C4 at a sample job whose mapping the converter rejects. *)
Lemma conversion_error_stops_job_witness :
  let run := @handle Sample.platform Sample.env_open (Sample.world 0 None) Sample.fs0
               (Sample.one_resource "bad mapping" "http://example.org/a.json") in
  st_resp run.2
    = Some (conversion_failed (mkLogger true (JArr [JStr (js "error: bad mapping")])))
  /\ Forall (fun e => ~ is_spawn e) (st_trace run.2)
  /\ run.1 = Val tt.
Proof.
  refine (@conversion_error_stops_job Sample.platform Sample.env_open
            (Sample.world 0 None) Sample.fs0
            (Sample.one_resource "bad mapping" "http://example.org/a.json")
            (js "bad mapping") (CvQuads []) _ _ eq_refl eq_refl).
  vm_compute. do 3 right. left. reflexivity.
Defined.

(** ** The fetch phase, when it succeeds *)

Section FetchPhase.
Context `{Platform}.
Variables (env : Env) (w : World).

Lemma fetch_plan_body (deadline : Z) (net : NetOutcome) (text : jsstring) :
  (fetch_plan deadline net).2 = StepBody text ->
  exists t status tb, net = NetResponse t status (BodyText tb text).
Proof.
  unfold fetch_plan. destruct net as [t status body|t e|]; [| |done].
  - destruct (deadline <=? t); [done|]. destruct (negb (resp_ok status)); [done|].
    destruct body as [tb text'|tb e|]; [| |done].
    + destruct (deadline <=? tb); [done|]. intros [= ->]. eauto.
    + by destruct (tb <? deadline).
  - by destruct (t <? deadline).
Qed.

(** A fetch that is fulfilled parsed its body and wrote the file. *)
Lemma fetch_settle_val (url p : jsstring) (step : FetchStep) (s s' : St) :
  fetch_settle w url p step s = (Val tt, s') ->
  exists text json,
    step = StepBody text /\ JSON_parse text = Val json
    /\ s' = mkSt (fs_write p (JSON_stringify_pretty json) (st_fs s))
                 (st_trace s ++ [EWriteFile p (JSON_stringify_pretty json)])
                 (st_resp s).
Proof.
  destruct step as [|e|text]; [done | done |]. simpl.
  rewrite bind_run. unfold lift.
  destruct (JSON_parse text) as [json|e|] eqn:Hparse; [|done|done].
  unfold writeFile. rewrite bind_run. simpl.
  destruct (bool_decide _); [done|].
  destruct (w_write_fails w p); [done|]. intros [= <-].
  by exists text, json.
Qed.

Lemma for_each_settle_val (tasks : list FetchTask) (s s' : St) :
  for_each (fun t => fetch_settle w (ft_url t) (ft_path t) (ft_step t)) tasks s
    = (Val tt, s') ->
  exists evs,
    st_trace s' = st_trace s ++ evs
    /\ forall t, In t tasks ->
       exists text json,
         ft_step t = StepBody text /\ JSON_parse text = Val json
         /\ In (EWriteFile (ft_path t) (JSON_stringify_pretty json)) evs.
Proof.
  revert s. induction tasks as [|t tasks IH]; intros s; simpl.
  - intros [= <-]. exists []. by rewrite app_nil_r.
  - rewrite bind_run.
    destruct (fetch_settle w (ft_url t) (ft_path t) (ft_step t) s)
      as [[[]|e|] s1] eqn:Hone; [|done|done].
    intros Hrest. destruct (IH _ Hrest) as (evs & Htr & Hall).
    apply fetch_settle_val in Hone as (text & json & Hstep & Hparse & ->).
    simpl in Htr. eexists. split; [by rewrite Htr, <- app_assoc|].
    intros t' [<- | Hin].
    + exists text, json. split; [done|]. split; [done|]. by left.
    + destruct (Hall _ Hin) as (text' & json' & ? & ? & ?).
      exists text', json'. split; [done|]. split; [done|]. by right.
Qed.

Lemma insert_by_time_In (t x : FetchTask) (l : list FetchTask) :
  In x (insert_by_time t l) <-> x = t \/ In x l.
Proof.
  induction l as [|u l IH]; simpl; [intuition|].
  destruct (ft_at t <? ft_at u); simpl; rewrite ?IH; intuition.
Qed.

Lemma sort_by_time_In (x : FetchTask) (l : list FetchTask) :
  In x (sort_by_time l) <-> In x l.
Proof.
  unfold sort_by_time.
  assert (forall acc, In x (fold_left (fun acc t => insert_by_time t acc) l acc)
                      <-> In x l \/ In x acc) as Hgen.
  { induction l as [|t l IH]; intros acc; simpl; [intuition|].
    rewrite IH, insert_by_time_In. intuition. }
  rewrite Hgen. simpl. intuition.
Qed.

Lemma for_each_emit_run (tasks : list FetchTask) (s : St) :
  for_each (fun t => emit (EFetch (ft_url t))) tasks s
  = (Val tt, after_events s (List.map (fun t => EFetch (ft_url t)) tasks)).
Proof.
  revert s. induction tasks as [|t tasks IH]; intros s; simpl.
  - unfold after_events. rewrite app_nil_r. by destruct s.
  - rewrite bind_run. simpl. rewrite IH. unfold after_events. simpl.
    by rewrite <- app_assoc.
Qed.


End FetchPhase.

(** ** The [try] block up to the start of the child *)

Section SpawnShape.
Context `{Platform}.
Variables (env : Env) (w : World).

Lemma runRmlMapper_then {B} (inv : EngineInvocation) (k : jsstring -> M B) (s : St) :
  (forall a, emits quiet (k a)) ->
  exists rest,
    st_trace ((runRmlMapper env w inv ≫= k) s).2
      = st_trace s ++ [ESpawn (spawn_call env inv) (st_fs s)] ++ rest
    /\ Forall quiet rest.
Proof.
  intros Hk. rewrite bind_run. unfold runRmlMapper. rewrite !bind_run. simpl.
  set (run := w_engine w _ _).
  destruct (er_end run) as [e|code|]; simpl; try (by exists []).
  unfold lift. destruct (on_close code _) as [a|e|]; try (by exists []).
  destruct (Hk a (mkSt (er_fs run)
                       (st_trace s ++ [ESpawn (spawn_call env inv) (st_fs s)])
                       (st_resp s))) as (rest & Htr & Hrest).
  exists rest. rewrite Htr. simpl. by rewrite <- app_assoc.
Qed.

Lemma emit_bind_run {B} (e : Event) (k : unit -> M B) (s : St) :
  (emit e ≫= k) s = k tt (after_events s [e]).
Proof. reflexivity. Qed.

(** Writing the mapping document and starting the child: the write fails
    and no child is started, or the child is started on the file system the
    write left. *)
Lemma write_then_spawn {B} (mp rml : jsstring) (inv : EngineInvocation)
    (k : jsstring -> M B) (s : St) :
  (forall a, emits quiet (k a)) ->
  let run := (writeFile w mp rml ≫= fun _ => runRmlMapper env w inv ≫= k) s in
  (exists evs, st_trace run.2 = st_trace s ++ evs /\ Forall quiet evs)
  \/ (exists rest,
        st_trace run.2 =
          st_trace s ++ [EWriteFile mp rml;
                         ESpawn (spawn_call env inv) (fs_write mp rml (st_fs s))] ++ rest
        /\ Forall quiet rest).
Proof.
  intros Hk run. subst run. rewrite bind_run. unfold writeFile.
  rewrite bind_run. simpl.
  destruct (bool_decide _).
  { left. exists [EWriteFailed mp]. split; [done|].
    constructor; [simpl; tauto | constructor]. }
  destruct (w_write_fails w mp).
  { left. exists [EWriteFailed mp]. split; [done|].
    constructor; [simpl; tauto | constructor]. }
  right. simpl.
  destruct (runRmlMapper_then inv k
              (mkSt (fs_write mp rml (st_fs s)) (st_trace s ++ [EWriteFile mp rml])
                    (st_resp s)) Hk) as (rest & Htr & Hrest).
  exists rest. split; [|done]. etrans; [exact Htr|]. simpl. by rewrite <- app_assoc.
Qed.

(** Either the [try] block starts no child, or the fetch phase was
    fulfilled and the block went on to convert, write the mapping document
    and start the child on the file system that write left. *)
Lemma job_body_spawn (ser y dir mp op : jsstring) (normalized : list ResourceRef)
    (s : St) :
  let run := job_body env w ser y dir mp op normalized s in
  (exists evs, st_trace run.2 = st_trace s ++ evs /\ Forall quiet evs)
  \/ (exists s2 rml rest,
        fetch_all env w dir normalized s = (Val tt, s2)
        /\ generated_mapping y = Some rml
        /\ st_trace run.2 =
             st_trace s2
             ++ [EConvert y; EWriteFile mp rml;
                 ESpawn (spawn_call env (mkInvocation dir mp op ser (configured_base env)))
                        (fs_write mp rml (st_fs s2))]
             ++ rest
        /\ Forall quiet rest).
Proof.
  intros run. subst run. unfold job_body. rewrite bind_run.
  destruct (emits_fetch_all env w dir normalized s) as (fevs & Htr & Hfevs).
  assert (Forall quiet fevs) as Hq.
  { eapply Forall_impl; [exact Hfevs|]. intros []; simpl; tauto. }
  destruct (fetch_all env w dir normalized s) as [[[]|e|] s2]; simpl in Htr;
    [|left; by exists fevs|left; by exists fevs].
  assert (forall evs, Forall quiet evs -> Forall quiet (fevs ++ EConvert y :: evs)) as Hq'.
  { intros evs Hevs. apply Forall_app. split; [done|]. constructor; [simpl; tauto | done]. }
  assert (forall (r : Res unit) s', st_trace s' = st_trace s2 ++ [EConvert y] ->
            exists evs, st_trace (r, s').2 = st_trace s ++ evs /\ Forall quiet evs)
    as Hstop.
  { intros r s' Hs'. exists (fevs ++ [EConvert y]). simpl.
    rewrite Hs', Htr, <- app_assoc. split; [done|]. apply Hq'. constructor. }
  rewrite emit_bind_run. unfold generated_mapping.
  set (s3 := after_events s2 [EConvert y]).
  set (inv := mkInvocation dir mp op ser _).
  set (k := fun _ : jsstring => readFile op ≫= _).
  assert (forall a, emits quiet (k a)) as Hk.
  { intros a. unfold k. apply emits_bind.
    - apply emits_readFile. simpl. tauto.
    - intros out. apply emits_respond. }
  assert (forall rml,
            (exists evs,
               st_trace ((writeFile w mp rml ≫= fun _ => runRmlMapper env w inv ≫= k) s3).2
               = st_trace s ++ evs /\ Forall quiet evs)
            \/ (exists rest,
                  st_trace ((writeFile w mp rml ≫= fun _ => runRmlMapper env w inv ≫= k) s3).2
                  = st_trace s2
                    ++ [EConvert y; EWriteFile mp rml;
                        ESpawn (spawn_call env inv) (fs_write mp rml (st_fs s2))] ++ rest
                  /\ Forall quiet rest)) as Hgo.
  { intros rml.
    destruct (write_then_spawn mp rml inv k s3 Hk) as [(evs & Hrun & Hevs) | (rest & Hrun & Hrest)].
    - left. exists (fevs ++ EConvert y :: evs). rewrite Hrun. simpl.
      rewrite Htr, <- !app_assoc. split; [done | by apply Hq'].
    - right. exists rest. rewrite Hrun. simpl. by rewrite <- !app_assoc. }
  destruct (yarrrml_convert y) as [e|converted getLogger]; [left; by apply Hstop|].
  destruct (match getLogger with Some lg => log_has_error lg | None => false end);
    [left; by apply Hstop|].
  rewrite bind_run.
  destruct converted as [text|quads|ty]; [| |left; by apply Hstop].
  - destruct (Hgo text) as [Hquiet | (rest & Hrun & Hrest)]; [by left|].
    right. by exists s2, text, rest.
  - unfold quadsToTurtle, lift.
    destruct (n3_write_turtle quads) as [text|e|]; [|left; by apply Hstop..].
    destruct (Hgo text) as [Hquiet | (rest & Hrun & Hrest)]; [by left|].
    right. by exists s2, text, rest.
Qed.

End SpawnShape.

(** ** Reserved file names in the workspace *)

Section ReservedNames.
Context `{Platform}.
Variables (env : Env) (w : World).

(** After the [try] block the guarded job adds at most the removal. *)
Lemma guarded_job_trace (ser y dir : jsstring) (normalized : list ResourceRef) (s : St) :
  exists tail,
    st_trace (guarded_job env w ser y dir normalized s).2
    = st_trace (job_body env w ser y dir (path_join dir (js "mapping.ttl"))
                  (path_join dir (js "output." ++ outputExt ser)) normalized s).2
      ++ tail
    /\ Forall (fun e => ~ is_spawn e) tail.
Proof.
  unfold guarded_job. rewrite try_finally_run, try_catch_job.
  destruct (job_body _ _ _ _ _ _ _ _ s) as [[[]|e|] s']; simpl.
  - exists [ERm dir true true]. split; [done|]. constructor; [simpl; tauto | constructor].
  - exists [ERm dir true true]. split; [done|]. constructor; [simpl; tauto | constructor].
  - exists []. by rewrite app_nil_r.
Qed.

Lemma quiet_not_spawn (evs : list Event) (call : SpawnCall) (seen : FS) :
  Forall (fun e => ~ is_spawn e) evs -> ~ In (ESpawn call seen) evs.
Proof.
  intros Hq Hin. rewrite List.Forall_forall in Hq. by apply (Hq _ Hin).
Qed.

Lemma spawn_unique (before later : list Event) (call call0 : SpawnCall) (seen seen0 : FS) :
  Forall (fun e => ~ is_spawn e) before -> Forall (fun e => ~ is_spawn e) later ->
  In (ESpawn call seen) (before ++ ESpawn call0 seen0 :: later) ->
  call = call0 /\ seen = seen0.
Proof.
  intros Hb Hl Hin. apply in_app_or in Hin as [Hin | [Heq | Hin]].
  - destruct (quiet_not_spawn _ _ _ Hb Hin).
  - by injection Heq.
  - destruct (quiet_not_spawn _ _ _ Hl Hin).
Qed.


(** A run in which a child is started: the request passed validation, the
    workspace was created, every fetch was fulfilled, the mapping document
    was generated and written, and the child was started right after that
    write, on the file system it left, with the handler's invocation. *)
Lemma spawn_shape (fs : FS) (req : Request) (call : SpawnCall) (seen : FS) :
  In (ESpawn call seen) (st_trace (handle env w fs req).2) ->
  exists y items suffix s2 fevs rml later,
    let dir := workspace_of w suffix in
    let p := path_join dir (js "mapping.ttl") in
    get_prop (req_body req) (js "yarrml") = JStr y
    /\ get_prop (req_body req) (js "resources") = JArr items
    /\ fetch_all env w dir (List.map normalize items) (created dir (initial fs))
         = (Val tt, s2)
    /\ st_trace s2 = EMkdtemp dir :: fevs
    /\ generated_mapping y = Some rml
    /\ call = spawn_call env (job_invocation env (request_serialization env req) dir)
    /\ seen = fs_write p rml (st_fs s2)
    /\ st_trace (handle env w fs req).2 =
         EMkdtemp dir :: fevs ++ [EConvert y; EWriteFile p rml; ESpawn call seen] ++ later.
Proof.
  intros Hspawn. unfold handle in *.
  destruct (post_map_run env req (initial fs))
    as [(resp & _ & Hrun) | (y & items & Hy & Hitems & _ & Hrun)].
  { rewrite Hrun in Hspawn. destruct Hspawn. }
  specialize (Hrun w). destruct (w_mkdtemp w) as [e|suffix].
  { rewrite Hrun in Hspawn. destruct Hspawn. }
  set (dir := workspace_of w suffix) in *.
  set (ser := request_serialization env req) in *.
  set (p := path_join dir (js "mapping.ttl")).
  rewrite Hrun in *. clear Hrun.
  destruct (guarded_job_trace ser y dir (List.map normalize items)
              (created dir (initial fs))) as (tail & Htrace & Htail).
  rewrite Htrace in *. clear Htrace.
  destruct (job_body_spawn env w ser y dir p
              (path_join dir (js "output." ++ outputExt ser))
              (List.map normalize items) (created dir (initial fs)))
    as [(evs & Htr & Hquiet) | (s2 & rml & rest & Hfetch & Hrml & Htr & Hrest)];
    fold p in Hspawn |- *; rewrite Htr in *; clear Htr.
  { exfalso. simpl in Hspawn. destruct Hspawn as [Heq | Hspawn]; [discriminate|].
    apply in_app_or in Hspawn as [Hs | Hs];
      [exact (quiet_not_spawn _ _ _ Hquiet Hs) | exact (quiet_not_spawn _ _ _ Htail Hs)]. }
  destruct (emits_fetch_all env w dir (List.map normalize items)
              (created dir (initial fs))) as (fevs & Htr2 & Hfevs).
  rewrite Hfetch in Htr2. cbn [snd st_trace created initial app] in Htr2.
  assert (Forall quiet fevs) as Hq1.
  { eapply Forall_impl; [exact Hfevs|]. intros []; simpl; tauto. }
  rewrite Htr2 in *.
  assert (call = spawn_call env (job_invocation env ser dir)
          /\ seen = fs_write p rml (st_fs s2)) as [-> ->].
  { apply (spawn_unique (EMkdtemp dir :: fevs ++ [EConvert y; EWriteFile p rml])
             (rest ++ tail)).
    - constructor; [simpl; tauto|]. apply Forall_app. split; [done|].
      repeat (constructor; [simpl; tauto|]). constructor.
    - by apply Forall_app.
    - cbn [app] in Hspawn |- *.
      rewrite <- !app_assoc in Hspawn |- *. cbn [app] in Hspawn |- *. exact Hspawn. }
  exists y, items, suffix, s2, fevs, rml, (rest ++ tail).
  cbn zeta. fold dir p. repeat (split; [done|]).
  cbn [app]. f_equal. repeat (rewrite <- app_assoc; cbn [app]). reflexivity.
Qed.

End ReservedNames.



(** ** The engine invocation of a job *)

(** C6.  [runRmlMapper] starts exactly one child, with the call built
    from its invocation, on the files as they are then, and the files
    afterwards are those the child left.  For every invocation that child
    runs in the invocation's working directory, and its argument list always
    has [-m] followed by the mapping-document path and [-o] followed by the
    output path; it has [-s] followed by the requested serialization exactly
    when that is not empty, and [-b] followed by the base-IRI override
    exactly when there is a non-empty one; beyond [-jar], the jar and these
    options it has nothing.  Every child the handler starts is started this
    way from the job's own invocation: the working directory is the
    workspace created for the job, the two paths lie in it, the
    serialization is the request's and the base IRI is the configured
    [BASE_IRI], trimmed. *)
Theorem engine_arguments `{Platform} (env : Env) (inv : EngineInvocation) :
  let call := spawn_call env inv in
  (forall w s,
     let run := runRmlMapper env w inv s in
     st_trace run.2 = st_trace s ++ [ESpawn call (st_fs s)]
     /\ st_fs run.2 = er_fs (w_engine w call (st_fs s))
     /\ st_resp run.2 = st_resp s)
  /\ (sp_command call = js "java"
      /\ sp_cwd call = workdir inv
      /\ has_option (js "-m") (mappingPath inv) (sp_args call)
      /\ has_option (js "-o") (outputPath inv) (sp_args call)
      /\ (has_option (js "-s") (serialization inv) (sp_args call)
          <-> serialization inv <> [])
      /\ (has_option (js "-b") (base_value inv) (sp_args call)
          <-> base_value inv <> [])
      /\ length (sp_args call) =
           (6 + (if eqb (serialization inv) [] then 0 else 2)
              + (if eqb (base_value inv) [] then 0 else 2))%nat)
  /\ (forall w fs req started seen,
        In (ESpawn started seen) (st_trace (handle env w fs req).2) ->
        exists dir,
          In (EMkdtemp dir) (st_trace (handle env w fs req).2)
          /\ started = spawn_call env
                         (job_invocation env (request_serialization env req) dir)).
Proof.
  intros call. split; [|split; [split; [done | apply spawn_call_options]|]].
  - intros w s run. subst run. unfold runRmlMapper. rewrite !bind_run. simpl.
    fold call. destruct (er_end _) as [e|code|]; simpl; [done| |done].
    unfold lift, on_close. by destruct code as [[|c|c]|].
  - intros w fs req started seen Hspawn.
    destruct (spawn_shape env w fs req started seen Hspawn)
      as (y & items & suffix & s2 & fevs & rml & later
          & _ & _ & _ & _ & _ & Hcall & _ & Htrace).
    exists (workspace_of w suffix). split; [|done].
    rewrite Htrace. by left.
Qed.

(** C6 at the sample job: its run starts a child, and that child is the
    one built from the job's invocation in the workspace the run created; run
    on its own, [runRmlMapper] starts that child from any state. *)
Lemma engine_arguments_witness :
  let w := Sample.world 0 None in
  let req := Sample.one_resource "mappings: x" "http://example.org/a.json" in
  let inv := job_invocation Sample.env_open (js "turtle") Sample.workdir in
  let call := spawn_call Sample.env_open inv in
  let seen := fs_write (path_join Sample.workdir (js "mapping.ttl"))
                (js "<#m> a <#TriplesMap> .")
                (fs_write (path_join Sample.workdir (js "a.json")) (js "{}")
                   (fs_mkdir Sample.workdir Sample.fs0)) in
  let run := @handle Sample.platform Sample.env_open w Sample.fs0 req in
  In (ESpawn call seen) (st_trace run.2)
  /\ (exists dir,
        In (EMkdtemp dir) (st_trace run.2)
        /\ call = spawn_call Sample.env_open
                    (job_invocation Sample.env_open
                       (request_serialization Sample.env_open req) dir))
  /\ st_trace (runRmlMapper Sample.env_open w inv (initial Sample.fs0)).2
     = [ESpawn call Sample.fs0]
  /\ has_option (js "-m") (path_join Sample.workdir (js "mapping.ttl")) (sp_args call)
  /\ has_option (js "-o") (path_join Sample.workdir (js "output.ttl")) (sp_args call)
  /\ has_option (js "-s") (js "turtle") (sp_args call)
  /\ sp_cwd call = Sample.workdir.
Proof.
  intros w req inv call seen run.
  assert (In (ESpawn call seen) (st_trace run.2)) as Hin
    by (vm_compute; do 5 right; left; reflexivity).
  destruct (@engine_arguments Sample.platform Sample.env_open inv)
    as (Hstart & (_ & Hcwd & Hm & Ho & Hs & _) & Hjob).
  split; [exact Hin|]. split; [exact (Hjob w Sample.fs0 req call seen Hin)|].
  split; [exact (proj1 (Hstart w (initial Sample.fs0)))|].
  split; [exact Hm|]. split; [exact Ho|]. split; [|exact Hcwd].
  apply Hs. discriminate.
Defined.

(** The invocation of the sample job: no base IRI is configured, the
    request asks for [turtle]. *)
Example sample_spawn_args :
  sp_args (spawn_call Sample.env_open
             (job_invocation Sample.env_open (js "turtle") Sample.workdir))
  = [js "-jar"; js "/opt/rmlmapper.jar";
     js "-m"; js "/tmp/mapjob-0000-1111-AbC123/mapping.ttl";
     js "-o"; js "/tmp/mapjob-0000-1111-AbC123/output.ttl";
     js "-s"; js "turtle"].
Proof. vm_compute. reflexivity. Qed.

(** * Further properties of the code *)

(** ** The sanitizer's results *)

Section SanitizerResults.

Lemma in_class_not_space (c : code_unit) : in_class c -> is_space c = false.
Proof.
  unfold in_class, is_space. intros Hc.
  rewrite !orb_false_iff, !andb_false_iff, !N.leb_gt, !N.eqb_neq. lia.
Qed.

Lemma trim_start_id (t : jsstring) :
  Forall (fun c => is_space c = false) t -> trim_start t = t.
Proof. intros Ht. destruct Ht as [|c t Hc _]; simpl; [done | by rewrite Hc]. Qed.

(** A string without white space is its own trimmed form. *)
Lemma trim_id (t : jsstring) : Forall (fun c => is_space c = false) t -> trim t = t.
Proof.
  intros Ht. unfold trim, trim_end. rewrite (trim_start_id t Ht).
  rewrite trim_start_id by by apply Forall_rev. apply rev_involutive.
Qed.

Lemma acceptable_no_space (t : jsstring) :
  acceptable t -> Forall (fun c => is_space c = false) t.
Proof.
  intros (_ & _ & _ & _ & Hall). eapply Forall_impl; [exact Hall|].
  apply in_class_not_space.
Qed.

(** The sanitizer hands an acceptable name back unchanged. *)
Lemma sanitize_acceptable_fixed (t fb : jsstring) :
  acceptable t -> sanitizeFilename (JStr t) fb = t.
Proof.
  intros Hacc. rewrite sanitize_string, (trim_id t (acceptable_no_space t Hacc)).
  apply acceptable_test in Hacc. by rewrite Hacc.
Qed.

(** The result is the fallback, or the trimmed candidate when that is
    acceptable. *)
Lemma sanitize_cases (name : JsVal) (fb : jsstring) :
  sanitizeFilename name fb = fb
  \/ exists s, name = JStr s /\ sanitizeFilename name fb = trim s /\ acceptable (trim s).
Proof.
  destruct name as [| |b|z|s|items|fields];
    try (left; by apply sanitize_non_string).
  rewrite sanitize_string.
  destruct (includes (trim s) (js "/") || includes (trim s) [92%N]
            || includes (trim s) (js "..") || negb (safe_name_re_test (trim s)))
    eqn:Htest; [by left|].
  right. exists s. split; [done|]. split; [done|]. by apply acceptable_test.
Qed.

Lemma acceptable_data_json : acceptable (js "data.json").
Proof. apply acceptable_test. vm_compute. reflexivity. Qed.

End SanitizerResults.

(** X1.  With an acceptable fallback, whatever the candidate is, the name
    the sanitizer returns is acceptable: not empty, without [/], [\] or
    [..], and made of [[A-Za-z0-9._-]] only. *)
Theorem sanitizeFilename_result_acceptable (name : JsVal) (fallback : jsstring) :
  acceptable fallback -> acceptable (sanitizeFilename name fallback).
Proof.
  intros Hfb. destruct (sanitize_cases name fallback) as [-> | (s & _ & -> & Hacc)]; done.
Qed.

Lemma sanitizeFilename_result_acceptable_witness :
  acceptable (sanitizeFilename (JStr (js "../../etc/passwd")) (js "data.json")).
Proof.
  apply (sanitizeFilename_result_acceptable (JStr (js "../../etc/passwd")) (js "data.json")).
  apply acceptable_test. vm_compute. reflexivity.
Defined.

(** X2.  Sanitizing is idempotent: with an acceptable fallback, sanitizing
    the name the sanitizer returned gives that name again. *)
Theorem sanitizeFilename_idempotent (name : JsVal) (fallback : jsstring) :
  acceptable fallback ->
  sanitizeFilename (JStr (sanitizeFilename name fallback)) fallback
  = sanitizeFilename name fallback.
Proof.
  intros Hfb. apply sanitize_acceptable_fixed.
  destruct (sanitize_cases name fallback) as [-> | (s & _ & -> & Hacc)]; done.
Qed.

Lemma sanitizeFilename_idempotent_witness :
  sanitizeFilename (JStr (sanitizeFilename (JStr (js " report.json ")) (js "data.json")))
    (js "data.json")
  = sanitizeFilename (JStr (js " report.json ")) (js "data.json").
Proof.
  apply (sanitizeFilename_idempotent (JStr (js " report.json ")) (js "data.json")).
  apply acceptable_test. vm_compute. reflexivity.
Defined.

(** ** CORS policy *)

Lemma allowedOrigins_entries (env : Env) (e : jsstring) :
  In e (allowedOrigins env) <-> origin_entry env e.
Proof.
  unfold allowedOrigins, origin_entry. rewrite in_map_iff. split.
  - intros (p & <- & Hp). eauto.
  - intros (p & Hp & ->). eauto.
Qed.

(** X3.  The CORS origin callback allows a request exactly when it has no
    [Origin] header (or an empty one), or [*] is among the allowed origins,
    or its origin equals one of the allowed origins; every other origin is
    refused with an error that names it. *)
Theorem cors_origin_contract (env : Env) (origin : option jsstring) :
  (cors_origin env origin = CorsAllow
   <-> origin = None \/ origin = Some []
       \/ origin_entry env (js "*")
       \/ exists o, origin = Some o /\ origin_entry env o)
  /\ (cors_origin env origin = CorsAllow
      \/ exists o, origin = Some o
           /\ cors_origin env origin = CorsDeny (Error (js "Not allowed by CORS: " ++ o))).
Proof.
  unfold cors_origin. destruct origin as [o|]; [|split; [split; auto | by left]].
  destruct (truthy (JStr o)) eqn:Ho; simpl.
  2:{ apply not_true_iff_false in Ho. rewrite truthy_string in Ho.
      assert (o = []) as -> by (destruct o; [done | by destruct Ho]).
      split; [split; auto | by left]. }
  destruct (array_includes (allowedOrigins env) (js "*")) eqn:Hstar; simpl.
  { apply array_includes_In, allowedOrigins_entries in Hstar.
    split; [split; auto | by left]. }
  destruct (array_includes (allowedOrigins env) o) eqn:Hin.
  { apply array_includes_In, allowedOrigins_entries in Hin.
    split; [split; eauto 6 | by left]. }
  apply not_true_iff_false in Hstar, Hin.
  rewrite array_includes_In, allowedOrigins_entries in Hstar, Hin.
  apply truthy_string in Ho. split; [|right; eauto]. split; [done|].
  intros [[=] | [[= ->] | [Hs | (o' & [= <-] & Ho')]]]; done.
Qed.

(** The default policy and a configured one, on examples. *)
Example cors_origin_examples :
  let configured : Env := {[ "ALLOWED_ORIGINS" := js "https://a.example, https://b.example" ]} in
  cors_origin ∅ None = CorsAllow
  /\ cors_origin ∅ (Some (js "http://localhost:5173")) = CorsAllow
  /\ cors_origin ∅ (Some (js "http://localhost:5174"))
     = CorsDeny (Error (js "Not allowed by CORS: http://localhost:5174"))
  /\ cors_origin configured (Some (js "https://b.example")) = CorsAllow
  /\ cors_origin configured (Some (js "http://localhost:5173"))
     = CorsDeny (Error (js "Not allowed by CORS: http://localhost:5173"))
  /\ cors_origin {[ "ALLOWED_ORIGINS" := js "https://a.example,*" ]}
       (Some (js "https://anything.example")) = CorsAllow.
Proof. vm_compute. done. Qed.

(** ** How a job runs, phase by phase *)

Section JobPhases.
Context `{Platform}.
Variables (env : Env) (w : World).

(** The engine phase, by how the child ends. *)
Lemma engine_phase_run (inv : EngineInvocation) (ser : jsstring) (s : St) :
  let call := spawn_call env inv in
  let run := w_engine w call (st_fs s) in
  let s5 := mkSt (er_fs run) (st_trace s ++ [ESpawn call (st_fs s)]) (st_resp s) in
  engine_phase env w inv ser s =
    match er_end run with
    | SpawnFailed e => (Throw e, s5)
    | NeverCloses => (Hang, s5)
    | Closed code =>
        match on_close code (collect_stderr (er_stderr run)) with
        | Val _ =>
            match files (er_fs run) !! outputPath inv with
            | Some out =>
                (Val tt, mkSt (er_fs run) (st_trace s5 ++ [EReadFile (outputPath inv)])
                              (Some (RSend 200 (contentTypeFor ser ++ js "; charset=utf-8") out)))
            | None => (Throw (ENOENT (outputPath inv)),
                       after_events s5 [EReadFile (outputPath inv)])
            end
        | Throw e => (Throw e, s5)
        | Hang => (Hang, s5)
        end
    end.
Proof.
  intros call run s5. unfold engine_phase, runRmlMapper. rewrite !bind_run. simpl.
  fold call. fold run. destruct (er_end run) as [e|code|]; simpl; [done| |done].
  destruct (on_close code _) as [a|e|]; [|reflexivity|reflexivity].
  unfold readFile, mbind, M_bind, emit, get_fs. simpl.
  destruct (files (er_fs run) !! outputPath inv); reflexivity.
Qed.

Lemma job_body_fetch_throw (ser y dir mp op : jsstring) (normalized : list ResourceRef)
    (s s2 : St) (e : Exn) :
  fetch_all env w dir normalized s = (Throw e, s2) ->
  job_body env w ser y dir mp op normalized s = (Throw e, s2).
Proof. intros Hf. unfold job_body. by rewrite bind_run, Hf. Qed.

Lemma job_body_fetch_hang (ser y dir mp op : jsstring) (normalized : list ResourceRef)
    (s s2 : St) :
  fetch_all env w dir normalized s = (Hang, s2) ->
  job_body env w ser y dir mp op normalized s = (Hang, s2).
Proof. intros Hf. unfold job_body. by rewrite bind_run, Hf. Qed.

(** After a fulfilled fetch phase: the block stops at the conversion or at
    the write of the mapping document, without a child and with the files as
    the fetch phase left them; or it enters the engine phase. *)
Lemma job_body_after_fetch (ser y dir mp op : jsstring) (normalized : list ResourceRef)
    (s s2 : St) :
  fetch_all env w dir normalized s = (Val tt, s2) ->
  let run := job_body env w ser y dir mp op normalized s in
  ((st_trace run.2 = st_trace s2 ++ [EConvert y]
    \/ st_trace run.2 = st_trace s2 ++ [EConvert y; EWriteFailed mp])
   /\ st_fs run.2 = st_fs s2
   /\ ((run.1 <> Val tt /\ st_resp run.2 = st_resp s2)
       \/ (run.1 = Val tt
           /\ exists converted lg,
                yarrrml_convert y = ConvReturns converted (Some lg)
                /\ log_has_error lg = true
                /\ st_resp run.2 = Some (conversion_failed lg))))
  \/ (exists rml,
        generated_mapping y = Some rml
        /\ run = engine_phase env w (mkInvocation dir mp op ser (configured_base env)) ser
                   (mapped y mp rml s2)).
Proof.
  intros Hf run. subst run. unfold job_body. rewrite bind_run, Hf, emit_bind_run.
  unfold generated_mapping.
  assert (forall (r : Res unit) (Q : Prop), r <> Val tt ->
            let run := (r, after_events s2 [EConvert y]) in
            (st_trace run.2 = st_trace s2 ++ [EConvert y]
             \/ st_trace run.2 = st_trace s2 ++ [EConvert y; EWriteFailed mp])
            /\ st_fs run.2 = st_fs s2
            /\ ((run.1 <> Val tt /\ st_resp run.2 = st_resp s2) \/ Q)) as Hstop.
  { intros r Q Hr. simpl. split; [by left|]. split; [done|]. by left. }
  change (engine_phase env w (mkInvocation dir mp op ser (configured_base env)))
    with (engine_phase env w (mkInvocation dir mp op ser
            (if truthy (JStr (trim (env_or env "BASE_IRI" [])))
             then Some (trim (env_or env "BASE_IRI" [])) else None))).
  set (inv := mkInvocation dir mp op ser _).
  assert (forall rml,
         (writeFile w mp rml ≫= fun _ =>
            runRmlMapper env w inv ≫= fun _ =>
            readFile op ≫= fun out =>
            respond (RSend 200 (contentTypeFor ser ++ js "; charset=utf-8") out))
           (after_events s2 [EConvert y])
         = match (if bool_decide (mp ∈ dirs (st_fs s2)) then Some (EISDIR mp)
                  else w_write_fails w mp) with
           | Some e => (Throw e, after_events s2 [EConvert y; EWriteFailed mp])
           | None => engine_phase env w inv ser (mapped y mp rml s2)
           end) as Hwrite.
  { intros rml. unfold writeFile. rewrite !bind_run. simpl.
    destruct (bool_decide _); simpl;
      [unfold after_events; simpl; by rewrite <- app_assoc|].
    destruct (w_write_fails w mp); simpl;
      [unfold after_events; simpl; by rewrite <- app_assoc|].
    unfold mapped. by rewrite <- !app_assoc. }
  assert (forall rml (Q : Prop),
         let run := (writeFile w mp rml ≫= fun _ =>
                       runRmlMapper env w inv ≫= fun _ =>
                       readFile op ≫= fun out =>
                       respond (RSend 200 (contentTypeFor ser ++ js "; charset=utf-8") out))
                      (after_events s2 [EConvert y]) in
         ((st_trace run.2 = st_trace s2 ++ [EConvert y]
           \/ st_trace run.2 = st_trace s2 ++ [EConvert y; EWriteFailed mp])
          /\ st_fs run.2 = st_fs s2
          /\ ((run.1 <> Val tt /\ st_resp run.2 = st_resp s2) \/ Q))
         \/ run = engine_phase env w inv ser (mapped y mp rml s2)) as Hgo.
  { intros rml Q. cbn zeta. rewrite Hwrite.
    destruct (if bool_decide _ then _ else _);
      [left; simpl; split; [by right|]; split; [done|]; by left | by right]. }
  clear Hwrite.
  destruct (yarrrml_convert y) as [e|converted getLogger] eqn:Hconv;
    [left; by apply Hstop|].
  destruct (match getLogger with Some lg => log_has_error lg | None => false end)
    eqn:Herr.
  { left. destruct getLogger as [lg|]; [|done]. simpl.
    split; [by left|]. split; [done|]. right. split; [done|].
    by exists converted, lg. }
  rewrite bind_run.
  destruct converted as [text|quads|ty]; [| |left; by apply Hstop].
  - cbn [mret M_ret]. destruct (Hgo text False) as [Hl | Hr].
    + left. destruct Hl as (Htr & Hfs & [Hno | []]). split; [done|]. split; [done|].
      by left.
    + right. by exists text.
  - unfold quadsToTurtle, lift.
    destruct (n3_write_turtle quads) as [text|e|]; [|left; by apply Hstop..].
    destruct (Hgo text False) as [Hl | Hr].
    + left. destruct Hl as (Htr & Hfs & [Hno | []]). split; [done|]. split; [done|].
      by left.
    + right. by exists text.
Qed.

(** The guarded job is the [try] block followed by [catch] and
    [finally]. *)
Lemma guarded_job_settle (ser y dir : jsstring) (normalized : list ResourceRef) (s : St) :
  guarded_job env w ser y dir normalized s
  = settle_job w dir (job_try env w ser y dir normalized s).
Proof.
  unfold guarded_job, settle_job, job_try. rewrite try_finally_run, try_catch_job.
  by destruct (job_body _ _ _ _ _ _ _ _ s) as [[[]|e|] s'].
Qed.

(** Every run of the handler: an early 400 or 403; or [mkdtemp] fails; or
    the job runs in its new workspace. *)
Lemma handle_cases (fs : FS) (req : Request) :
  (exists resp,
     (resp_status resp = 400 \/ resp_status resp = 403)
     /\ handle env w fs req = (Val tt, mkSt fs [] (Some resp)))
  \/ (exists e, w_mkdtemp w = inl e /\ handle env w fs req = (Throw e, initial fs))
  \/ (exists y items suffix,
        get_prop (req_body req) (js "yarrml") = JStr y
        /\ get_prop (req_body req) (js "resources") = JArr items
        /\ Forall (accepted env) items
        /\ w_mkdtemp w = inr suffix
        /\ handle env w fs req
           = settle_job w (workspace_of w suffix)
               (job_try env w (request_serialization env req) y (workspace_of w suffix)
                  (List.map normalize items)
                  (created (workspace_of w suffix) (initial fs)))).
Proof.
  unfold handle.
  destruct (post_map_run env req (initial fs))
    as [(resp & Hst & Hrun) | (y & items & Hy & Hitems & Hacc & Hrun)].
  { left. exists resp. split; [done|]. apply Hrun. }
  right. specialize (Hrun w). destruct (w_mkdtemp w) as [e|suffix] eqn:Hmk.
  { left. by exists e. }
  right. exists y, items, suffix. rewrite Hrun, guarded_job_settle. done.
Qed.

End JobPhases.

(** ** Every run of the handler *)

Section HandlerRuns.
Context `{Platform}.
Variables (env : Env) (w : World).

Lemma fetch_events_calm (y : jsstring) (evs : list Event) :
  Forall fetch_event evs -> Forall (calm y) evs.
Proof.
  intros Hf. eapply Forall_impl; [exact Hf|]. intros []; unfold calm; simpl; tauto.
Qed.

(** The [try] block from a state without a response: it stops without
    starting a child, having answered only if the conversion logged an error;
    or it enters the engine phase after the mapping document was written. *)
Lemma job_try_run (ser y dir : jsstring) (normalized : list ResourceRef) (s : St) :
  st_resp s = None ->
  let run := job_try env w ser y dir normalized s in
  (exists evs,
     st_trace run.2 = st_trace s ++ evs /\ Forall (calm y) evs
     /\ ((run.1 <> Val tt /\ st_resp run.2 = None)
         \/ (run.1 = Val tt /\ exists lg, st_resp run.2 = Some (conversion_failed lg))))
  \/ (exists s4 pre,
        st_resp s4 = None /\ st_trace s4 = st_trace s ++ pre /\ Forall (calm y) pre
        /\ run = engine_phase env w (job_invocation env ser dir) ser s4).
Proof.
  intros Hnone run. subst run. unfold job_try.
  set (mp := path_join dir (js "mapping.ttl")).
  set (op := path_join dir (js "output." ++ outputExt ser)).
  destruct (emits_fetch_all env w dir normalized s) as (fevs & Htr & Hfevs).
  pose proof (keeps_response_fetch_all env w dir normalized s) as Hresp.
  apply (fetch_events_calm y) in Hfevs.
  destruct (fetch_all env w dir normalized s) as [[[]|e|] s2] eqn:Hf;
    simpl in Htr, Hresp.
  - destruct (job_body_after_fetch env w ser y dir mp op normalized s s2 Hf)
      as [(Htrace & _ & Hans) | (rml & _ & Hrun)].
    + left.
      assert (Forall (calm y) [EConvert y]) as Hc1
        by (constructor; [unfold calm; simpl; tauto | constructor]).
      assert (Forall (calm y) [EConvert y; EWriteFailed mp]) as Hc2
        by (repeat (constructor; [unfold calm; simpl; tauto|]); constructor).
      assert (exists evs, st_trace (job_body env w ser y dir mp op normalized s).2
                          = st_trace s ++ evs /\ Forall (calm y) evs) as (evs & -> & Hevs).
      { destruct Htrace as [-> | ->]; rewrite Htr, <- app_assoc; eexists;
          (split; [reflexivity|]); by apply Forall_app. }
      exists evs. split; [done|]. split; [done|].
      destruct Hans as [[Hno Hr] | (Hval & c & lg & _ & _ & Hr)].
      * left. split; [done|]. congruence.
      * right. split; [done|]. by exists lg.
    + right. exists (mapped y mp rml s2), (fevs ++ [EConvert y; EWriteFile mp rml]).
      split; [simpl; congruence|]. split; [simpl; by rewrite Htr, <- app_assoc|].
      split; [|exact Hrun].
      apply Forall_app. split; [done|].
      repeat (constructor; [unfold calm; simpl; tauto|]). constructor.
  - left. rewrite (job_body_fetch_throw env w ser y dir mp op normalized s s2 e Hf).
    exists fevs. split; [done|]. split; [done|]. left. split; [done|]. simpl. congruence.
  - left. rewrite (job_body_fetch_hang env w ser y dir mp op normalized s s2 Hf).
    exists fevs. split; [done|]. split; [done|]. left. split; [done|]. simpl. congruence.
Qed.

Lemma on_close_val (code : option Z) (stderr text : jsstring) :
  on_close code stderr = Val text <-> code = Some 0 /\ text = stderr.
Proof.
  unfold on_close. destruct code as [[|c|c]|]; split;
    try (intros [= <-]; done); try (intros [[=] _]; done); try done.
  by intros [_ ->].
Qed.

(** Every run of the handler is of one of four kinds. *)
Lemma handle_run (fs : FS) (req : Request) :
  (exists resp,
     (resp_status resp = 400 \/ resp_status resp = 403)
     /\ handle env w fs req = (Val tt, mkSt fs [] (Some resp)))
  \/ (exists e, w_mkdtemp w = inl e /\ handle env w fs req = (Throw e, initial fs))
  \/ (exists y dir r s' evs,
        handle env w fs req = settle_job w dir (r, s')
        /\ st_trace s' = EMkdtemp dir :: evs /\ Forall (calm y) evs
        /\ ((r <> Val tt /\ st_resp s' = None)
            \/ (r = Val tt /\ exists lg, st_resp s' = Some (conversion_failed lg))))
  \/ (exists y dir s4 pre,
        st_resp s4 = None /\ st_trace s4 = EMkdtemp dir :: pre /\ Forall (calm y) pre
        /\ handle env w fs req
           = settle_job w dir
               (engine_phase env w
                  (job_invocation env (request_serialization env req) dir)
                  (request_serialization env req) s4)).
Proof.
  destruct (handle_cases env w fs req)
    as [Hearly | [Hmk | (y & items & suffix & _ & _ & _ & _ & Hrun)]];
    [by left | right; by left |].
  right. right. rewrite Hrun.
  destruct (job_try_run (request_serialization env req) y (workspace_of w suffix)
              (List.map normalize items)
              (created (workspace_of w suffix) (initial fs)) eq_refl)
    as [(evs & Htr & Hevs & Hans) | (s4 & pre & Hnone & Htr & Hpre & Hphase)].
  - left. destruct (job_try _ _ _ _ _ _ _) as [r s'].
    exists y, (workspace_of w suffix), r, s', evs. by repeat split.
  - right. exists y, (workspace_of w suffix), s4, pre. rewrite Hphase.
    by repeat split.
Qed.

End HandlerRuns.

Section OutcomeFacts.

Lemma calm_not_rm (y : jsstring) (evs : list Event) :
  Forall (calm y) evs -> Forall (fun e => ~ is_rm e) evs.
Proof.
  intros Hc. eapply Forall_impl; [exact Hc|].
  intros [] [Hj _]; simpl in *; tauto.
Qed.

Lemma calm_quiet (y : jsstring) (evs : list Event) :
  Forall (calm y) evs -> Forall quiet evs.
Proof. intros Hc. eapply Forall_impl; [exact Hc|]. by intros e [_ Hq]. Qed.

End OutcomeFacts.

(** X4.  Every run of the handler ends in exactly one of three ways.  It
    completes normally and has answered, with status 200, 400, 403 or 422.
    Or [mkdtemp] failed: the handler's promise is rejected with that error,
    nothing was answered and nothing was done.  Or it never completes
    (the child never closes, or a library promise never settles): then
    nothing was answered, the workspace was created and its removal never
    ran. *)
Theorem handler_outcomes `{Platform} (env : Env) (w : World) (fs : FS) (req : Request) :
  let run := handle env w fs req in
  (run.1 = Val tt
   /\ exists r, st_resp run.2 = Some r
        /\ (resp_status r = 200 \/ resp_status r = 400
            \/ resp_status r = 403 \/ resp_status r = 422))
  \/ (exists e, w_mkdtemp w = inl e /\ run = (Throw e, initial fs))
  \/ (run.1 = Hang /\ st_resp run.2 = None
      /\ (exists dir, In (EMkdtemp dir) (st_trace run.2))
      /\ Forall (fun e => ~ is_rm e) (st_trace run.2)).
Proof.
  intros run. subst run.
  destruct (handle_run env w fs req)
    as [(resp & Hst & ->) | [(e & Hmk & ->)
        | [(y & dir & r & s' & evs & -> & Htr & Hevs & Hans)
          | (y & dir & s4 & pre & Hnone & Htr & Hpre & ->)]]].
  - left. split; [done|]. exists resp. split; [done|]. tauto.
  - right. left. by exists e.
  - destruct r as [[]|e|]; simpl.
    + left. split; [done|]. destruct Hans as [[Hno _] | (_ & lg & ->)]; [done|].
      eexists. split; [done|]. simpl. tauto.
    + left. split; [done|]. eexists. split; [done|]. simpl. tauto.
    + right. right. destruct Hans as [[_ Hr] | [[=] _]].
      split; [done|]. split; [done|]. rewrite Htr. split; [exists dir; by left|].
      constructor; [simpl; tauto | by eapply calm_not_rm].
  - rewrite engine_phase_run.
    set (call := spawn_call env _). set (run := w_engine w call (st_fs s4)).
    assert (Forall (fun e => ~ is_rm e) (st_trace s4 ++ [ESpawn call (st_fs s4)])) as Hnorm.
    { rewrite Htr. constructor; [simpl; tauto|]. apply Forall_app. split.
      - by eapply calm_not_rm.
      - constructor; [simpl; tauto | constructor]. }
    assert (exists d, In (EMkdtemp d) (st_trace s4 ++ [ESpawn call (st_fs s4)])) as Hdir.
    { exists dir. rewrite Htr. by left. }
    destruct (er_end run) as [e|code|]; simpl.
    + left. split; [done|]. eexists. split; [done|]. simpl. tauto.
    + destruct (on_close code _) as [a|e|] eqn:Hclose; simpl.
      * destruct (files (er_fs run) !! _); simpl;
          (left; split; [done|]; eexists; split; [done|]; simpl; tauto).
      * left. split; [done|]. eexists. split; [done|]. simpl. tauto.
      * unfold on_close in Hclose. by destruct code as [[|?|?]|].
    + right. right. by repeat split.
Qed.

(** ** The engine phase, seen from a run *)

Section EngineRuns.
Context `{Platform}.
Variables (env : Env) (w : World).

Lemma engine_phase_trace (dir : jsstring) (inv : EngineInvocation) (ser : jsstring)
    (s4 : St) :
  exists later,
    st_trace (settle_job w dir (engine_phase env w inv ser s4)).2
    = st_trace s4 ++ ESpawn (spawn_call env inv) (st_fs s4) :: later
    /\ Forall quiet later.
Proof.
  rewrite engine_phase_run.
  assert (forall l : list Event, (st_trace s4 ++ [ESpawn (spawn_call env inv) (st_fs s4)]) ++ l
            = st_trace s4 ++ ESpawn (spawn_call env inv) (st_fs s4) :: l) as Happ
    by (intros l; by rewrite <- app_assoc).
  assert (Forall quiet [ERm dir true true]) as Hrm
    by (constructor; [simpl; tauto | constructor]).
  assert (Forall quiet [EReadFile (outputPath inv); ERm dir true true]) as Hrd
    by (repeat (constructor; [simpl; tauto|]); constructor).
  destruct (er_end _) as [e|code|]; simpl.
  - exists [ERm dir true true]. by rewrite Happ.
  - destruct (on_close code _) as [a|e|]; simpl.
    + destruct (files _ !! _); simpl;
        exists [EReadFile (outputPath inv); ERm dir true true];
        by rewrite <- !app_assoc.
    + exists [ERm dir true true]. by rewrite Happ.
    + exists []. by rewrite <- Happ, app_nil_r.
  - exists []. by rewrite <- Happ, app_nil_r.
Qed.

(** A run in which a child was started went through the engine phase, and
    the child is the one that phase starts. *)
Lemma handle_spawned (fs : FS) (req : Request) (call : SpawnCall) (seen : FS) :
  In (ESpawn call seen) (st_trace (handle env w fs req).2) ->
  exists y dir s4 pre,
    st_resp s4 = None /\ st_trace s4 = EMkdtemp dir :: pre /\ Forall (calm y) pre
    /\ call = spawn_call env (job_invocation env (request_serialization env req) dir)
    /\ seen = st_fs s4
    /\ handle env w fs req
       = settle_job w dir
           (engine_phase env w (job_invocation env (request_serialization env req) dir)
              (request_serialization env req) s4).
Proof.
  intros Hin.
  destruct (handle_run env w fs req)
    as [(resp & _ & Hrun) | [(e & _ & Hrun)
        | [(y & dir & r & s' & evs & Hrun & Htr & Hevs & _)
          | (y & dir & s4 & pre & Hnone & Htr & Hpre & Hrun)]]];
    rewrite Hrun in Hin.
  - destruct Hin.
  - destruct Hin.
  - exfalso. apply calm_quiet in Hevs.
    assert (Forall quiet (st_trace (settle_job w dir (r, s')).2)) as Hq.
    { destruct r as [[]|e|]; simpl; rewrite Htr.
      - constructor; [simpl; tauto|]. apply Forall_app. split; [done|].
        constructor; [simpl; tauto | constructor].
      - constructor; [simpl; tauto|]. apply Forall_app. split; [done|].
        constructor; [simpl; tauto | constructor].
      - constructor; [simpl; tauto | done]. }
    exact (quiet_not_spawn _ _ _ Hq Hin).
  - destruct (engine_phase_trace dir
                (job_invocation env (request_serialization env req) dir)
                (request_serialization env req) s4) as (later & Htrace & Hlater).
    rewrite Htrace in Hin.
    apply spawn_unique in Hin as [-> ->]; [| |done].
    + exists y, dir, s4, pre. by repeat split.
    + rewrite Htr. constructor; [simpl; tauto | by eapply calm_quiet].
Qed.

Lemma failure_message_error (msg : jsstring) :
  msg <> [] -> failure_message (Error msg) = msg.
Proof.
  intros Hne. unfold failure_message. cbn [exn_message Error].
  apply truthy_string in Hne. by rewrite Hne.
Qed.

End EngineRuns.

(** X5.  A request is answered 200 only when its engine was started,
    closed with exit code 0 and left an output file: the body of the answer
    is the text of that file as the child left it, and the content type is
    the one of the requested serialization with [; charset=utf-8]. *)
Theorem ok_answer_is_engine_output `{Platform} (env : Env) (w : World) (fs : FS)
    (req : Request) (r : Response) :
  let run := handle env w fs req in
  st_resp run.2 = Some r -> resp_status r = 200 ->
  exists dir seen out,
    let ser := request_serialization env req in
    let inv := job_invocation env ser dir in
    let child := w_engine w (spawn_call env inv) seen in
    In (EMkdtemp dir) (st_trace run.2)
    /\ In (ESpawn (spawn_call env inv) seen) (st_trace run.2)
    /\ er_end child = Closed (Some 0)
    /\ files (er_fs child) !! outputPath inv = Some out
    /\ r = RSend 200 (contentTypeFor ser ++ js "; charset=utf-8") out
    /\ run.1 = Val tt.
Proof.
  intros run Hresp Hok. subst run.
  destruct (handle_run env w fs req)
    as [(resp & Hst & Hrun) | [(e & _ & Hrun)
        | [(y & dir & r0 & s' & evs & Hrun & Htr & Hevs & Hans)
          | (y & dir & s4 & pre & Hnone & Htr & Hpre & Hrun)]]];
    rewrite Hrun in *.
  - simpl in Hresp. simplify_eq. lia.
  - discriminate.
  - exfalso. destruct r0 as [[]|e|]; simpl in Hresp.
    + destruct Hans as [[Hno _] | (_ & lg & Hlg)]; [done|].
      rewrite Hlg in Hresp. by simplify_eq.
    + by simplify_eq.
    + destruct Hans as [[_ Hr] | [[=] _]]. congruence.
  - rewrite engine_phase_run in *.
    set (inv := job_invocation env (request_serialization env req) dir) in *.
    set (child := w_engine w (spawn_call env inv) (st_fs s4)) in *.
    destruct (er_end child) as [e|code|] eqn:Hend;
      cbn [settle_job st_resp snd cleaned] in Hresp;
      [by simplify_eq | | congruence].
    destruct (on_close code _) as [a|e|] eqn:Hclose;
      cbn [settle_job st_resp snd cleaned] in Hresp;
      [| by simplify_eq | congruence].
    apply on_close_val in Hclose as [-> _].
    destruct (files (er_fs child) !! outputPath inv) as [out|] eqn:Hout;
      cbn [settle_job st_resp snd cleaned] in Hresp; [|by simplify_eq].
    simplify_eq. exists dir, (st_fs s4), out. cbn zeta. fold inv child.
    cbn [settle_job st_trace snd fst cleaned]. rewrite Htr.
    split; [by left|]. split.
    { right. rewrite <- !app_assoc. apply in_app_iff. right. by left. }
    by repeat split.
Qed.

(** X5 at the sample job. *)
Lemma ok_answer_is_engine_output_witness :
  let run := @handle Sample.platform Sample.env_open (Sample.world 0 None) Sample.fs0
               (Sample.one_resource "mappings: x" "http://example.org/a.json") in
  exists dir seen out,
    let ser := request_serialization Sample.env_open
                 (Sample.one_resource "mappings: x" "http://example.org/a.json") in
    let inv := job_invocation Sample.env_open ser dir in
    let child := w_engine (Sample.world 0 None) (spawn_call Sample.env_open inv) seen in
    In (EMkdtemp dir) (st_trace run.2)
    /\ In (ESpawn (spawn_call Sample.env_open inv) seen) (st_trace run.2)
    /\ er_end child = Closed (Some 0)
    /\ files (er_fs child) !! outputPath inv = Some out
    /\ RSend 200 (js "text/turtle; charset=utf-8") (js "<s> <p> <o> .")
       = RSend 200 (contentTypeFor ser ++ js "; charset=utf-8") out
    /\ run.1 = Val tt.
Proof.
  refine (@ok_answer_is_engine_output Sample.platform Sample.env_open
            (Sample.world 0 None) Sample.fs0
            (Sample.one_resource "mappings: x" "http://example.org/a.json")
            (RSend 200 (js "text/turtle; charset=utf-8") (js "<s> <p> <o> .")) _ _).
  - vm_compute. reflexivity.
  - reflexivity.
Defined.

(** X6.  When the child of a job does not succeed, the job is answered 422
    "Mapping failed" and the handler completes normally.  If the child
    closed with a non-zero exit code, or was ended by a signal (no code), the
    message is "RMLMapper exited with code", the code (or [null]), a line
    feed and the stderr text kept.  If the child could not be started, the
    message is that of the spawn error.  If it closed with 0 but left no
    output file, the message is that of the failed read. *)
Theorem engine_failure_answers `{Platform} (env : Env) (w : World) (fs : FS)
    (req : Request) (call : SpawnCall) (seen : FS) :
  let run := handle env w fs req in
  let child := w_engine w call seen in
  In (ESpawn call seen) (st_trace run.2) ->
  (forall code,
     er_end child = Closed code -> code <> Some 0 ->
     run.1 = Val tt
     /\ st_resp run.2
        = Some (RJson 422
                  (JObj [field "error" (JStr (js "Mapping failed"));
                         field "message"
                           (JStr (exit_message code (collect_stderr (er_stderr child))))])))
  /\ (forall e,
        er_end child = SpawnFailed e ->
        run.1 = Val tt /\ st_resp run.2 = Some (mapping_failed e))
  /\ (er_end child = Closed (Some 0) ->
      forall dir, sp_cwd call = dir ->
      files (er_fs child)
        !! path_join dir (js "output." ++ outputExt (request_serialization env req)) = None ->
      run.1 = Val tt
      /\ st_resp run.2
         = Some (mapping_failed
                   (ENOENT (path_join dir
                              (js "output." ++ outputExt (request_serialization env req)))))).
Proof.
  intros run child Hin. subst run child.
  destruct (handle_spawned env w fs req call seen Hin)
    as (y & dir & s4 & pre & Hnone & Htr & Hpre & -> & -> & ->).
  rewrite engine_phase_run.
  set (inv := job_invocation env (request_serialization env req) dir).
  set (child := w_engine w (spawn_call env inv) (st_fs s4)).
  split; [|split].
  - intros code Hend Hcode. rewrite Hend.
    assert (on_close code (collect_stderr (er_stderr child))
            = Throw (Error (exit_message code (collect_stderr (er_stderr child)))))
      as ->.
    { unfold on_close, exit_message. by destruct code as [[|c|c]|]. }
    cbn [settle_job fst snd st_resp cleaned]. split; [done|].
    unfold mapping_failed. by rewrite failure_message_error.
  - intros e Hend. by rewrite Hend.
  - intros Hend d <- Hout. rewrite Hend.
    assert (on_close (Some 0) (collect_stderr (er_stderr child))
            = Val (collect_stderr (er_stderr child))) as -> by done.
    change (outputPath inv)
      with (path_join dir (js "output." ++ outputExt (request_serialization env req))).
    cbn [sp_cwd spawn_call workdir inv job_invocation] in Hout.
    by rewrite Hout.
Qed.

(** X6 at the sample job whose engine exits with 1 after two chunks. *)
Lemma engine_failure_answers_witness :
  let w := Sample.world 1 None in
  let req := Sample.one_resource "mappings: x" "http://example.org/a.json" in
  let call := spawn_call Sample.env_open
                (job_invocation Sample.env_open (js "turtle") Sample.workdir) in
  let seen := fs_write (path_join Sample.workdir (js "mapping.ttl"))
                (js "<#m> a <#TriplesMap> .")
                (fs_write (path_join Sample.workdir (js "a.json")) (js "{}")
                   (fs_mkdir Sample.workdir Sample.fs0)) in
  let run := @handle Sample.platform Sample.env_open w Sample.fs0 req in
  run.1 = Val tt
  /\ st_resp run.2
     = Some (RJson 422
               (JObj [field "error" (JStr (js "Mapping failed"));
                      field "message"
                        (JStr (exit_message (Some 1)
                                 (collect_stderr (er_stderr (w_engine w call seen)))))])).
Proof.
  intros w req call seen.
  refine (proj1 (@engine_failure_answers Sample.platform Sample.env_open w Sample.fs0
                   req call seen _) (Some 1) eq_refl _).
  - vm_compute. do 5 right. left. reflexivity.
  - discriminate.
Defined.

(** ** Validation stops at the first offender *)

Section FirstOffender.
Context `{Platform}.
Variable env : Env.

Lemma validate_accepted (r : JsVal) (items : list JsVal) (normalized : list ResourceRef)
    (s : St) :
  accepted env r ->
  validate env (r :: items) normalized s
  = validate env items (normalized ++ [normalize r]) s.
Proof.
  intros (Hurl & Hhttp & Hallow). cbn [validate]. fold (normalize r).
  unfold normalize in *. cbn [resourceUrl] in *.
  apply truthy_string in Hurl. rewrite Hurl, Hhttp. cbn [negb].
  rewrite bind_run. unfold lift. by rewrite Hallow.
Qed.

Lemma validate_rejected (r : JsVal) (items : list JsVal) (normalized : list ResourceRef)
    (s : St) :
  ~ accepted env r ->
  validate env (r :: items) normalized s
  = (Val None, mkSt (st_fs s) (st_trace s) (Some (rejection r))).
Proof.
  intros Hno. cbn [validate]. unfold rejection, accepted, normalize in *.
  cbn [resourceUrl] in *. set (url := trim (string_prop r "resourceUrl")) in *.
  destruct (eqb url []) eqn:Hurl.
  { apply eqb_true in Hurl. by rewrite Hurl. }
  cbn [truthy]. rewrite Hurl. cbn [negb].
  destruct (isHttpUrl url) eqn:Hhttp; cbn [negb]; [|done].
  destruct (isHttpUrl_parsed _ Hhttp) as (u & Hparse & _).
  rewrite bind_run. unfold lift. rewrite (isAllowedHost_parsed env _ _ Hparse).
  destruct (if (length (allow_list env) =? 0)%nat then true else _) eqn:Hallow; [|done].
  exfalso. apply Hno. apply eqb_false in Hurl. split; [done|]. split; [done|].
  by rewrite (isAllowedHost_parsed env _ _ Hparse), Hallow.
Qed.

Lemma validate_first_offender (good rest : list JsVal) (bad : JsVal)
    (normalized : list ResourceRef) (s : St) :
  Forall (accepted env) good -> ~ accepted env bad ->
  validate env (good ++ bad :: rest) normalized s
  = (Val None, mkSt (st_fs s) (st_trace s) (Some (rejection bad))).
Proof.
  intros Hgood Hbad. revert normalized.
  induction Hgood as [|r good Hr _ IH]; intros normalized; simpl app.
  - by apply validate_rejected.
  - rewrite validate_accepted by done. apply IH.
Qed.

End FirstOffender.

(** X7.  Validation stops at the first resource it does not accept: when
    the resources before it are all accepted, the request is answered with
    the rejection of that resource (400 for a missing or non-http(s) URL, 403
    for a host that is not allowed), whatever follows it in the list and in
    whatever world; the validation itself never throws, and nothing is
    fetched or created. *)
Theorem first_offender_answers `{Platform} (env : Env) (w : World) (fs : FS)
    (req : Request) (y : jsstring) (good rest : list JsVal) (bad : JsVal) :
  get_prop (req_body req) (js "yarrml") = JStr y -> trim y <> [] ->
  get_prop (req_body req) (js "resources") = JArr (good ++ bad :: rest) ->
  Forall (accepted env) good -> ~ accepted env bad ->
  handle env w fs req = (Val tt, mkSt fs [] (Some (rejection bad))).
Proof.
  intros Hy Hblank Hres Hgood Hbad. unfold handle, post_map.
  rewrite !body_prop, Hy, Hres. cbn [typeof str_of isArray arr_items].
  rewrite eqb_refl. apply truthy_string in Hblank. rewrite Hblank. cbn [negb orb].
  destruct (good ++ bad :: rest) as [|r0 l] eqn:Hl; [by destruct good|].
  rewrite <- Hl, bind_run, (validate_first_offender env good rest bad [] _ Hgood Hbad).
  reflexivity.
Qed.

(** X7 at a request whose second resource is an [ftp] URL and whose third
    has no URL at all. *)
Lemma first_offender_answers_witness :
  @handle Sample.platform Sample.env_open (Sample.world 0 None) Sample.fs0
    (Sample.request "mappings: x"
       [Sample.resource "http://example.org/a.json" "a.json";
        Sample.resource "ftp://example.org/b.json" "b.json"; JNull])
  = (Val tt,
     mkSt Sample.fs0 []
       (Some (error_only 400 (js "resourceUrl must be http(s): ftp://example.org/b.json")))).
Proof.
  refine (@first_offender_answers Sample.platform Sample.env_open (Sample.world 0 None)
            Sample.fs0
            (Sample.request "mappings: x"
               [Sample.resource "http://example.org/a.json" "a.json";
                Sample.resource "ftp://example.org/b.json" "b.json"; JNull])
            (js "mappings: x")
            [Sample.resource "http://example.org/a.json" "a.json"] [JNull]
            (Sample.resource "ftp://example.org/b.json" "b.json") eq_refl _ eq_refl _ _).
  - vm_compute. discriminate.
  - constructor; [|constructor]. vm_compute. repeat split; discriminate.
  - vm_compute. intros (_ & Hhttp & _). discriminate.
Defined.

(** ** A failing fetch; a failing conversion *)

Section FetchThenConvert.
Context `{Platform}.
Variables (env : Env) (w : World).

Lemma fetch_plan_body_in_time (deadline : Z) (net : NetOutcome) (text : jsstring) :
  (fetch_plan deadline net).2 = StepBody text ->
  exists t status tb,
    net = NetResponse t status (BodyText tb text)
    /\ t < deadline /\ tb < deadline /\ 200 <= status <= 299.
Proof.
  destruct net as [t status body|t e|]; simpl; [| |done].
  2: { by destruct (t <? deadline). }
  destruct (deadline <=? t) eqn:Ht; [done|]. apply Z.leb_gt in Ht.
  destruct (resp_ok status) eqn:Hok; [|done]. cbn [negb].
  destruct body as [tb text'|tb e|]; [| |done].
  2: { by destruct (tb <? deadline). }
  destruct (deadline <=? tb) eqn:Htb; [done|]. apply Z.leb_gt in Htb.
  intros [= ->]. exists t, status, tb. unfold resp_ok in Hok.
  apply andb_prop in Hok as [H1 H2]. apply Z.leb_le in H1, H2. by repeat split.
Qed.

Lemma fetch_all_delivers (dir : jsstring) (normalized : list ResourceRef) (s s' : St) :
  fetch_all env w dir normalized s = (Val tt, s') ->
  forall i ref, normalized !! i = Some ref -> delivers env w i (resourceUrl ref).
Proof.
  intros Hrun i ref Hi. unfold fetch_all in Hrun.
  rewrite bind_run, for_each_emit_run in Hrun.
  apply for_each_settle_val in Hrun as (evs2 & _ & Hall).
  destruct (Hall (make_task env w dir i ref)) as (text & json & Hstep & Hparse & _).
  { apply sort_by_time_In, list_elem_of_In, list_elem_of_lookup. exists i.
    by rewrite list_lookup_imap, Hi. }
  apply fetch_plan_body_in_time in Hstep as (t & status & tb & Hnet & Ht & Htb & Hst).
  by exists t, status, tb, text, json.
Qed.

Lemma settle_job_trace (dir : jsstring) (r : Res unit) (s : St) :
  st_trace (settle_job w dir (r, s)).2
  = st_trace s ++ match r with Hang => [] | _ => [ERm dir true true] end.
Proof. destruct r; simpl; [done|done|by rewrite app_nil_r]. Qed.




End FetchThenConvert.

(** X8.  One failing fetch stops the job: when some resource of the
    request is not delivered (no response or body before the deadline, a
    status outside 2xx, or a body that is not JSON), the converter is never
    called, no engine is started, and the request is not answered with 200. *)
Theorem failed_fetch_stops_job `{Platform} (env : Env) (w : World) (fs : FS)
    (req : Request) (items : list JsVal) (i : nat) (r : JsVal) :
  let run := handle env w fs req in
  get_prop (req_body req) (js "resources") = JArr items ->
  items !! i = Some r ->
  ~ delivers env w i (resourceUrl (normalize r)) ->
  Forall (fun e => ~ is_convert e /\ ~ is_spawn e) (st_trace run.2)
  /\ forall resp, st_resp run.2 = Some resp ->
       resp_status resp = 400 \/ resp_status resp = 403 \/ resp_status resp = 422.
Proof.
  intros run Hres Hi Hno. subst run.
  destruct (handle_cases env w fs req)
    as [(resp & Hst & ->) | [(e & _ & ->) | (y & items' & suffix & _ & Hres' & _ & _ & ->)]].
  { simpl. split; [constructor|]. intros resp' [= <-]. tauto. }
  { simpl. split; [constructor|]. done. }
  assert (items' = items) as -> by congruence.
  set (dir := workspace_of w suffix). set (s1 := created dir (initial fs)).
  set (ser := request_serialization env req).
  destruct (emits_fetch_all env w dir (List.map normalize items) s1) as (fevs & Htr & Hfev).
  pose proof (keeps_response_fetch_all env w dir (List.map normalize items) s1) as Hresp.
  assert (Forall (fun e => ~ is_convert e /\ ~ is_spawn e) (st_trace s1 ++ fevs)) as Hcalm.
  { apply Forall_app. split; [repeat constructor; simpl; tauto|].
    eapply List.Forall_impl; [|exact Hfev]. intros [] He; simpl in *; tauto. }
  unfold job_try.
  destruct (fetch_all env w dir (List.map normalize items) s1) as [[[]|e|] s2] eqn:Hf;
    simpl in Htr, Hresp.
  - exfalso. apply Hno.
    apply (fetch_all_delivers env w dir (List.map normalize items) s1 s2 Hf i (normalize r)).
    by rewrite list_lookup_fmap, Hi.
  - rewrite (job_body_fetch_throw env w ser y dir _ _ _ s1 s2 e Hf). simpl. split.
    + rewrite Htr. apply Forall_app. split; [done|]. repeat constructor; simpl; tauto.
    + intros resp [= <-]. simpl. tauto.
  - rewrite (job_body_fetch_hang env w ser y dir _ _ _ s1 s2 Hf). simpl. split.
    + by rewrite Htr.
    + by rewrite Hresp.
Qed.

(** X8 at a request whose second resource is on a host that answers 500. *)
Lemma failed_fetch_stops_job_witness :
  let run := @handle Sample.platform Sample.env_open (Sample.world 0 None) Sample.fs0
               (Sample.request "mappings: x"
                  [Sample.resource "http://example.org/a.json" "a.json";
                   Sample.resource "http://down/b.json" "b.json"]) in
  Forall (fun e => ~ is_convert e /\ ~ is_spawn e) (st_trace run.2)
  /\ forall resp, st_resp run.2 = Some resp ->
       resp_status resp = 400 \/ resp_status resp = 403 \/ resp_status resp = 422.
Proof.
  refine (@failed_fetch_stops_job Sample.platform Sample.env_open (Sample.world 0 None)
            Sample.fs0
            (Sample.request "mappings: x"
               [Sample.resource "http://example.org/a.json" "a.json";
                Sample.resource "http://down/b.json" "b.json"])
            _ 1%nat (Sample.resource "http://down/b.json" "b.json") eq_refl eq_refl _).
  intros (t & status & tb & text & json & Hnet & _ & _ & Hst & _).
  vm_compute in Hnet. injection Hnet as <- <- <- <-. lia.
Defined.



(** ** The documents the engine finds *)

Section FetchedDocuments.
Context `{Platform}.
Variables (env : Env) (w : World).

Lemma fold_insert_In (x : FetchTask) (l acc : list FetchTask) :
  In x (fold_left (fun acc t => insert_by_time t acc) l acc) <-> In x l \/ In x acc.
Proof.
  revert acc. induction l as [|t l IH]; intros acc; simpl; [tauto|].
  rewrite IH, insert_by_time_In. intuition.
Qed.

Lemma insert_by_time_split (t : FetchTask) (l : list FetchTask) :
  exists b a, insert_by_time t l = b ++ t :: a /\ (forall u, In u a -> In u l).
Proof.
  induction l as [|u rest IH]; simpl.
  { exists [], []. by split. }
  destruct (ft_at t <? ft_at u).
  - exists [], (u :: rest). by split.
  - destruct IH as (b & a & -> & Ha). exists (u :: b), a. split; [done|].
    intros x Hx. right. by apply Ha.
Qed.

(** Whatever the place a task for another file is inserted at, the tasks
    behind [t] stay tasks for other files. *)
Lemma insert_by_time_behind (v t : FetchTask) (b a : list FetchTask) :
  ft_path v <> ft_path t ->
  (forall u, In u a -> ft_path u <> ft_path t) ->
  exists b' a',
    insert_by_time v (b ++ t :: a) = b' ++ t :: a'
    /\ (forall u, In u a' -> ft_path u <> ft_path t).
Proof.
  intros Hv Ha. induction b as [|u b IH]; simpl.
  - destruct (ft_at v <? ft_at t).
    + exists [v], a. by split.
    + exists [], (insert_by_time v a). split; [done|].
      intros x Hx. apply (proj1 (insert_by_time_In _ _ _)) in Hx as [-> | Hx];
        [done | by apply Ha].
  - destruct (ft_at v <? ft_at u).
    + exists (v :: u :: b), a. by split.
    + destruct IH as (b' & a' & -> & Ha'). exists (u :: b'), a'. by split.
Qed.

Lemma fold_insert_behind (after b a : list FetchTask) (t : FetchTask) :
  (forall v, In v after -> ft_path v <> ft_path t) ->
  (forall u, In u a -> ft_path u <> ft_path t) ->
  exists b' a',
    fold_left (fun acc t => insert_by_time t acc) after (b ++ t :: a) = b' ++ t :: a'
    /\ (forall u, In u a' -> ft_path u <> ft_path t).
Proof.
  revert b a. induction after as [|v after IH]; intros b a Hafter Ha; simpl.
  { by exists b, a. }
  destruct (insert_by_time_behind v t b a) as (b' & a' & -> & Ha');
    [apply Hafter; by left | done |].
  apply IH; [|done]. intros v' Hv'. apply Hafter. by right.
Qed.

(** In whatever order the fetches settle, a task that alone writes its
    file has only tasks for other files behind it. *)
Lemma sort_by_time_unshared (before after : list FetchTask) (t : FetchTask) :
  (forall u, In u (before ++ after) -> ft_path u <> ft_path t) ->
  exists b a,
    sort_by_time (before ++ t :: after) = b ++ t :: a
    /\ (forall u, In u a -> ft_path u <> ft_path t).
Proof.
  intros Hother. unfold sort_by_time. rewrite fold_left_app. simpl.
  set (acc := fold_left _ before []).
  destruct (insert_by_time_split t acc) as (b & a & -> & Ha).
  apply fold_insert_behind.
  - intros v Hv. apply Hother, in_app_iff. by right.
  - intros u Hu. apply Ha, fold_insert_In in Hu as [Hu | []].
    apply Hother, in_app_iff. by left.
Qed.

Lemma for_each_settle_keeps (a : list FetchTask) (p : jsstring) (s s' : St) :
  for_each (fun t => fetch_settle w (ft_url t) (ft_path t) (ft_step t)) a s = (Val tt, s') ->
  (forall u, In u a -> ft_path u <> p) ->
  files (st_fs s') !! p = files (st_fs s) !! p.
Proof.
  revert s. induction a as [|u a IH]; intros s Hrun Ha.
  { by injection Hrun as <-. }
  cbn [for_each] in Hrun. rewrite bind_run in Hrun.
  destruct (fetch_settle w (ft_url u) (ft_path u) (ft_step u) s) as [[[]|e|] s1] eqn:Hu;
    [|done..].
  apply fetch_settle_val in Hu as (text & json & _ & _ & ->).
  rewrite (IH _ Hrun); [|intros x Hx; apply Ha; by right].
  simpl. apply lookup_insert_ne. apply Ha. by left.
Qed.

Lemma for_each_settle_last (b a : list FetchTask) (t : FetchTask) (s s' : St) :
  for_each (fun t => fetch_settle w (ft_url t) (ft_path t) (ft_step t)) (b ++ t :: a) s
    = (Val tt, s') ->
  (forall u, In u a -> ft_path u <> ft_path t) ->
  exists text json,
    ft_step t = StepBody text /\ JSON_parse text = Val json
    /\ files (st_fs s') !! ft_path t = Some (JSON_stringify_pretty json).
Proof.
  revert s. induction b as [|u b IH]; intros s Hrun Ha; simpl app in Hrun;
    cbn [for_each] in Hrun; rewrite bind_run in Hrun.
  - destruct (fetch_settle w (ft_url t) (ft_path t) (ft_step t) s) as [[[]|e|] s1] eqn:Ht;
      [|done..].
    apply fetch_settle_val in Ht as (text & json & Hstep & Hparse & ->).
    exists text, json. split; [done|]. split; [done|].
    rewrite (for_each_settle_keeps a (ft_path t) _ s' Hrun Ha). simpl.
    apply lookup_insert_eq.
  - destruct (fetch_settle w (ft_url u) (ft_path u) (ft_step u) s) as [[[]|e|] s1] eqn:Hu;
      [|done..].
    by apply (IH s1).
Qed.

(** After a fulfilled fetch phase, the file of a resource that shares it
    with no other resource holds the document of that resource. *)
Lemma fetch_all_unshared (dir : jsstring) (before after : list JsVal) (r : JsVal)
    (s s' : St) :
  fetch_all env w dir (List.map normalize (before ++ r :: after)) s = (Val tt, s') ->
  (forall r', In r' (before ++ after) -> target dir r' <> target dir r) ->
  exists json,
    fetched w (length before) (resourceUrl (normalize r)) json
    /\ files (st_fs s') !! target dir r = Some (JSON_stringify_pretty json).
Proof.
  intros Hrun Hother. unfold fetch_all in Hrun.
  rewrite bind_run, for_each_emit_run in Hrun.
  rewrite map_app, imap_app in Hrun. cbn [List.map] in Hrun. rewrite imap_cons in Hrun.
  rewrite length_map, Nat.add_0_r in Hrun.
  set (t := make_task env w dir (length before) (normalize r)) in *.
  destruct (sort_by_time_unshared
              (imap (make_task env w dir) (List.map normalize before))
              (imap ((fun n => make_task env w dir (length before + n)) ∘ S)
                    (List.map normalize after)) t)
    as (b & a & Hsort & Ha).
  - intros u [Hu | Hu]%in_app_iff; apply list_elem_of_In in Hu;
      apply elem_of_lookup_imap in Hu as (j & ref & -> & Hj);
      rewrite list_lookup_fmap in Hj.
    + destruct (before !! j) as [r'|] eqn:Hr'; [|done]. injection Hj as <-.
      apply (Hother r'), in_app_iff. left.
      apply list_elem_of_In. by apply list_elem_of_lookup_2 in Hr'.
    + destruct (after !! j) as [r'|] eqn:Hr'; [|done]. injection Hj as <-.
      apply (Hother r'), in_app_iff. right.
      apply list_elem_of_In. by apply list_elem_of_lookup_2 in Hr'.
  - rewrite Hsort in Hrun.
    apply for_each_settle_last in Hrun as (text & json & Hstep & Hparse & Hfile); [|done].
    exists json. split; [|done].
    apply fetch_plan_body in Hstep as (tm & status & tb & Hnet).
    by exists tm, status, tb, text.
Qed.

End FetchedDocuments.

(** X10.  The engine finds the fetched documents: when a child is started,
    the file of every resource that shares its file with no other resource of
    the request, and whose file is not the mapping document's, holds the JSON
    document fetched for that resource, pretty-printed, in whatever order the
    fetches came in. *)
Theorem engine_sees_fetched_document `{Platform} (env : Env) (w : World) (fs : FS)
    (req : Request) (call : SpawnCall) (seen : FS)
    (before after : list JsVal) (r : JsVal) :
  let run := handle env w fs req in
  let dir := sp_cwd call in
  In (ESpawn call seen) (st_trace run.2) ->
  get_prop (req_body req) (js "resources") = JArr (before ++ r :: after) ->
  target dir r <> path_join dir (js "mapping.ttl") ->
  (forall r', In r' (before ++ after) -> target dir r' <> target dir r) ->
  exists json,
    fetched w (length before) (resourceUrl (normalize r)) json
    /\ files seen !! target dir r = Some (JSON_stringify_pretty json).
Proof.
  intros run dir Hin Hres Hmap Hother. subst run.
  destruct (spawn_shape env w fs req call seen Hin)
    as (y & items & suffix & s2 & fevs & rml & later & Hshape).
  cbv zeta in Hshape.
  destruct Hshape as (_ & Hres' & Hf & _ & _ & Hcall & Hseen & _).
  assert (items = before ++ r :: after) as -> by congruence.
  assert (dir = workspace_of w suffix) as Hdir by (subst dir; by rewrite Hcall).
  rewrite Hdir in *.
  destruct (fetch_all_unshared env w _ before after r _ s2 Hf Hother)
    as (json & Hfetched & Hfile).
  exists json. split; [done|]. rewrite Hseen. unfold fs_write. cbn [files].
  by rewrite lookup_insert_ne.
Qed.

(** X10 at a request with the resources [a.json] and [b.json], for the
    second of them. *)
Lemma engine_sees_fetched_document_witness :
  let w := Sample.world 0 None in
  let a := Sample.resource "http://example.org/a.json" "a.json" in
  let b := Sample.resource "http://example.org/b.json" "b.json" in
  let req := Sample.request "mappings: x" [a; b] in
  let call := spawn_call Sample.env_open
                (job_invocation Sample.env_open (js "turtle") Sample.workdir) in
  let seen := fs_write (path_join Sample.workdir (js "mapping.ttl"))
                (js "<#m> a <#TriplesMap> .")
                (fs_write (path_join Sample.workdir (js "b.json")) (js "{}")
                   (fs_write (path_join Sample.workdir (js "a.json")) (js "{}")
                      (fs_mkdir Sample.workdir Sample.fs0))) in
  exists json,
    @fetched Sample.platform w 1 (resourceUrl (normalize b)) json
    /\ files seen !! target (sp_cwd call) b
       = Some (@JSON_stringify_pretty Sample.platform json).
Proof.
  intros w a b req call seen.
  refine (@engine_sees_fetched_document Sample.platform Sample.env_open w Sample.fs0 req
            call seen [a] [] b _ eq_refl _ _).
  - vm_compute. do 7 right. left. reflexivity.
  - vm_compute. discriminate.
  - intros r' [<- | []]. vm_compute. discriminate.
Defined.

(** ** The order of the first events; the files a job touches *)

Section JobEvents.
Context `{Platform}.
Variables (env : Env) (w : World).

Lemma emits_for_each_in {A} (P : Event -> Prop) (f : A -> M unit) (l : list A) :
  (forall x, In x l -> emits P (f x)) -> emits P (for_each f l).
Proof.
  induction l as [|x l IH]; intros Hf; simpl.
  - apply emits_ret.
  - apply emits_bind; [apply Hf; by left|]. intros _. apply IH.
    intros x' Hx'. apply Hf. by right.
Qed.

Lemma emits_fetch_settle_on (P : Event -> Prop) (url p : jsstring) (step : FetchStep) :
  P (EAbort url) -> (forall c, P (EWriteFile p c)) -> P (EWriteFailed p) ->
  emits P (fetch_settle w url p step).
Proof.
  intros Habort Hwrite Hfail. destruct step as [|e|text]; simpl.
  - apply emits_bind; [by apply emits_emit | intros _; apply emits_throw].
  - apply emits_throw.
  - apply emits_bind; [apply emits_lift|]. intros json. by apply emits_writeFile.
Qed.

(** What the [try] block does after the fetch phase. *)
Lemma job_body_tail (P : Event -> Prop) (ser y dir mp op : jsstring)
    (normalized : list ResourceRef) (s : St) :
  P (EConvert y) -> (forall c, P (EWriteFile mp c)) -> P (EWriteFailed mp) ->
  (forall c fs, P (ESpawn c fs)) -> P (EReadFile op) ->
  exists tail,
    st_trace (job_body env w ser y dir mp op normalized s).2
    = st_trace (fetch_all env w dir normalized s).2 ++ tail
    /\ Forall P tail.
Proof.
  intros Hconv Hwrite Hfail Hspawn Hread. unfold job_body. rewrite bind_run.
  destruct (fetch_all env w dir normalized s) as [[[]|e|] s2];
    [|exists []; by rewrite app_nil_r..].
  cbn [snd]. revert s2.
  apply emits_bind; [by apply emits_emit|]. intros _.
  destruct (yarrrml_convert y) as [e|converted getLogger]; [apply emits_throw|].
  destruct (match getLogger with Some lg => log_has_error lg | None => false end);
    [apply emits_respond|].
  apply emits_bind.
  { destruct converted; [apply emits_ret | apply emits_lift | apply emits_throw]. }
  intros rml. apply emits_bind; [by apply emits_writeFile|]. intros _.
  apply emits_bind; [by apply emits_runRmlMapper|]. intros _.
  apply emits_bind; [by apply emits_readFile|]. intros out.
  apply emits_respond.
Qed.

Lemma map_imap_url (f : nat -> ResourceRef -> FetchTask) (l : list ResourceRef) :
  (forall i ref, ft_url (f i ref) = resourceUrl ref) ->
  List.map (fun t => EFetch (ft_url t)) (imap f l)
  = List.map (fun ref => EFetch (resourceUrl ref)) l.
Proof.
  revert f. induction l as [|ref l IH]; intros f Hurl; [done|].
  rewrite imap_cons. cbn [List.map]. rewrite Hurl. f_equal.
  apply IH. intros i r. apply Hurl.
Qed.

(** The fetch phase starts every fetch, in the order of the list, before
    any of them settles. *)
Lemma fetch_all_trace (P : Event -> Prop) (dir : jsstring)
    (normalized : list ResourceRef) (s : St) :
  (forall ref, In ref normalized ->
     P (EAbort (resourceUrl ref))
     /\ (forall c, P (EWriteFile (path_join dir (fileName ref)) c))
     /\ P (EWriteFailed (path_join dir (fileName ref)))) ->
  exists sevs,
    st_trace (fetch_all env w dir normalized s).2
    = st_trace s ++ List.map (fun ref => EFetch (resourceUrl ref)) normalized ++ sevs
    /\ Forall P sevs.
Proof.
  intros HP. unfold fetch_all. rewrite bind_run, for_each_emit_run.
  assert (List.map (fun t => EFetch (ft_url t)) (imap (make_task env w dir) normalized)
          = List.map (fun ref => EFetch (resourceUrl ref)) normalized) as ->.
  { by apply map_imap_url. }
  destruct (emits_for_each_in P
              (fun t => fetch_settle w (ft_url t) (ft_path t) (ft_step t))
              (sort_by_time (imap (make_task env w dir) normalized)))
    with (s := after_events s (List.map (fun ref => EFetch (resourceUrl ref)) normalized))
    as (sevs & Htr & Hsevs).
  { intros t Ht. apply (proj1 (sort_by_time_In _ _)), list_elem_of_In in Ht.
    apply elem_of_lookup_imap in Ht as (i & ref & -> & Hi).
    destruct (HP ref) as (Ha & Hw & Hf);
      [apply list_elem_of_In; by apply list_elem_of_lookup_2 in Hi|].
    by apply emits_fetch_settle_on. }
  exists sevs. rewrite Htr. simpl. by rewrite <- app_assoc.
Qed.

(** The trace of a job that got its workspace. *)
Lemma job_trace (P : Event -> Prop) (ser y dir : jsstring) (items : list JsVal) (s : St) :
  (forall r, In r items ->
     P (EAbort (resourceUrl (normalize r)))
     /\ (forall c, P (EWriteFile (target dir r) c))
     /\ P (EWriteFailed (target dir r))) ->
  P (EConvert y) ->
  (forall c, P (EWriteFile (path_join dir (js "mapping.ttl")) c)) ->
  P (EWriteFailed (path_join dir (js "mapping.ttl"))) ->
  (forall c fs, P (ESpawn c fs)) ->
  P (EReadFile (path_join dir (js "output." ++ outputExt ser))) ->
  P (ERm dir true true) ->
  exists rest,
    st_trace (settle_job w dir (job_try env w ser y dir (List.map normalize items) s)).2
    = st_trace s
      ++ List.map (fun r => EFetch (resourceUrl (normalize r))) items ++ rest
    /\ Forall P rest.
Proof.
  intros Hitems Hconv Hwrite Hfail Hspawn Hread Hrm. unfold job_try.
  destruct (job_body_tail P ser y dir (path_join dir (js "mapping.ttl"))
              (path_join dir (js "output." ++ outputExt ser))
              (List.map normalize items) s) as (tail & Htr & Htail); [done..|].
  destruct (fetch_all_trace P dir (List.map normalize items) s) as (sevs & Hf & Hsevs).
  { intros ref (r & <- & Hr)%in_map_iff. by apply Hitems. }
  rewrite Hf, map_map in Htr.
  destruct (job_body _ _ _ _ _ _ _ _ s) as [res s'].
  rewrite settle_job_trace. simpl in Htr. rewrite Htr.
  exists (sevs ++ tail ++ match res with Hang => [] | _ => [ERm dir true true] end).
  split; [by rewrite <- !app_assoc|].
  apply Forall_app. split; [done|]. apply Forall_app. split; [done|].
  destruct res; repeat constructor; done.
Qed.

Lemma fileName_acceptable (r : JsVal) : acceptable (fileName (normalize r)).
Proof.
  unfold normalize. cbn [fileName].
  destruct (sanitize_cases (JStr (string_prop r "fileName")) (js "data.json"))
    as [-> | (s & _ & -> & Hacc)]; [apply acceptable_data_json | done].
Qed.

Lemma output_name_acceptable (ser : jsstring) : acceptable (js "output." ++ outputExt ser).
Proof.
  unfold outputExt.
  destruct (eqb ser (js "turtle")); [apply acceptable_test; vm_compute; reflexivity|].
  destruct (eqb ser (js "jsonld")); apply acceptable_test; vm_compute; reflexivity.
Qed.

Lemma mapping_name_acceptable : acceptable (js "mapping.ttl").
Proof. apply acceptable_test. vm_compute. reflexivity. Qed.

End JobEvents.

(** X11.  Nothing happens before every resource is accepted: a run with
    any event at all belongs to a request whose resources all passed the
    validation; it begins by creating one workspace and then starting the
    fetch of every resource, in the order of the list, before any fetch
    settles; no further fetch is started and no further workspace created. *)
Theorem fetches_start_after_validation `{Platform} (env : Env) (w : World) (fs : FS)
    (req : Request) (e : Event) :
  let run := handle env w fs req in
  In e (st_trace run.2) ->
  exists dir items rest,
    get_prop (req_body req) (js "resources") = JArr items
    /\ Forall (accepted env) items
    /\ st_trace run.2
       = EMkdtemp dir :: List.map (fun r => EFetch (resourceUrl (normalize r))) items ++ rest
    /\ Forall (fun e => ~ is_fetch e /\ ~ is_mkdtemp e) rest.
Proof.
  intros run Hin. subst run.
  destruct (handle_cases env w fs req)
    as [(resp & _ & Hrun) | [(e' & _ & Hrun)
        | (y & items & suffix & _ & Hres & Hacc & _ & Hrun)]];
    [by rewrite Hrun in Hin..|].
  rewrite Hrun.
  destruct (job_trace env w (fun e => ~ is_fetch e /\ ~ is_mkdtemp e)
              (request_serialization env req) y (workspace_of w suffix) items
              (created (workspace_of w suffix) (initial fs)))
    as (rest & Htr & Hrest); try (intros; simpl; tauto).
  exists (workspace_of w suffix), items, rest. by rewrite Htr.
Qed.

(** X11 at a sample job with two resources. *)
Lemma fetches_start_after_validation_witness :
  let run := @handle Sample.platform Sample.env_open (Sample.world 0 None) Sample.fs0
               (Sample.request "mappings: x"
                  [Sample.resource "http://example.org/a.json" "a.json";
                   Sample.resource "http://example.org/b.json" "b.json"]) in
  exists dir items rest,
    get_prop
      (req_body (Sample.request "mappings: x"
                   [Sample.resource "http://example.org/a.json" "a.json";
                    Sample.resource "http://example.org/b.json" "b.json"]))
      (js "resources") = JArr items
    /\ Forall (@accepted Sample.platform Sample.env_open) items
    /\ st_trace run.2
       = EMkdtemp dir :: List.map (fun r => EFetch (resourceUrl (normalize r))) items ++ rest
    /\ Forall (fun e => ~ is_fetch e /\ ~ is_mkdtemp e) rest.
Proof.
  refine (@fetches_start_after_validation Sample.platform Sample.env_open
            (Sample.world 0 None) Sample.fs0 _ (EMkdtemp Sample.workdir) _).
  vm_compute. left. reflexivity.
Defined.

(** X12.  Every file the handler writes or reads is named by joining the
    job's workspace with one acceptable name: non-empty, made of
    [[A-Za-z0-9._-]] only, without a path separator and without [..]. *)
Theorem file_access_confined `{Platform} (env : Env) (w : World) (fs : FS)
    (req : Request) (dir : jsstring) :
  let run := handle env w fs req in
  In (EMkdtemp dir) (st_trace run.2) ->
  Forall (confined dir) (st_trace run.2).
Proof.
  intros run Hin. subst run.
  destruct (handle_cases env w fs req)
    as [(resp & _ & Hrun) | [(e' & _ & Hrun)
        | (y & items & suffix & _ & Hres & Hacc & _ & Hrun)]];
    [by rewrite Hrun in Hin..|].
  rewrite Hrun in *. set (dir0 := workspace_of w suffix) in *.
  assert (forall name c, acceptable name ->
            confined dir0 (EWriteFile (path_join dir0 name) c)
            /\ confined dir0 (EWriteFailed (path_join dir0 name))
            /\ confined dir0 (EReadFile (path_join dir0 name))) as Hname.
  { intros name c Hname. repeat split; intros p [= <-]; by exists name. }
  destruct (job_trace env w (fun e => confined dir0 e /\ ~ is_mkdtemp e)
              (request_serialization env req) y dir0 items (created dir0 (initial fs)))
    as (rest & Htr & Hrest).
  - intros r _. unfold target.
    split; [split; [done | simpl; tauto]|]. split.
    + intros c. split; [|simpl; tauto].
      apply (Hname _ c), fileName_acceptable.
    + split; [|simpl; tauto]. apply (Hname _ []), fileName_acceptable.
  - split; [done | simpl; tauto].
  - intros c. split; [|simpl; tauto]. apply (Hname _ c), mapping_name_acceptable.
  - split; [|simpl; tauto]. apply (Hname _ []), mapping_name_acceptable.
  - intros c fs'. split; [done | simpl; tauto].
  - split; [|simpl; tauto]. apply (Hname _ []), output_name_acceptable.
  - split; [done | simpl; tauto].
  - rewrite Htr in *. simpl in Hin. destruct Hin as [[= <-] | Hin].
    + simpl. constructor; [done|]. apply Forall_app. split.
      * apply List.Forall_forall. intros e (r & <- & _)%in_map_iff. done.
      * eapply List.Forall_impl; [|exact Hrest]. by intros e' [He' _].
    + exfalso. apply in_app_iff in Hin as [(r & [=] & _)%in_map_iff | Hin].
      rewrite List.Forall_forall in Hrest. apply Hrest in Hin as [_ Hno].
      by apply Hno.
Qed.

(** X12 at a sample job. *)
Lemma file_access_confined_witness :
  Forall (confined Sample.workdir)
    (st_trace (@handle Sample.platform Sample.env_open (Sample.world 0 None) Sample.fs0
                 (Sample.one_resource "mappings: x" "http://example.org/a.json")).2).
Proof.
  refine (@file_access_confined Sample.platform Sample.env_open (Sample.world 0 None)
            Sample.fs0 (Sample.one_resource "mappings: x" "http://example.org/a.json")
            Sample.workdir _).
  vm_compute. left. reflexivity.
Defined.

(** ** Requests that are never answered *)

Section Liveness.
Context `{Platform}.
Variables (env : Env) (w : World).
Hypothesis JSON_parse_returns : forall text, JSON_parse text <> Hang.
Hypothesis writer_returns : forall quads, n3_write_turtle quads <> Hang.

Lemma writeFile_settles (p content : jsstring) (s : St) :
  (writeFile w p content s).1 <> Hang.
Proof.
  unfold writeFile. rewrite bind_run. simpl.
  destruct (bool_decide _); [done|]. by destruct (w_write_fails w p).
Qed.

Lemma fetch_settle_settles (url p : jsstring) (step : FetchStep) (s : St) :
  (fetch_settle w url p step s).1 <> Hang.
Proof.
  destruct step as [|e|text]; simpl; [done|done|].
  rewrite bind_run. unfold lift.
  pose proof (JSON_parse_returns text) as Hp.
  destruct (JSON_parse text) as [json|e|]; [|done|done].
  apply writeFile_settles.
Qed.

Lemma for_each_settles {A} (f : A -> M unit) (l : list A) (s : St) :
  (forall x s, (f x s).1 <> Hang) -> (for_each f l s).1 <> Hang.
Proof.
  intros Hf. revert s. induction l as [|x l IH]; intros s; [done|].
  cbn [for_each]. rewrite bind_run. specialize (Hf x s).
  destruct (f x s) as [[[]|e|] s1]; [apply IH | done | done].
Qed.

(** Thanks to the deadline of every fetch, the fetch phase comes to an
    end. *)
Lemma fetch_all_settles (dir : jsstring) (normalized : list ResourceRef) (s : St) :
  (fetch_all env w dir normalized s).1 <> Hang.
Proof.
  unfold fetch_all. rewrite bind_run, for_each_emit_run.
  apply for_each_settles. intros t s1. apply fetch_settle_settles.
Qed.

(** A [try] block that never ends is in its engine phase. *)
Lemma job_body_hang (ser y dir mp op : jsstring) (normalized : list ResourceRef) (s : St) :
  (job_body env w ser y dir mp op normalized s).1 = Hang ->
  exists s4,
    job_body env w ser y dir mp op normalized s
    = engine_phase env w (mkInvocation dir mp op ser (configured_base env)) ser s4.
Proof.
  pose proof (fetch_all_settles dir normalized s) as Hsettles.
  destruct (fetch_all env w dir normalized s) as [[[]|e|] s2] eqn:Hf; [| |done].
  2: { by rewrite (job_body_fetch_throw env w ser y dir mp op normalized s s2 e Hf). }
  unfold job_body. rewrite bind_run, Hf, emit_bind_run.
  change (engine_phase env w (mkInvocation dir mp op ser (configured_base env)))
    with (engine_phase env w (mkInvocation dir mp op ser
            (if truthy (JStr (trim (env_or env "BASE_IRI" [])))
             then Some (trim (env_or env "BASE_IRI" [])) else None))).
  set (inv := mkInvocation dir mp op ser _).
  assert (forall rml s3,
            let run := (writeFile w mp rml ≫= fun _ =>
                          runRmlMapper env w inv ≫= fun _ =>
                          readFile op ≫= fun out =>
                          respond (RSend 200 (contentTypeFor ser ++ js "; charset=utf-8") out))
                         s3 in
            run.1 = Hang -> exists s4, run = engine_phase env w inv ser s4) as Hwrite.
  { intros rml s3. cbn zeta. unfold writeFile. rewrite !bind_run. simpl.
    destruct (bool_decide _); [done|]. destruct (w_write_fails w mp); [done|].
    intros _.
    by exists (mkSt (fs_write mp rml (st_fs s3)) (st_trace s3 ++ [EWriteFile mp rml])
                 (st_resp s3)). }
  destruct (yarrrml_convert y) as [e|converted getLogger]; [done|].
  destruct (match getLogger with Some lg => log_has_error lg | None => false end);
    [done|].
  rewrite bind_run.
  destruct converted as [text|quads|ty]; [| |done].
  - cbn [mret M_ret]. apply Hwrite.
  - unfold quadsToTurtle, lift. pose proof (writer_returns quads) as Hq.
    destruct (n3_write_turtle quads) as [text|e|]; [apply Hwrite | done | done].
Qed.

End Liveness.

(** X13.  Given that [JSON.parse] and the Turtle writer come back, the
    only request that is never answered is one whose engine never exits:
    the handler's promise stays pending exactly when it started a child
    that never closes.  (Every fetch has its deadline; the child has none.) *)
Theorem pending_only_on_engine `{Platform} (env : Env) (w : World) (fs : FS)
    (req : Request) :
  let run := handle env w fs req in
  (forall text, JSON_parse text <> Hang) ->
  (forall quads, n3_write_turtle quads <> Hang) ->
  run.1 = Hang
  <-> exists call seen, In (ESpawn call seen) (st_trace run.2) /\ never_exits w call seen.
Proof.
  intros run Hjson Hwriter. subst run. split.
  - intros Hhang.
    destruct (handle_cases env w fs req)
      as [(resp & _ & Hrun) | [(e & _ & Hrun) | (y & items & suffix & _ & _ & _ & _ & Hrun)]];
      [by rewrite Hrun in Hhang..|].
    rewrite Hrun in *. unfold job_try in *.
    set (dir := workspace_of w suffix) in *.
    set (ser := request_serialization env req) in *.
    destruct (job_body_hang env w Hjson Hwriter ser y dir
                (path_join dir (js "mapping.ttl"))
                (path_join dir (js "output." ++ outputExt ser))
                (List.map normalize items) (created dir (initial fs))) as (s4 & Hphase).
    { destruct (job_body _ _ _ _ _ _ _ _ _) as [[[]|e|] s']; done. }
    rewrite Hphase in *. rewrite engine_phase_run in *.
    set (inv := mkInvocation dir _ _ ser _) in *.
    exists (spawn_call env inv), (st_fs s4). unfold never_exits.
    destruct (er_end (w_engine w (spawn_call env inv) (st_fs s4))) as [e|code|].
    + done.
    + destruct (on_close code _) as [a|e|] eqn:Hclose; [|done|].
      * by destruct (files _ !! _).
      * by destruct code as [[|c|c]|].
    + split; [|done]. simpl. apply in_app_iff. right. by left.
  - intros (call & seen & Hin & Hnever).
    destruct (handle_spawned env w fs req call seen Hin)
      as (y & dir & s4 & pre & _ & _ & _ & -> & -> & ->).
    rewrite engine_phase_run. unfold never_exits in Hnever. by rewrite Hnever.
Qed.

(** X13 at a sample job whose engine never exits. *)
Lemma pending_only_on_engine_witness :
  (@handle Sample.platform Sample.env_open Sample.stuck_world Sample.fs0
     (Sample.one_resource "mappings: x" "http://example.org/a.json")).1 = Hang.
Proof.
  refine (proj2 (@pending_only_on_engine Sample.platform Sample.env_open
                   Sample.stuck_world Sample.fs0
                   (Sample.one_resource "mappings: x" "http://example.org/a.json") _ _)
            (ex_intro _
               (spawn_call Sample.env_open
                  (job_invocation Sample.env_open (js "turtle") Sample.workdir))
               (ex_intro _
                  (fs_write (path_join Sample.workdir (js "mapping.ttl"))
                     (js "<#m> a <#TriplesMap> .")
                     (fs_write (path_join Sample.workdir (js "a.json")) (js "{}")
                        (fs_mkdir Sample.workdir Sample.fs0)))
                  (conj _ eq_refl)))).
  - intros text. simpl. unfold Sample.json_parse.
    repeat (destruct (eqb _ _); [discriminate|]). discriminate.
  - intros quads. discriminate.
  - vm_compute. do 5 right. left. reflexivity.
Defined.
